(** * Crypto signal panel: indicator library, strategy engine and pair scanner

    A shallow embedding of [crypto_signal_panel/utils.py],
    [crypto_signal_panel/strategy.py] and [crypto_signal_panel/scanner.py],
    and of the history update of [crypto_signal_panel/main.py].

    Numbers.  Python [float] and numpy [float64] are IEEE 754 binary64; they
    are embedded as Rocq's primitive [float], whose operations are the same
    binary64 operations and which has a single NaN.  Python [int] is [Z].

    Effects.  A Python exception is the [Raise] case of [result]; the
    strategy state that the source mutates in place is passed explicitly;
    what a scanner task does to the outside world (queue puts, sleeps) is
    the list of [event]s it emits. *)

From Stdlib Require Import Ascii String Floats ZArith Lia Bool Sorted List.
Import ListNotations.

Set Warnings "-inexact-float".

(** ** Exceptions and the error monad *)

Inductive exn : Type :=
| IndexError
| ZeroDivisionError
| TransportError (msg : string).

Inductive result (A : Type) : Type :=
| Ok (a : A)
| Raise (e : exn).

Arguments Ok {A} a.
Arguments Raise {A} e.

Definition bind {A B : Type} (m : result A) (k : A -> result B) : result B :=
  match m with
  | Ok a => k a
  | Raise e => Raise e
  end.

Notation "x <- m ;; k" := (bind m (fun x => k))
  (at level 61, m at next level, right associativity).

(** [for i in range(n): st = body(st, i)], stopping at the first raise. *)
Fixpoint for_each {S : Type} (body : S -> nat -> result S)
         (indices : list nat) (st : S) : result S :=
  match indices with
  | [] => Ok st
  | i :: rest => st' <- body st i ;; for_each body rest st'
  end.

Definition for_range {S : Type} (n : nat) (body : S -> nat -> result S)
           (st : S) : result S :=
  for_each body (seq 0 n) st.

(** ** The pandas operations the source uses

    A [Series] is the list of its values in index order.  The operations
    follow the pandas documentation; none of them raises. *)

Module Pandas.

Local Open Scope float_scope.

Definition Series := list float.

Definition of_nat (n : nat) : float := of_uint63 (Uint63.of_nat n).

(** [s.iat[i]] for [i >= 0]. *)
Definition iat {A : Type} (s : list A) (i : nat) : result A :=
  match nth_error s i with
  | Some v => Ok v
  | None => Raise IndexError
  end.

(** [s.iat[-1]]. *)
Definition iat_last {A : Type} (s : list A) : result A :=
  match rev s with
  | v :: _ => Ok v
  | [] => Raise IndexError
  end.

(** [s.iat[i] = v]. *)
Fixpoint set_iat {A : Type} (s : list A) (i : nat) (v : A) : result (list A) :=
  match s, i with
  | [], _ => Raise IndexError
  | _ :: t, O => Ok (v :: t)
  | x :: t, S j => t' <- set_iat t j v ;; Ok (x :: t')
  end.

Fixpoint zip_with {A B C : Type} (f : A -> B -> C)
         (s : list A) (t : list B) : list C :=
  match s, t with
  | x :: s', y :: t' => f x y :: zip_with f s' t'
  | _, _ => []
  end.

(** [np.where(cond, a, b)] on aligned series. *)
Fixpoint where_ {A : Type} (cond : list bool) (a b : list A) : list A :=
  match cond, a, b with
  | c :: cond', x :: a', y :: b' => (if c then x else y) :: where_ cond' a' b'
  | _, _, _ => []
  end.

(** [s.shift(1)]. *)
Definition shift1 (s : Series) : Series :=
  match s with
  | [] => []
  | _ :: _ => nan :: removelast s
  end.

(** [s.diff()]. *)
Definition diff (s : Series) : Series := zip_with sub s (shift1 s).

(** [s.clip(lower=lo)]: NaN stays NaN. *)
Definition clip_lower (lo : float) (s : Series) : Series :=
  map (fun x => if x <? lo then lo else x) s.

(** [s.clip(upper=hi)]. *)
Definition clip_upper (hi : float) (s : Series) : Series :=
  map (fun x => if hi <? x then hi else x) s.

(** [s.replace(0, np.nan)]: both zeros compare equal to 0. *)
Definition replace_zero_nan (s : Series) : Series :=
  map (fun x => if x =? 0 then nan else x) s.

(** [s.fillna(v)]. *)
Definition fillna (v : float) (s : Series) : Series :=
  map (fun x => if is_nan x then v else x) s.

(** [s.ewm(alpha=alpha, adjust=False).mean()] with the default
    [ignore_na=False] and [min_periods=0]: the first observation starts the
    average, [y_t = ((1-alpha) y_{t-1} + alpha x_t)] afterwards; a missing
    value repeats the average and ages its weight. *)
Fixpoint ewm_loop (alpha weighted old_wt : float) (vals : Series) : Series :=
  match vals with
  | [] => []
  | cur :: rest =>
      let is_observation := negb (is_nan cur) in
      let '(weighted', old_wt') :=
        if negb (is_nan weighted) then
          let old_wt1 := old_wt * (1 - alpha) in
          if is_observation then
            ((if weighted =? cur then weighted
              else (old_wt1 * weighted + alpha * cur) / (old_wt1 + alpha)),
             1)
          else (weighted, old_wt1)
        else ((if is_observation then cur else weighted), old_wt) in
      weighted' :: ewm_loop alpha weighted' old_wt' rest
  end.

Definition ewm_mean (alpha : float) (vals : Series) : Series :=
  match vals with
  | [] => []
  | x :: rest => x :: ewm_loop alpha x 1 rest
  end.

(** The window of [length] values ending at position [i], when there are
    that many. *)
Definition window (length : nat) (s : Series) (i : nat) : option (list float) :=
  if (length <=? S i)%nat then Some (firstn length (skipn (S i - length) s))
  else None.

(** [s.rolling(window=length, min_periods=length).agg()]: NaN until
    [length] values are there, and wherever the window holds a NaN. *)
Definition rolling (length : nat) (agg : list float -> float) (s : Series) : Series :=
  map (fun i =>
         match window length s i with
         | Some w => if existsb is_nan w then nan else agg w
         | None => nan
         end)
      (seq 0 (List.length s)).

Definition sum (w : list float) : float := fold_left add w 0.

Definition mean (w : list float) : float := sum w / of_nat (List.length w).

Definition std0 (w : list float) : float :=
  let m := mean w in
  sqrt (sum (map (fun x => (x - m) * (x - m)) w) / of_nat (List.length w)).

Definition fmin (a b : float) : float := if b <? a then b else a.
Definition fmax (a b : float) : float := if a <? b then b else a.

Definition min_of (w : list float) : float :=
  match w with
  | [] => nan
  | x :: t => fold_left fmin t x
  end.

Definition max_of (w : list float) : float :=
  match w with
  | [] => nan
  | x :: t => fold_left fmax t x
  end.

(** [max] over the non-missing values of a row ([skipna=True]). *)
Definition max_skipna (w : list float) : float :=
  max_of (filter (fun x => negb (is_nan x)) w).

(** [s.shift(n)] for [n >= 0]. *)
Definition shift (n : nat) (s : Series) : Series :=
  firstn (List.length s) (repeat nan n ++ s).

(** [s.diff(n)]. *)
Definition diff_n (n : nat) (s : Series) : Series := zip_with sub s (shift n s).

(** [s.cumsum()]: a missing value stays missing and is skipped. *)
Fixpoint cumsum_from (acc : option float) (s : Series) : Series :=
  match s with
  | [] => []
  | x :: rest =>
      if is_nan x then nan :: cumsum_from acc rest
      else
        let total := match acc with Some a => a + x | None => x end in
        total :: cumsum_from (Some total) rest
  end.

Definition cumsum (s : Series) : Series := cumsum_from None s.

(** [np.mean(np.abs(x - np.mean(x)))]. *)
Definition mean_abs_dev (w : list float) : float :=
  let m := mean w in
  mean (map (fun x => abs (x - m)) w).

End Pandas.

(** ** utils.py *)

Module Utils.

Import Pandas.
Local Open Scope float_scope.

Record Candle : Type := {
  timestamp : Z;
  open : float;
  high : float;
  low : float;
  close : float;
  volume : float
}.

(** A data frame indexed by timestamp: its rows, oldest first. *)
Definition DataFrame := list Candle.

Definition col (f : Candle -> float) (df : DataFrame) : Series := map f df.

Definition ema (series : Series) (length : nat) : Series :=
  ewm_mean (2 / (of_nat length + 1)) series.

Definition sma (series : Series) (length : nat) : Series :=
  rolling length mean series.

Definition stdev (series : Series) (length : nat) : Series :=
  rolling length std0 series.

Definition lowest (series : Series) (length : nat) : Series :=
  rolling length min_of series.

Definition highest (series : Series) (length : nat) : Series :=
  rolling length max_of series.

Definition change (series : Series) : Series := diff series.

Definition atr (df : DataFrame) (length : nat) : Series :=
  let high := col high df in
  let low := col low df in
  let close := col close df in
  let prev_close := shift1 close in
  let tr :=
    zip_with (fun hl rest => max_skipna (hl :: rest))
      (zip_with sub high low)
      (zip_with (fun a b => [a; b])
         (map abs (zip_with sub high prev_close))
         (map abs (zip_with sub low prev_close))) in
  rolling length mean tr.

(** Python's [x / y] on two [float]s. *)
Definition truediv (x y : float) : result float :=
  if y =? 0 then Raise ZeroDivisionError else Ok (x / y).

(** The local variables of [anchored_vwap]'s loop. *)
Record vwap_locals : Type := {
  cum_pv : float;
  cum_v : float;
  vwap_vals : list float
}.

Definition vwap_init : vwap_locals :=
  {| cum_pv := 0; cum_v := 0; vwap_vals := [] |}.

Definition vwap_body (prices volumes : Series) (anchor : list bool)
           (st : vwap_locals) (i : nat) : result vwap_locals :=
  a <- iat anchor i ;;
  p <- iat prices i ;;
  v <- iat volumes i ;;
  let cum_pv' := if a then p * v else cum_pv st + p * v in
  let cum_v' := if a then v else cum_v st + v in
  out <- (if 0 <? cum_v' then truediv cum_pv' cum_v' else Ok nan) ;;
  Ok {| cum_pv := cum_pv'; cum_v := cum_v'; vwap_vals := vwap_vals st ++ [out] |}.

(** The loop's locals after its first [k] iterations. *)
Definition vwap_after (prices volumes : Series) (anchor : list bool)
           (k : nat) : result vwap_locals :=
  for_range k (vwap_body prices volumes anchor) vwap_init.

Definition anchored_vwap (prices volumes : Series) (anchor : list bool)
  : result Series :=
  st <- vwap_after prices volumes anchor (List.length prices) ;;
  Ok (vwap_vals st).

(** [TV_TIMEFRAME_MAP]. *)
Definition TV_TIMEFRAME_MAP : list (string * string) :=
  [("1m", "1"); ("3m", "3"); ("5m", "5"); ("15m", "15"); ("30m", "30");
   ("1h", "60"); ("2h", "120"); ("4h", "240"); ("6h", "360"); ("12h", "720");
   ("1d", "D"); ("1w", "W"); ("1M", "M")]%string.

(** [d.get(key, default)] on a dictionary with string keys. *)
Fixpoint get {V : Type} (d : list (string * V)) (key : string) (default : V) : V :=
  match d with
  | [] => default
  | (k, v) :: rest => if String.eqb k key then v else get rest key default
  end.

(** [s.replace("/", "")]: [s] without its slashes. *)
Fixpoint replace_slash (s : string) : string :=
  match s with
  | EmptyString => EmptyString
  | String c rest =>
      if Ascii.eqb c "/"%char then replace_slash rest
      else String c (replace_slash rest)
  end.

Definition tradingview_link (symbol timeframe market : string) : string :=
  let base := replace_slash symbol in
  let tf := get TV_TIMEFRAME_MAP timeframe timeframe in
  ("https://www.tradingview.com/chart/?symbol=" ++ market ++ ":" ++ base
   ++ "&interval=" ++ tf)%string.

(** [l[start:]] for a Python list and any integer [start]. *)
Definition slice_from {A : Type} (l : list A) (start : Z) : list A :=
  let n := Z.of_nat (List.length l) in
  let lo := if (start <? 0)%Z then Z.max (n + start) 0 else Z.min start n in
  skipn (Z.to_nat lo) l.

Definition clip_history {A : Type} (history : list A) (limit : Z) : list A :=
  slice_from history (- limit).

End Utils.

(** ** strategy.py *)

Module Strategy.

Import Pandas Utils.
Local Open Scope float_scope.

(** [np.where(cond, a, v)] and friends with a scalar broadcast over the
    index of [like]. *)
Definition broadcast {A : Type} (like : list A) (v : float) : Series :=
  map (fun _ => v) like.

Definition gt_scalar (s : Series) (v : float) : list bool :=
  map (fun x => v <? x) s.

Definition rsi (series : Series) (length : nat) : Series :=
  let delta := diff series in
  let gain := clip_lower 0 delta in
  let loss := map opp (clip_upper 0 delta) in
  let avg_gain := ewm_mean (1 / of_nat length) gain in
  let avg_loss := ewm_mean (1 / of_nat length) loss in
  let rs := zip_with div avg_gain (replace_zero_nan avg_loss) in
  let rsi_vals := map (fun r => 100 - (100 / (1 + r))) rs in
  fillna 0 rsi_vals.

(** The series [avg_loss] inside [rsi]. *)
Definition rsi_avg_loss (series : Series) (length : nat) : Series :=
  ewm_mean (1 / of_nat length) (map opp (clip_upper 0 (diff series))).

Definition mfi (high low close volume : Series) (length : nat) : Series :=
  let tp := zip_with (fun hl c => (hl + c) / 3.0) (zip_with add high low) close in
  let prev_tp := shift1 tp in
  let mf := zip_with mul tp volume in
  let pos_mf := where_ (zip_with (fun t p => p <? t) tp prev_tp) mf (broadcast mf 0.0) in
  let neg_mf := where_ (zip_with (fun t p => t <? p) tp prev_tp) mf (broadcast mf 0.0) in
  let pos := rolling length sum pos_mf in
  let neg := rolling length sum neg_mf in
  let ratio := zip_with div pos (replace_zero_nan neg) in
  let mfi_vals := map (fun r => 100 - (100 / (1 + r))) ratio in
  fillna 0 mfi_vals.

Record StrategyState : Type := {
  accumulation_streak : Z;
  pending_signal : bool;
  bars_since_squeeze : Z;
  last_signal_bar_index : option Z
}.

(** [StrategyState()]. *)
Definition StrategyState_default : StrategyState :=
  {| accumulation_streak := 0;
     pending_signal := false;
     bars_since_squeeze := 0;
     last_signal_bar_index := None |}.

Definition set_accumulation_streak (state : StrategyState) (n : Z) : StrategyState :=
  {| accumulation_streak := n;
     pending_signal := pending_signal state;
     bars_since_squeeze := bars_since_squeeze state;
     last_signal_bar_index := last_signal_bar_index state |}.

Definition set_pending_signal (state : StrategyState) (b : bool) : StrategyState :=
  {| accumulation_streak := accumulation_streak state;
     pending_signal := b;
     bars_since_squeeze := bars_since_squeeze state;
     last_signal_bar_index := last_signal_bar_index state |}.

Definition set_last_signal_bar_index (state : StrategyState) (i : option Z)
  : StrategyState :=
  {| accumulation_streak := accumulation_streak state;
     pending_signal := pending_signal state;
     bars_since_squeeze := bars_since_squeeze state;
     last_signal_bar_index := i |}.

(** The series [chips_value] of [_market_flow]. *)
Definition chips_value_series (df : DataFrame) : Series :=
  let dma_y_period := 3%nat in
  let cm2_multiplier := 10.0 in
  let ema_cm3_len := 5%nat in
  let low_lookback_cm4 := 30%nat in
  let cm3_high_lookback_cm5 := 30%nat in
  let low_lookback_cm6 := 60%nat in
  let ema_cm7_len := 3%nat in
  let cm8_scale_num := 10.0 in
  let cm8_scale_denom := 618.0 in
  let low := col low df in
  let volume := col volume df in
  let x_nu := map abs (change low) in
  let x_de := clip_lower 0 (change low) in
  let loss := ema x_nu dma_y_period in
  let gain := ema x_de dma_y_period in
  let cm1 := where_ (gt_scalar gain 0)
                    (zip_with div loss gain)
                    (map (fun l => l / 1e-6) loss) in
  let cm2 := map (fun x => x * cm2_multiplier) cm1 in
  let cm3 := ema cm2 ema_cm3_len in
  let cm4 := lowest low low_lookback_cm4 in
  let cm5 := highest cm3 cm3_high_lookback_cm5 in
  let cm6 := where_ (zip_with PrimFloat.eqb low (lowest low low_lookback_cm6))
                    (broadcast df 1) (broadcast df 0) in
  let cm7 := where_ (zip_with PrimFloat.leb low cm4)
                    (zip_with (fun c3 c5 => (c3 + c5 * 2) / 2) cm3 cm5)
                    (broadcast df 0) in
  let cm8 := zip_with (fun e c6 => cm8_scale_num * e / cm8_scale_denom * c6)
                      (ema cm7 ema_cm7_len) cm6 in
  where_ (gt_scalar volume 0) cm8 (broadcast df 0).

(** The boolean series [is_raw_accumulation] of [_market_flow]. *)
Definition is_raw_accumulation (df : DataFrame) : list bool :=
  let chips_alert_threshold := 0.1 in
  let chips_value := chips_value_series df in
  zip_with andb (gt_scalar chips_value chips_alert_threshold)
                (map (fun c => negb (is_nan c)) chips_value).

(** The dictionary [_market_flow] returns. *)
Record MarketFlow : Type := {
  mf_chips_value : float;
  mf_is_confirmed_accumulation : bool
}.

Definition _market_flow (df : DataFrame) (state : StrategyState)
  : MarketFlow * StrategyState :=
  let chips_confirmation_bars := 2%Z in
  let chips_value := chips_value_series df in
  let is_raw_accumulation := is_raw_accumulation df in
  let state :=
    if (1 <=? List.length df)%nat then
      if last is_raw_accumulation false
      then set_accumulation_streak state (accumulation_streak state + 1)
      else set_accumulation_streak state 0
    else state in
  let is_confirmed_accumulation :=
    (chips_confirmation_bars <=? accumulation_streak state)%Z in
  ({| mf_chips_value := match df with [] => 0.0 | _ => last chips_value 0.0 end;
      mf_is_confirmed_accumulation := is_confirmed_accumulation |},
   state).

(** The series [is_vix_spike] of [_trend_rider]. *)
Definition is_vix_spike_series (df : DataFrame) : list bool :=
  let pd_len := 22%nat in
  let bbl := 20%nat in
  let mult_vix := 2.0 in
  let vix_ph_input := 0.85 in
  let low := col low df in
  let close := col close df in
  let wvf := where_ (gt_scalar (highest close pd_len) 0)
                    (zip_with (fun h l => (h - l) / h * 100)
                              (highest close pd_len) low)
                    (broadcast df 0) in
  let sDev := map (fun s => mult_vix * s) (stdev wvf bbl) in
  let midLine := sma wvf bbl in
  let upperBand := zip_with add midLine sDev in
  let rangeHigh := map (fun h => h * vix_ph_input) (highest wvf pd_len) in
  zip_with orb (zip_with (fun w u => u <=? w) wvf upperBand)
               (zip_with (fun w r => r <=? w) wvf rangeHigh).

(** The entry of [_trend_rider]'s dictionary that [compute_signal] reads.
    The other three entries (chips, divergence, squeeze) are never read by
    [compute_signal]; their computation has no side effect and reads
    positions inside the frame only (a pivot sits at position 15 or later,
    so [len_bars <= len(df) - 10]). *)
Record TrendRider : Type := {
  tr_is_vix_spike : bool
}.

Definition _trend_rider (df : DataFrame) : TrendRider :=
  {| tr_is_vix_spike :=
       match df with [] => false | _ => last (is_vix_spike_series df) false end |}.

(** The four series [_vwap_price_channel] fills in its loop; a missing
    entry of the integer series is [None]. *)
Record channel_locals : Type := {
  upper : Series;
  lower : Series;
  dir : list (option Z);
  dir2 : list (option Z)
}.

Definition nan_to_zero (x : float) : float := if is_nan x then 0 else x.

Definition channel_body (hst lst h_change l_change : Series)
           (new_high new_low : list bool)
           (st : channel_locals) (i : nat) : result channel_locals :=
  nh <- iat new_high i ;;
  st <-
    (if nh then
       h <- iat hst i ;;
       upper' <- set_iat (upper st) i h ;;
       dir' <- set_iat (dir st) i (Some 1%Z) ;;
       dir2' <- set_iat (dir2 st) i (Some 1%Z) ;;
       Ok {| upper := upper'; lower := lower st; dir := dir'; dir2 := dir2' |}
     else if (0 <? i)%nat then
       prev_upper <- iat (upper st) (i - 1) ;;
       h <- iat hst i ;;
       h_prev <- iat hst (i - 1) ;;
       hc <- iat h_change i ;;
       let stepped := prev_upper + nan_to_zero hc in
       upper' <- set_iat (upper st) i
                   (if h =? h_prev then stepped else fmin h stepped) ;;
       nl <- iat new_low i ;;
       dir' <- set_iat (dir st) i (Some (if nl then (-1)%Z else 0%Z)) ;;
       d2_prev <- iat (dir2 st) (i - 1) ;;
       dir2' <- set_iat (dir2 st) i (if nl then Some (-1)%Z else d2_prev) ;;
       Ok {| upper := upper'; lower := lower st; dir := dir'; dir2 := dir2' |}
     else
       h <- iat hst i ;;
       upper' <- set_iat (upper st) i h ;;
       nl <- iat new_low i ;;
       dir' <- set_iat (dir st) i (Some (if nl then (-1)%Z else 0%Z)) ;;
       d <- iat dir' i ;;
       dir2' <- set_iat (dir2 st) i d ;;
       Ok {| upper := upper'; lower := lower st; dir := dir'; dir2 := dir2' |}) ;;
  nl <- iat new_low i ;;
  if nl then
    l <- iat lst i ;;
    lower' <- set_iat (lower st) i l ;;
    Ok {| upper := upper st; lower := lower'; dir := dir st; dir2 := dir2 st |}
  else if (0 <? i)%nat then
    prev_lower <- iat (lower st) (i - 1) ;;
    l <- iat lst i ;;
    l_prev <- iat lst (i - 1) ;;
    lc <- iat l_change i ;;
    let stepped := prev_lower + nan_to_zero lc in
    lower' <- set_iat (lower st) i
                (if l =? l_prev then stepped else fmax l stepped) ;;
    Ok {| upper := upper st; lower := lower'; dir := dir st; dir2 := dir2 st |}
  else
    l <- iat lst i ;;
    lower' <- set_iat (lower st) i l ;;
    Ok {| upper := upper st; lower := lower'; dir := dir st; dir2 := dir2 st |}.

(** The four series keep the length [n] of the frame's index. *)
Definition channel_wf (n : nat) (st : channel_locals) : Prop :=
  List.length (upper st) = n /\ List.length (lower st) = n
  /\ List.length (dir st) = n /\ List.length (dir2 st) = n.

(** The tuple [_vwap_price_channel] returns. *)
Record Channel : Type := {
  ch_upper : float;
  ch_lower : float;
  ch_mid : float;
  ch_hst : float;
  ch_lst : float;
  ch_dir : Z;
  ch_dir2 : Z
}.

Definition int_or_zero (v : option Z) : Z :=
  match v with Some z => z | None => 0%Z end.

Definition _vwap_price_channel (df : DataFrame) (length : nat) : result Channel :=
  let high := col high df in
  let low := col low df in
  let volume := col volume df in
  let hst := highest high length in
  let lst := lowest low length in
  let new_high := zip_with PrimFloat.eqb high hst in
  let new_low := zip_with PrimFloat.eqb low lst in
  h_vwap <- anchored_vwap high volume new_high ;;
  l_vwap <- anchored_vwap low volume new_low ;;
  let h_change := change h_vwap in
  let l_change := change l_vwap in
  st <- for_range (List.length df)
          (channel_body hst lst h_change l_change new_high new_low)
          {| upper := broadcast df nan;
             lower := broadcast df nan;
             dir := map (fun _ => None) df;
             dir2 := map (fun _ => None) df |} ;;
  let mid := zip_with (fun u l => (u + l) / 2.0) (upper st) (lower st) in
  u <- iat_last (upper st) ;;
  l <- iat_last (lower st) ;;
  m <- iat_last mid ;;
  h <- iat_last hst ;;
  lw <- iat_last lst ;;
  d <- iat_last (dir st) ;;
  d2 <- iat_last (dir2 st) ;;
  Ok {| ch_upper := u; ch_lower := l; ch_mid := m; ch_hst := h; ch_lst := lw;
        ch_dir := int_or_zero d; ch_dir2 := int_or_zero d2 |}.

(** Lines 388-400 of [compute_signal], the entry state machine: the locals
    of one evaluation. *)
Record Entry : Type := {
  accumulation_signal : bool;
  panic_mode : bool;
  normal_entry : bool;
  pending_entry : bool;
  long_condition : bool
}.

Definition resolve_entry (accumulation_signal panic_mode : bool)
           (state : StrategyState) : Entry * StrategyState :=
  let normal_entry := accumulation_signal && negb panic_mode in
  let state :=
    if accumulation_signal && panic_mode
    then set_pending_signal state true else state in
  let pending_entry := pending_signal state && negb panic_mode in
  let state :=
    if pending_entry then set_pending_signal state false else state in
  ({| accumulation_signal := accumulation_signal;
      panic_mode := panic_mode;
      normal_entry := normal_entry;
      pending_entry := pending_entry;
      long_condition := normal_entry || pending_entry |},
   state).

(** The dictionary [compute_signal] returns. *)
Record SignalDict : Type := {
  sig_long_condition : bool;
  sig_tp_target : float;
  sig_sl_price : float;
  sig_chips_value : float;
  sig_bars_since : Z;
  sig_pending_signal : bool
}.

(** Lines 384-400 of [compute_signal] on [df] in [state]: the entry locals
    and the state before the signal bar is recorded. *)
Definition resolved (df : DataFrame) (state : StrategyState)
  : Entry * StrategyState :=
  resolve_entry (mf_is_confirmed_accumulation (fst (_market_flow df state)))
                (tr_is_vix_spike (_trend_rider df))
                (snd (_market_flow df state)).

(** The entry locals of an evaluation of [compute_signal] on [df] in
    [state]. *)
Definition entry_of (df : DataFrame) (state : StrategyState) : Entry :=
  fst (resolved df state).

(** [compute_signal(df, state)]: what it returns or raises, and [state] as
    the call leaves it. *)
Definition compute_signal (df : DataFrame) (state : StrategyState)
  : result SignalDict * StrategyState :=
  let '(mf, state) := _market_flow df state in
  let tr := _trend_rider df in
  match _vwap_price_channel df 20 with
  | Raise e => (Raise e, state)
  | Ok ch =>
      let accumulation_signal := mf_is_confirmed_accumulation mf in
      let panic_mode := tr_is_vix_spike tr in
      let '(entry, state) := resolve_entry accumulation_signal panic_mode state in
      let atr_length := 14%nat in
      let atr_multiplier_sl := 1.5 in
      let sl_price_series :=
        zip_with sub (col close df)
                 (map (fun a => a * atr_multiplier_sl) (atr df atr_length)) in
      let sl_price := last sl_price_series nan in
      let bar := (Z.of_nat (List.length df) - 1)%Z in
      let state :=
        if long_condition entry
        then set_last_signal_bar_index state (Some bar) else state in
      let bars_since :=
        match last_signal_bar_index state with
        | Some idx => Z.max 0 (bar - idx)
        | None => 0%Z
        end in
      (Ok {| sig_long_condition := long_condition entry;
             sig_tp_target := ch_upper ch;
             sig_sl_price := sl_price;
             sig_chips_value := mf_chips_value mf;
             sig_bars_since := bars_since;
             sig_pending_signal := pending_signal state |},
       state)
  end.

(** [compute_signal] on the successive closed bars of one pair, the state
    threaded through: per bar, the entry locals and what the call returned. *)
Fixpoint evaluate (dfs : list DataFrame) (state : StrategyState)
  : list (Entry * result SignalDict) * StrategyState :=
  match dfs with
  | [] => ([], state)
  | df :: rest =>
      let '(r, state1) := compute_signal df state in
      let '(out, state2) := evaluate rest state1 in
      ((entry_of df state, r) :: out, state2)
  end.

(** *** The oscillators of the divergence search *)

Definition macd (series : Series) (fast slow signal_len : nat)
  : Series * Series * Series :=
  let ema_fast := ema series fast in
  let ema_slow := ema series slow in
  let macd_line := zip_with sub ema_fast ema_slow in
  let signal := ema macd_line signal_len in
  let hist := zip_with sub macd_line signal in
  (macd_line, signal, hist).

Definition mom (series : Series) (length : nat) : Series := diff_n length series.

Definition typical_price (high low close : Series) : Series :=
  zip_with (fun hl c => (hl + c) / 3.0) (zip_with add high low) close.

Definition cci (high low close : Series) (length : nat) : Series :=
  let tp := typical_price high low close in
  let tp_sma := sma tp length in
  let md := rolling length mean_abs_dev tp in
  zip_with div (zip_with sub tp tp_sma)
           (map (fun m => 0.015 * m) (replace_zero_nan md)).

Definition obv (close volume : Series) : Series :=
  let prev_close := shift1 close in
  let direction :=
    where_ (zip_with (fun c p => p <? c) close prev_close) volume
           (where_ (zip_with (fun c p => c <? p) close prev_close)
                   (map opp volume) (broadcast close 0)) in
  cumsum direction.

Definition stoch (high low close : Series) (length : nat) : Series * Series :=
  let lowest_l := lowest low length in
  let highest_h := highest high length in
  let denom := replace_zero_nan (zip_with sub highest_h lowest_l) in
  let fast_k :=
    zip_with (fun q d => q / d * 100) (zip_with sub close lowest_l) denom in
  let k := sma fast_k 3 in
  let d := sma k 3 in
  (k, d).

Definition vwma (close volume : Series) (length : nat) : Series :=
  let pv := rolling length sum (zip_with mul close volume) in
  let v := rolling length sum volume in
  zip_with div pv (replace_zero_nan v).

(** The series [neg] inside [mfi]: the rolling sum of the negative money
    flow. *)
Definition mfi_negative_flow (high low close volume : Series) (length : nat)
  : Series :=
  let tp := typical_price high low close in
  let mf := zip_with mul tp volume in
  rolling length sum
    (where_ (zip_with (fun t p => t <? p) tp (shift1 tp)) mf (broadcast mf 0.0)).

(** *** [_trend_rider] in full *)

(** [s.where(cond)]. *)
Definition where_nan (cond : list bool) (s : Series) : Series :=
  where_ cond s (broadcast s nan).

Definition pivothigh (high_s : Series) (left right : nat) : Series :=
  where_nan (zip_with PrimFloat.eqb high_s
                      (highest (shift right high_s) (left + right + 1)))
            high_s.

Definition pivotlow (low_s : Series) (left right : nat) : Series :=
  where_nan (zip_with PrimFloat.eqb low_s
                      (lowest (shift right low_s) (left + right + 1)))
            low_s.

(** The four lists the pivot loop fills, newest pivot first. *)
Record pivots : Type := {
  ph_positions : list nat;
  ph_vals : list float;
  pl_positions : list nat;
  pl_vals : list float
}.

Definition pivot_body (pivot_high pivot_low : Series) (st : pivots) (i : nat)
  : result pivots :=
  ph <- iat pivot_high i ;;
  let st :=
    if negb (is_nan ph) then
      {| ph_positions := firstn 20 (i :: ph_positions st);
         ph_vals := firstn 20 (ph :: ph_vals st);
         pl_positions := pl_positions st;
         pl_vals := pl_vals st |}
    else st in
  pl <- iat pivot_low i ;;
  Ok (if negb (is_nan pl) then
        {| ph_positions := ph_positions st;
           ph_vals := ph_vals st;
           pl_positions := firstn 20 (i :: pl_positions st);
           pl_vals := firstn 20 (pl :: pl_vals st) |}
      else st).

(** The inner loop [for y in range(1, len_bars)] of a divergence search:
    whether the two virtual lines are never undercut ([arrived]).
    [price_breaks] is [<] in the regular search and [>] in the hidden
    one. *)
Fixpoint line_holds (price_breaks : float -> float -> bool)
         (src low : Series) (len_bars : nat) (slope1 slope2 : float)
         (ys : list nat) (virtual_line1 virtual_line2 : float) : result bool :=
  match ys with
  | [] => Ok true
  | y :: rest =>
      let virtual_line1 := virtual_line1 + slope1 in
      let virtual_line2 := virtual_line2 + slope2 in
      s <- iat src (len_bars - y) ;;
      if s <? virtual_line1 then Ok false
      else
        l <- iat low (len_bars - y) ;;
        if price_breaks l virtual_line2 then Ok false
        else line_holds price_breaks src low len_bars slope1 slope2 rest
                        virtual_line1 virtual_line2
  end.

(** The outer loop [for x in range(min(maxpp, len(pl_positions)))] of a
    divergence search, returning [divlen].  [src_diverges a b] compares
    [src.iat[startpoint]] with [src.iat[len_bars]], [price_diverges]
    compares [prsc.iat[startpoint]] with the pivot value.  Positions are
    below [n = len(df)], so [n - pos] is taken in [nat]. *)
Fixpoint divergence_loop (src_diverges price_diverges price_breaks
                          : float -> float -> bool)
         (n : nat) (low : Series) (pl_positions : list nat)
         (pl_vals : list float) (src : Series) (xs : list nat) : result nat :=
  let prd := 5%nat in
  let maxbars := 100%nat in
  let startpoint := 1%nat in
  match xs with
  | [] => Ok 0%nat
  | x :: rest =>
      let pos := nth x pl_positions 0%nat in
      let val := nth x pl_vals nan in
      if (pos =? 0)%nat then Ok 0%nat
      else
        let len_bars := (n - pos + prd)%nat in
        if (maxbars <? len_bars)%nat then Ok 0%nat
        else if (5 <? len_bars)%nat then
          s0 <- iat src startpoint ;;
          s1 <- iat src len_bars ;;
          if src_diverges s0 s1 then
            p0 <- iat low startpoint ;;
            let pivot := if negb (is_nan val) then val else p0 in
            if price_diverges p0 pivot then
              let slope1 := (s0 - s1) / of_nat len_bars in
              let slope2 := (p0 - pivot) / of_nat len_bars in
              arrived <- line_holds price_breaks src low len_bars slope1 slope2
                                    (seq 1 (len_bars - 1)) s1 pivot ;;
              if arrived then Ok len_bars
              else divergence_loop src_diverges price_diverges price_breaks
                                   n low pl_positions pl_vals src rest
            else divergence_loop src_diverges price_diverges price_breaks
                                 n low pl_positions pl_vals src rest
          else divergence_loop src_diverges price_diverges price_breaks
                               n low pl_positions pl_vals src rest
        else divergence_loop src_diverges price_diverges price_breaks
                             n low pl_positions pl_vals src rest
  end.

Definition gt (a b : float) : bool := b <? a.

Definition _positive_regular_bullish_divergence (n : nat) (low : Series)
           (pv : pivots) (src : Series) : result nat :=
  let maxpp := 10%nat in
  divergence_loop gt PrimFloat.ltb PrimFloat.ltb n low
                  (pl_positions pv) (pl_vals pv) src
                  (seq 0 (Nat.min maxpp (List.length (pl_positions pv)))).

Definition _positive_hidden_bullish_divergence (n : nat) (low : Series)
           (pv : pivots) (src : Series) : result nat :=
  let maxpp := 10%nat in
  divergence_loop PrimFloat.ltb gt gt n low
                  (pl_positions pv) (pl_vals pv) src
                  (seq 0 (Nat.min maxpp (List.length (pl_positions pv)))).

(** [calc and (regular(src) > 0 or hidden(src) > 0)] or-ed over the
    oscillators, left to right, stopping at the first that holds. *)
Fixpoint any_divergence (n : nat) (low : Series) (pv : pivots)
         (oscillators : list Series) : result bool :=
  match oscillators with
  | [] => Ok false
  | src :: rest =>
      r <- _positive_regular_bullish_divergence n low pv src ;;
      if (0 <? r)%nat then Ok true
      else
        h <- _positive_hidden_bullish_divergence n low pv src ;;
        if (0 <? h)%nat then Ok true
        else any_divergence n low pv rest
  end.

(** The ten oscillators, in the order of the test. *)
Definition oscillators (df : DataFrame) : list Series :=
  let high := col high df in
  let low := col low df in
  let close := col close df in
  let volume := col volume df in
  let rsi_vals := rsi close 14 in
  let '(macd_line, macd_signal, deltamacd) := macd close 12 26 9 in
  let moment := mom close 10 in
  let cci_vals := cci high low close 20 in
  let obv_vals := obv close volume in
  let '(k, d) := stoch high low close 14 in
  let stk := k in
  let maFast := vwma close volume 12 in
  let maSlow := vwma close volume 26 in
  let vwmacd := zip_with sub maFast maSlow in
  let moneyFlowMultiplier :=
    where_ (map (fun r => r =? 0) (zip_with sub high low))
           (broadcast df 0)
           (zip_with div
              (zip_with sub (zip_with sub close low) (zip_with sub high close))
              (zip_with sub high low)) in
  let moneyFlowVolume := zip_with mul moneyFlowMultiplier volume in
  let sma_vol := sma volume 21 in
  let cmf :=
    where_ (map (fun v => v =? 0) sma_vol) (broadcast df 0)
           (zip_with div (sma moneyFlowVolume 21) sma_vol) in
  let mfi_vals := mfi high low close volume 14 in
  [macd_line; deltamacd; rsi_vals; stk; cci_vals; moment; obv_vals; vwmacd;
   cmf; mfi_vals].

(** The series [chips_raw] of [_trend_rider]. *)
Definition chips_raw_series (df : DataFrame) : Series :=
  let low := col low df in
  let close := col close df in
  let volume := col volume df in
  let loss_cm := ema (map abs (change low)) 3 in
  let gain_cm := ema (clip_lower 0 (change low)) 3 in
  let cm1_cm := where_ (map (fun g => negb (g =? 0)) gain_cm)
                       (zip_with div loss_cm gain_cm) (broadcast df 0) in
  let cm2_cm := where_ (map (fun c => 0 <? c * 1.2) close)
                       (map (fun c => c * 10) cm1_cm)
                       (map (fun c => c / 10) cm1_cm) in
  let cm3_cm := ema cm2_cm 5 in
  let cm4_cm := lowest low 30 in
  let cm5_cm := highest cm3_cm 30 in
  let cm6_cm := where_ (gt_scalar (lowest low 60) 0)
                       (broadcast df 1) (broadcast df 0) in
  let cm7_cm := where_ (zip_with PrimFloat.leb low cm4_cm)
                       (zip_with (fun c3 c5 => (c3 + c5 * 2) / 2) cm3_cm cm5_cm)
                       (broadcast df 0) in
  let cm8_cm := zip_with (fun e c6 => 10 * e / 618 * c6) (ema cm7_cm 3) cm6_cm in
  where_ (gt_scalar volume 0) cm8_cm (broadcast df 0).

(** The series [is_squeeze_now] of [_trend_rider]. *)
Definition is_squeeze_now_series (df : DataFrame) : list bool :=
  let bbw_length := 20%nat in
  let bbw_mult := 2.0 in
  let squeeze_lookback := 100%nat in
  let close := col close df in
  let basis := sma close bbw_length in
  let dev := map (fun s => bbw_mult * s) (stdev close bbw_length) in
  let bbw := where_ (map (fun b => b =? 0) basis) (broadcast df 0)
                    (zip_with (fun d b => 2 * d / b * 100) dev basis) in
  zip_with PrimFloat.leb bbw (lowest bbw squeeze_lookback).

(** The dictionary [_trend_rider] returns. *)
Record TrendRiderDict : Type := {
  is_vix_spike : bool;
  is_chips_accumulating : bool;
  is_bullish_divergence_detected : bool;
  is_squeeze_now : bool
}.

(** The pivot lists of a frame. *)
Definition find_pivots (df : DataFrame) : result pivots :=
  let prd := 5%nat in
  let pivot_high := pivothigh (col high df) prd prd in
  let pivot_low := pivotlow (col low df) prd prd in
  for_range (List.length df) (pivot_body pivot_high pivot_low)
            {| ph_positions := []; ph_vals := [];
               pl_positions := []; pl_vals := [] |}.

Definition _trend_rider_dict (df : DataFrame) : result TrendRiderDict :=
  let chips_threshold := 0.1 in
  let is_chips_accumulating := gt_scalar (chips_raw_series df) chips_threshold in
  let is_vix_spike := is_vix_spike_series df in
  pv <- find_pivots df ;;
  divergence <- any_divergence (List.length df) (col low df) pv
                               (oscillators df) ;;
  let is_squeeze_now := is_squeeze_now_series df in
  Ok {| is_vix_spike :=
          match df with [] => false | _ => last is_vix_spike false end;
        is_chips_accumulating :=
          match df with [] => false | _ => last is_chips_accumulating false end;
        is_bullish_divergence_detected := divergence;
        is_squeeze_now :=
          match df with [] => false | _ => last is_squeeze_now false end |}.

End Strategy.

(** ** main.py *)

Module Main.

Import Utils.

(** Lines 107-109: [if new_signals: history.extend(new_signals);
    history = clip_history(history, limit=50)]. *)
Definition update_history {A : Type} (history new_signals : list A) : list A :=
  match new_signals with
  | [] => history
  | _ :: _ => clip_history (history ++ new_signals) 50
  end.

End Main.

(** ** scanner.py *)

Module Scanner.

Import Pandas Utils Strategy.
Local Open Scope string_scope.

(** The values of the dictionaries put on the two queues. *)
Inductive value : Type :=
| VNone
| VStr (s : string)
| VInt (z : Z)
| VFloat (x : float).

Definition Dict := list (string * value).

Record PairState : Type := {
  symbol : string;
  timeframe : string;
  market_type : string;
  state : StrategyState;
  ohlcv : list Candle;
  last_closed_ts : option Z
}.

(** What a task does to the outside world, in order. *)
Inductive event : Type :=
| status_put (d : Dict)
| signal_put (d : Dict)
| sleep (seconds : float).

Definition is_status (ev : event) : bool :=
  match ev with status_put _ => true | _ => false end.

Definition is_signal (ev : event) : bool :=
  match ev with signal_put _ => true | _ => false end.

(** [str(e)]. *)
Definition str (e : exn) : string :=
  match e with
  | IndexError => "index out of bounds"
  | ZeroDivisionError => "float division by zero"
  | TransportError msg => msg
  end.

Definition ohlcv_to_df (ohlcv : list Candle) : DataFrame := ohlcv.

Definition status_dict (pair : PairState) (last_ts : Z) (mode : string) : Dict :=
  [("symbol", VStr (symbol pair));
   ("market_type", VStr (market_type pair));
   ("timeframe", VStr (timeframe pair));
   ("last_ts", VInt last_ts);
   ("mode", VStr mode)].

Definition error_dict (pair : PairState) (e : exn) (mode : string) : Dict :=
  [("symbol", VStr (symbol pair));
   ("market_type", VStr (market_type pair));
   ("timeframe", VStr (timeframe pair));
   ("error", VStr (str e));
   ("mode", VStr mode)].

Definition signal_dict (pair : PairState) (last_ts : Z) (current_price : float)
           (sig : SignalDict) : Dict :=
  [("symbol", VStr (symbol pair));
   ("market_type", VStr (market_type pair));
   ("timeframe", VStr (timeframe pair));
   ("signal_time", VInt last_ts);
   ("current_price", VFloat current_price);
   ("bars_since", VInt (sig_bars_since sig));
   ("upper_target", VFloat (sig_tp_target sig));
   ("atr_stop", VFloat (sig_sl_price sig));
   ("strength", VFloat (sig_chips_value sig))].

Definition set_state (pair : PairState) (st : StrategyState) : PairState :=
  {| symbol := symbol pair; timeframe := timeframe pair;
     market_type := market_type pair; state := st;
     ohlcv := ohlcv pair; last_closed_ts := last_closed_ts pair |}.

Definition set_closed (pair : PairState) (last_ts : Z) (rows : list Candle)
  : PairState :=
  {| symbol := symbol pair; timeframe := timeframe pair;
     market_type := market_type pair; state := state pair;
     ohlcv := rows; last_closed_ts := Some last_ts |}.

(** [pair.last_closed_ts is None or last_ts > pair.last_closed_ts]. *)
Definition is_new_bar (pair : PairState) (last_ts : Z) : bool :=
  match last_closed_ts pair with
  | None => true
  | Some ts => (ts <? last_ts)%Z
  end.

(** One pass through the body of [_watch_pair]'s [while True] loop, given
    what the awaited transport call returned or raised: the pair as the
    pass leaves it, the events of the pass, and the exception that left the
    loop, if one did. *)
Definition loop_body (mode : string) (pair : PairState)
           (fetched : result (list Candle))
  : PairState * list event * option exn :=
  match fetched with
  | Raise e => (pair, [], Some e)
  | Ok [] => (pair, [sleep 0.1%float], None)
  | Ok rows =>
      let df := ohlcv_to_df rows in
      match iat_last (map timestamp df) with
      | Raise e => (pair, [], Some e)
      | Ok last_ts =>
          if is_new_bar pair last_ts then
            let pair := set_closed pair last_ts rows in
            let status := status_put (status_dict pair last_ts mode) in
            let '(sig, st) := compute_signal df (state pair) in
            let pair := set_state pair st in
            match sig with
            | Raise e => (pair, [status], Some e)
            | Ok sig =>
                if sig_long_condition sig then
                  match iat_last (col close df) with
                  | Raise e => (pair, [status], Some e)
                  | Ok current_price =>
                      (pair,
                       [status;
                        signal_put (signal_dict pair last_ts current_price sig);
                        sleep 0%float],
                       None)
                  end
                else (pair, [status; sleep 0%float], None)
            end
          else (pair, [sleep 0%float], None)
      end
  end.

(** A task either waits for its next transport call or has returned. *)
Inductive task_status : Type :=
| Awaiting
| Returned.

(** [_watch_pair] run against the outcomes of its successive transport
    calls: [try: while True: body  except Exception as e: put; sleep(1)]. *)
Fixpoint _watch_pair (mode : string) (pair : PairState)
         (transport : list (result (list Candle)))
  : PairState * list event * task_status :=
  match transport with
  | [] => (pair, [], Awaiting)
  | fetched :: rest =>
      match loop_body mode pair fetched with
      | (pair', events, Some e) =>
          (pair',
           (events ++ [status_put (error_dict pair' e mode); sleep 1%float])%list,
           Returned)
      | (pair', events, None) =>
          let '(pair'', events', status) := _watch_pair mode pair' rest in
          (pair'', (events ++ events')%list, status)
      end
  end.

(** The order of [last_closed_ts] values; [None] comes before every
    timestamp. *)
Definition ts_le (a b : option Z) : Prop :=
  match a, b with
  | None, _ => True
  | Some x, Some y => (x <= y)%Z
  | Some _, None => False
  end.

(** *** The scanner object and its pairs *)

(** The configuration, as [yaml.safe_load] returns it: an absent key is
    [None]. *)
Record ExchangeConfig : Type := {
  ex_name : option string;
  ex_type : option string;
  ex_use_ccxt_pro : option bool;
  ex_api_key : option string;
  ex_secret : option string
}.

Record SymbolsConfig : Type := {
  sym_whitelist : option (list string);
  sym_blacklist : option (list string)
}.

Record Config : Type := {
  cfg_exchange : option ExchangeConfig;
  cfg_timeframes : option (list string);
  cfg_symbols : option SymbolsConfig
}.

(** [d.get(key, default)] where the sub-dictionary itself defaults to
    [{}]. *)
Definition get_in {D V : Type} (d : option D) (field : D -> option V)
           (default : V) : V :=
  match d with
  | Some d' => match field d' with Some v => v | None => default end
  | None => default
  end.

(** The attributes of a [SignalScanner] that the scan reads. *)
Record SignalScanner : Type := {
  exchange_name : string;
  exchange_type : string;
  use_ccxt_pro : bool;
  timeframes : list string;
  whitelist : list string;
  pairs : list PairState;
  mode : string
}.

(** [s in l] for strings. *)
Definition mem (s : string) (l : list string) : bool :=
  existsb (String.eqb s) l.

(** [SignalScanner.__init__]. *)
Definition __init__ (config : Config) : SignalScanner :=
  let whitelist := get_in (cfg_symbols config) sym_whitelist [] in
  let blacklist := get_in (cfg_symbols config) sym_blacklist [] in
  {| exchange_name := get_in (cfg_exchange config) ex_name "binance";
     exchange_type := get_in (cfg_exchange config) ex_type "both";
     use_ccxt_pro := get_in (cfg_exchange config) ex_use_ccxt_pro true;
     timeframes :=
       match cfg_timeframes config with
       | Some tfs => tfs
       | None => ["1h"; "4h"; "1d"]
       end;
     whitelist := filter (fun s => negb (mem s blacklist)) whitelist;
     pairs := [];
     mode := "rest" |}.

(** [PairState(symbol=sym, timeframe=tf, market_type=mt)]. *)
Definition new_pair (sym tf mt : string) : PairState :=
  {| symbol := sym; timeframe := tf; market_type := mt;
     state := StrategyState_default; ohlcv := []; last_closed_ts := None |}.

(** The pairs [_load_markets] appends for one symbol and timeframe. *)
Definition pairs_of (exchange_type sym tf : string) : list PairState :=
  new_pair sym tf "spot"
  :: (if mem exchange_type ["both"; "futures"]
      then [new_pair sym tf "futures"] else []).

(** The loop of [_load_markets] that builds the pairs. *)
Definition _load_markets (self : SignalScanner) : SignalScanner :=
  {| exchange_name := exchange_name self;
     exchange_type := exchange_type self;
     use_ccxt_pro := use_ccxt_pro self;
     timeframes := timeframes self;
     whitelist := whitelist self;
     pairs :=
       (pairs self
        ++ flat_map (fun sym =>
                       flat_map (fun tf => pairs_of (exchange_type self) sym tf)
                                (timeframes self))
                    (whitelist self))%list;
     mode := mode self |}.

(** *** What a consumer reads off the queues *)

(** The [last_ts] of the statuses put, in order; an error status has
    none. *)
Definition status_times (events : list event) : list Z :=
  flat_map (fun ev =>
              match ev with
              | status_put d =>
                  match get d "last_ts" VNone with VInt z => [z] | _ => [] end
              | _ => []
              end) events.

(** The [signal_time] of the signals put, in order. *)
Definition signal_times (events : list event) : list Z :=
  flat_map (fun ev =>
              match ev with
              | signal_put d =>
                  match get d "signal_time" VNone with VInt z => [z] | _ => [] end
              | _ => []
              end) events.

(** Whether an event is a status that carries an [error]. *)
Definition is_error_status (ev : event) : bool :=
  match ev with
  | status_put d =>
      match get d "error" VNone with VNone => false | _ => true end
  | _ => false
  end.

(** A timestamp is after [last_closed_ts]. *)
Definition after_closed (closed : option Z) (t : Z) : Prop :=
  match closed with
  | Some c => (c < t)%Z
  | None => True
  end.

End Scanner.

(** ** The order of binary64 values

    A rank for the values that are not NaN, whose lexicographic order is
    their numerical order (both zeros share a rank). *)

Module Binary64.

Definition rank (x : spec_float) : Z * Z * Z :=
  match x with
  | S754_zero _ => (0, 0, 0)%Z
  | S754_infinity false => (2, 0, 0)%Z
  | S754_infinity true => (-2, 0, 0)%Z
  | S754_nan => (0, 0, 0)%Z
  | S754_finite false m e => (1, e, Z.pos m)%Z
  | S754_finite true m e => (-1, - e, - Z.pos m)%Z
  end.

Definition rank_lt (a b : Z * Z * Z) : Prop :=
  let '(a1, a2, a3) := a in
  let '(b1, b2, b3) := b in
  (a1 < b1 \/ (a1 = b1 /\ (a2 < b2 \/ (a2 = b2 /\ a3 < b3))))%Z.

Definition rank_le (a b : Z * Z * Z) : Prop :=
  let '(a1, a2, a3) := a in
  let '(b1, b2, b3) := b in
  (a1 < b1 \/ (a1 = b1 /\ (a2 < b2 \/ (a2 = b2 /\ a3 <= b3))))%Z.

End Binary64.

(** ** Sample inputs *)

Module Samples.

Import Pandas Utils Strategy Scanner.
Local Open Scope float_scope.

(** A candle whose four prices are [price]. *)
Definition bar (i : nat) (price vol : float) : Candle :=
  {| timestamp := Z.of_nat i; open := price; high := price; low := price;
     close := price; volume := vol |}.

(** [n] bars, each one unit below the one before. *)
Definition falling (n : nat) : DataFrame :=
  map (fun i => bar i (200 - of_nat i) 1) (seq 0 n).

(** [n] falling bars, then [m] bars recovering. *)
Definition recovering (n m : nat) : DataFrame :=
  falling n ++ map (fun i => bar (n + i) (200 - of_nat n + 2 + of_nat i) 1) (seq 0 m).

(** [n] bars at one price, without volume. *)
Definition flat (n : nat) : DataFrame :=
  map (fun i => bar i 1 0) (seq 0 n).

(** A state in which one confirming bar has been seen. *)
Definition one_confirming : StrategyState :=
  {| accumulation_streak := 1; pending_signal := false;
     bars_since_squeeze := 0; last_signal_bar_index := None |}.

(** A state holding a deferred signal. *)
Definition holding : StrategyState :=
  {| accumulation_streak := 3; pending_signal := true;
     bars_since_squeeze := 0; last_signal_bar_index := Some 40%Z |}.

(** A pair whose last closed candle is at [ts]. *)
Definition closed_at (ts : Z) : PairState :=
  {| symbol := "BTC/USDT"; timeframe := "1h"; market_type := "spot";
     state := StrategyState_default; ohlcv := []; last_closed_ts := Some ts |}.

Definition btc_1h : PairState :=
  {| symbol := "BTC/USDT"; timeframe := "1h"; market_type := "spot";
     state := StrategyState_default; ohlcv := []; last_closed_ts := None |}.

End Samples.

(** * Facts *)

Import Pandas Utils Strategy Scanner Samples Main.

(** ** The model on small inputs *)

Section SmallInputs.
Local Open Scope float_scope.

Example sma_3 : sma [5; 6; 7; 8] 3 = [nan; nan; 6; 7].
Proof. reflexivity. Qed.

Example ema_3 : ema [1; 3; 3] 3 = [1; 2; 2.5].
Proof. reflexivity. Qed.

Example highest_2 : highest [1; 3; 2; 0] 2 = [nan; 3; 3; 2].
Proof. reflexivity. Qed.

(** Anchor, accumulate, anchor again. *)
Example anchored_vwap_3 :
  anchored_vwap [10; 20; 30] [1; 3; 2] [true; false; true]
  = Ok [10; 17.5; 30].
Proof. reflexivity. Qed.

(** An empty frame makes [compute_signal] raise, in the price channel. *)
Example compute_signal_empty :
  compute_signal [] StrategyState_default
  = (Raise IndexError, StrategyState_default).
Proof. reflexivity. Qed.

(** Sixty falling bars confirm nothing yet; the sixty-first, with panic,
    defers the signal. *)
Example falling_61_defers :
  let s60 := snd (compute_signal (falling 60) StrategyState_default) in
  let s61 := snd (compute_signal (falling 61) s60) in
  accumulation_streak s60 = 1%Z /\ pending_signal s60 = false
  /\ accumulation_streak s61 = 2%Z /\ pending_signal s61 = true.
Proof. vm_compute. repeat split; reflexivity. Qed.

End SmallInputs.

(** ** Binary64 facts *)

Section FloatFacts.
Local Open Scope float_scope.

Lemma div_nan_r (x : float) : x / nan = nan.
Proof.
  apply Prim2SF_inj. rewrite FloatAxioms.div_spec.
  change (Prim2SF nan) with S754_nan.
  destruct (Prim2SF x); reflexivity.
Qed.

Lemma pos_nonzero (x : float) : (0 <? x) = true -> (x =? 0) = false.
Proof.
  rewrite FloatAxioms.ltb_spec, FloatAxioms.eqb_spec.
  change (Prim2SF 0) with (S754_zero false).
  destruct (Prim2SF x) as [s | s | | s m e]; simpl; try discriminate;
    destruct s; simpl; auto; discriminate.
Qed.

Lemma is_nan_nan : is_nan nan = true.
Proof. reflexivity. Qed.


Lemma ltb_not_nan (x y : float) : (x <? y) = true -> is_nan y = false.
Proof.
  unfold is_nan. rewrite FloatAxioms.ltb_spec, FloatAxioms.eqb_spec.
  unfold SFltb, SFeqb.
  destruct (Prim2SF y) as [s | s | | s m e].
  - reflexivity.
  - destruct s; reflexivity.
  - destruct (Prim2SF x); discriminate.
  - intros _. simpl.
    destruct s; rewrite Z.compare_refl, Pos.compare_cont_refl; reflexivity.
Qed.

End FloatFacts.

(** ** The error monad and loops *)

Section LoopFacts.
Context {S : Type}.
Variable body : S -> nat -> result S.

Lemma for_each_app (xs ys : list nat) (st : S) :
  for_each body (xs ++ ys) st = (st' <- for_each body xs st ;; for_each body ys st').
Proof.
  revert st. induction xs as [| x xs IH]; intros st; simpl; [reflexivity |].
  destruct (body st x); simpl; auto.
Qed.

Lemma for_range_S (n : nat) (st : S) :
  for_range (Datatypes.S n) body st = (st' <- for_range n body st ;; body st' n).
Proof.
  unfold for_range. rewrite seq_S, for_each_app. simpl.
  destruct (for_each body (seq 0 n) st); simpl; [| reflexivity].
  destruct (body a n); reflexivity.
Qed.

(** A loop whose body cannot raise under an invariant runs to its end. *)
Lemma for_range_inv (P : nat -> S -> Prop) (n : nat) (st : S) :
  P 0%nat st ->
  (forall i st, (i < n)%nat -> P i st ->
                exists st', body st i = Ok st' /\ P (Datatypes.S i) st') ->
  exists st', for_range n body st = Ok st' /\ P n st'.
Proof.
  intros H0 Hstep. induction n as [| n IH].
  - exists st. split; [reflexivity | assumption].
  - destruct IH as (st1 & E1 & P1).
    { intros i s Hi. apply Hstep. lia. }
    destruct (Hstep n st1 (Nat.lt_succ_diag_r n) P1) as (st2 & E2 & P2).
    exists st2. rewrite for_range_S, E1. simpl. auto.
Qed.

(** An exception that leaves the loop was raised by its body. *)
Lemma for_each_raise (xs : list nat) (st : S) (e : exn) :
  for_each body xs st = Raise e -> exists st' i, body st' i = Raise e.
Proof.
  revert st. induction xs as [| x xs IH]; intros st; simpl; [discriminate |].
  destruct (body st x) as [st1 | e1] eqn:E; simpl.
  - apply IH.
  - intros [= ->]. eauto.
Qed.

End LoopFacts.

(** ** Lengths and positions of series *)

Section SeriesFacts.

Lemma iat_ok {A : Type} (s : list A) (i : nat) :
  (i < length s)%nat -> exists v, iat s i = Ok v.
Proof.
  intros H. unfold iat. destruct (nth_error s i) eqn:E; eauto.
  apply nth_error_None in E. lia.
Qed.

Lemma iat_Ok_nth {A : Type} (s : list A) (i : nat) (v : A) :
  iat s i = Ok v <-> nth_error s i = Some v.
Proof.
  unfold iat. destruct (nth_error s i); split; intros H; inversion H; auto.
Qed.

Lemma iat_not_zero_division {A : Type} (s : list A) (i : nat) :
  iat s i <> Raise ZeroDivisionError.
Proof. unfold iat. destruct (nth_error s i); discriminate. Qed.

Lemma iat_last_ok {A : Type} (s : list A) :
  s <> [] -> exists v, iat_last s = Ok v.
Proof.
  intros H. unfold iat_last. destruct (rev s) eqn:E; eauto.
  apply (f_equal (@rev A)) in E. rewrite rev_involutive in E. contradiction.
Qed.

Lemma set_iat_ok {A : Type} (s : list A) (i : nat) (v : A) :
  (i < length s)%nat ->
  exists s', set_iat s i v = Ok s' /\ length s' = length s
             /\ nth_error s' i = Some v.
Proof.
  revert i. induction s as [| x s IH]; intros i H; simpl in H; [lia |].
  destruct i as [| i]; simpl.
  - eexists; repeat split.
  - destruct (IH i) as (s' & E & L & N); [lia |].
    rewrite E. simpl. exists (x :: s'). simpl. auto.
Qed.

Lemma zip_with_length {A B C : Type} (f : A -> B -> C) (s : list A) (t : list B) :
  length (zip_with f s t) = Nat.min (length s) (length t).
Proof.
  revert t. induction s as [| x s IH]; intros [| y t]; simpl; auto.
Qed.

Lemma zip_with_nth {A B C : Type} (f : A -> B -> C) (s : list A) (t : list B)
      (i : nat) (x : A) (y : B) :
  nth_error s i = Some x -> nth_error t i = Some y ->
  nth_error (zip_with f s t) i = Some (f x y).
Proof.
  revert t i. induction s as [| a s IH]; intros [| b t] [| i]; simpl;
    try discriminate.
  - intros [= ->] [= ->]. reflexivity.
  - apply IH.
Qed.

Lemma where_length {A : Type} (c : list bool) (a b : list A) :
  length (where_ c a b) = Nat.min (length c) (Nat.min (length a) (length b)).
Proof.
  revert a b. induction c as [| x c IH]; intros [| y a] [| z b]; simpl; auto.
Qed.

Lemma shift1_length (s : Series) : length (shift1 s) = length s.
Proof.
  destruct s as [| x s]; [reflexivity |].
  unfold shift1. rewrite removelast_firstn_len. cbn [length pred].
  rewrite length_firstn. cbn [length]. lia.
Qed.

Lemma diff_length (s : Series) : length (diff s) = length s.
Proof. unfold diff. rewrite zip_with_length, shift1_length. lia. Qed.

Lemma ewm_loop_length (alpha w o : float) (s : Series) :
  length (ewm_loop alpha w o s) = length s.
Proof.
  revert w o. induction s as [| x s IH]; intros w o; simpl; [reflexivity |].
  destruct (negb (is_nan w)); destruct (negb (is_nan x)); simpl; rewrite IH;
    reflexivity.
Qed.

Lemma ewm_mean_length (alpha : float) (s : Series) :
  length (ewm_mean alpha s) = length s.
Proof.
  destruct s; simpl; [reflexivity |]. rewrite ewm_loop_length. reflexivity.
Qed.

Lemma rolling_length (n : nat) (agg : list float -> float) (s : Series) :
  length (rolling n agg s) = length s.
Proof. unfold rolling. rewrite length_map, length_seq. reflexivity. Qed.

(** A window longer than the series is never full. *)
Lemma rolling_short (n : nat) (agg : list float -> float) (s : Series) :
  (length s < n)%nat -> Forall (fun x => x = nan) (rolling n agg s).
Proof.
  intros H. unfold rolling. apply Forall_map, Forall_forall.
  intros i Hi. apply in_seq in Hi. unfold window.
  destruct (Nat.leb_spec n (Datatypes.S i)); [lia | reflexivity].
Qed.

End SeriesFacts.

(** ** Anchored VWAP *)

Section AnchoredVwap.
Open Scope float_scope.

Variables (prices volumes : Series) (anchor : list bool).

(** One pass of the loop on a bar that all three series have. *)
Lemma vwap_body_Ok (st : vwap_locals) (i : nat) (p v : float) (a : bool) :
  nth_error prices i = Some p ->
  nth_error volumes i = Some v ->
  nth_error anchor i = Some a ->
  let pv := if a then p * v else cum_pv st + p * v in
  let cv := if a then v else cum_v st + v in
  vwap_body prices volumes anchor st i =
  Ok {| cum_pv := pv; cum_v := cv;
        vwap_vals := vwap_vals st ++ [if 0 <? cv then pv / cv else nan] |}.
Proof.
  intros Hp Hv Ha pv cv. unfold vwap_body, iat.
  rewrite Ha, Hp, Hv. cbn [bind]. fold pv cv.
  destruct (0 <? cv) eqn:E; cbn [bind]; [| reflexivity].
  unfold truediv. rewrite (pos_nonzero _ E). reflexivity.
Qed.

Lemma vwap_body_no_zero_division (st : vwap_locals) (i : nat) :
  vwap_body prices volumes anchor st i <> Raise ZeroDivisionError.
Proof.
  unfold vwap_body, iat.
  destruct (nth_error anchor i) as [a |]; cbn [bind]; [| discriminate].
  destruct (nth_error prices i) as [p |]; cbn [bind]; [| discriminate].
  destruct (nth_error volumes i) as [v |]; cbn [bind]; [| discriminate].
  match goal with |- context [0 <? ?c] => destruct (0 <? c) eqn:E end;
    cbn [bind]; [| discriminate].
  unfold truediv. rewrite (pos_nonzero _ E). discriminate.
Qed.

Hypothesis volumes_aligned : length volumes = length prices.
Hypothesis anchor_aligned : length anchor = length prices.

Lemma aligned_bar (i : nat) :
  (i < length prices)%nat ->
  exists p v a, nth_error prices i = Some p /\ nth_error volumes i = Some v
                /\ nth_error anchor i = Some a.
Proof.
  intros H.
  destruct (nth_error prices i) as [p |] eqn:Ep;
    [| apply nth_error_None in Ep; lia].
  destruct (nth_error volumes i) as [v |] eqn:Ev;
    [| apply nth_error_None in Ev; lia].
  destruct (nth_error anchor i) as [a |] eqn:Ea;
    [| apply nth_error_None in Ea; lia].
  eauto 7.
Qed.

Lemma vwap_after_ok (k : nat) :
  (k <= length prices)%nat ->
  exists st, vwap_after prices volumes anchor k = Ok st
             /\ length (vwap_vals st) = k.
Proof.
  intros Hk. unfold vwap_after.
  apply for_range_inv with (P := fun i st => length (vwap_vals st) = i);
    [reflexivity |].
  intros i st Hi HP.
  destruct (aligned_bar i) as (p & v & a & Hp & Hv & Ha); [lia |].
  eexists. split; [apply (vwap_body_Ok st i _ _ _ Hp Hv Ha) |].
  cbn [vwap_vals]. rewrite length_app, HP. simpl. lia.
Qed.

(** Later passes only append to the output. *)
Lemma vwap_vals_prefix (k m : nat) (st st' : vwap_locals) :
  vwap_after prices volumes anchor k = Ok st ->
  vwap_after prices volumes anchor (k + m) = Ok st' ->
  exists tail, vwap_vals st' = vwap_vals st ++ tail.
Proof.
  intros Hk. revert st'. induction m as [| m IH]; intros st' Hm.
  - rewrite Nat.add_0_r, Hk in Hm. inversion Hm; subst.
    exists []. rewrite app_nil_r. reflexivity.
  - rewrite Nat.add_succ_r in Hm. unfold vwap_after in Hm.
    rewrite for_range_S in Hm. fold (vwap_after prices volumes anchor (k + m)) in Hm.
    destruct (vwap_after prices volumes anchor (k + m)) as [st1 |] eqn:E1;
      [| discriminate].
    cbn [bind] in Hm. destruct (IH st1 eq_refl) as [tail Ht].
    unfold vwap_body in Hm.
    destruct (iat anchor (k + m)); cbn [bind] in Hm; [| discriminate].
    destruct (iat prices (k + m)); cbn [bind] in Hm; [| discriminate].
    destruct (iat volumes (k + m)); cbn [bind] in Hm; [| discriminate].
    match type of Hm with
    | (_ <- ?c ;; _) = _ => destruct c; cbn [bind] in Hm; [| discriminate]
    end.
    inversion Hm; subst. cbn [vwap_vals]. rewrite Ht, <- app_assoc. eauto.
Qed.

Lemma anchored_vwap_ok :
  exists out, anchored_vwap prices volumes anchor = Ok out
              /\ length out = length prices.
Proof.
  destruct (vwap_after_ok _ (Nat.le_refl _)) as (st & E & L).
  exists (vwap_vals st). unfold anchored_vwap. rewrite E. auto.
Qed.

(** The value the output holds at bar [i] is the one appended in pass [i]. *)
Lemma anchored_vwap_nth (i : nat) (out : Series) (st st' : vwap_locals) :
  anchored_vwap prices volumes anchor = Ok out ->
  vwap_after prices volumes anchor i = Ok st ->
  vwap_after prices volumes anchor (Datatypes.S i) = Ok st' ->
  (i < length prices)%nat ->
  nth_error out i =
  Some (if 0 <? cum_v st' then cum_pv st' / cum_v st' else nan).
Proof.
  intros Hout Hi HSi Hlt. unfold anchored_vwap in Hout.
  destruct (vwap_after prices volumes anchor (length prices)) as [stn |] eqn:En;
    [| discriminate].
  inversion Hout; subst out; clear Hout.
  destruct (aligned_bar i Hlt) as (p & v & a & Hp & Hv & Ha).
  unfold vwap_after in HSi. rewrite for_range_S in HSi.
  fold (vwap_after prices volumes anchor i) in HSi. rewrite Hi in HSi.
  cbn [bind] in HSi. rewrite (vwap_body_Ok st i _ _ _ Hp Hv Ha) in HSi.
  inversion HSi as [Hst']. clear HSi.
  assert (HS : vwap_after prices volumes anchor (Datatypes.S i) = Ok st').
  { unfold vwap_after. rewrite for_range_S.
    fold (vwap_after prices volumes anchor i). rewrite Hi. cbn [bind].
    rewrite (vwap_body_Ok st i _ _ _ Hp Hv Ha), Hst'. reflexivity. }
  replace (length prices) with (Datatypes.S i + (length prices - Datatypes.S i))%nat
    in En by lia.
  destruct (vwap_vals_prefix _ _ _ _ HS En) as [tail Ht].
  destruct (vwap_after_ok i) as (st0 & E0 & L0); [lia |].
  rewrite Hi in E0. inversion E0; subst st0.
  rewrite Ht, <- Hst'. cbn [vwap_vals cum_pv cum_v].
  rewrite <- app_assoc. rewrite nth_error_app2 by lia.
  rewrite L0, Nat.sub_diag. reflexivity.
Qed.

End AnchoredVwap.

(** ** The price channel runs to its end on every non-empty frame *)

Section Channel.

Variables (hst lst h_change l_change : Series) (new_high new_low : list bool).
Variable n : nat.

Hypothesis hst_len : length hst = n.
Hypothesis lst_len : length lst = n.
Hypothesis h_change_len : length h_change = n.
Hypothesis l_change_len : length l_change = n.
Hypothesis new_high_len : length new_high = n.
Hypothesis new_low_len : length new_low = n.

(** Read or write one in-range position and go on. *)
Ltac in_range :=
  match goal with
  | |- context [iat ?s ?j] =>
      let v := fresh "v" in
      let E := fresh "E" in
      destruct (iat_ok s j) as [v E];
      [ cbn [upper lower dir dir2]; lia
      | rewrite E; cbn [bind upper lower dir dir2] ]
  | |- context [set_iat ?s ?j ?x] =>
      let s' := fresh "s" in
      let E := fresh "E" in
      let L := fresh "L" in
      destruct (set_iat_ok s j x) as (s' & E & L & _);
      [ cbn [upper lower dir dir2]; lia
      | rewrite E; cbn [bind upper lower dir dir2] ]
  end.

Lemma channel_body_ok (st : channel_locals) (i : nat) :
  (i < n)%nat -> channel_wf n st ->
  exists st', channel_body hst lst h_change l_change new_high new_low st i = Ok st'
              /\ channel_wf n st'.
Proof.
  intros Hi (Hu & Hl & Hd & Hd2). unfold channel_body.
  repeat first
    [ in_range
    | match goal with
      | |- context [if ?b then _ else _] =>
          destruct b; cbn [bind upper lower dir dir2]
      end ];
    (eexists; split; [reflexivity | unfold channel_wf; cbn; lia]).
Qed.

End Channel.

Section PriceChannel.

Variable df : DataFrame.
Variable length_ : nat.
Hypothesis non_empty : df <> [].

Lemma _vwap_price_channel_ok :
  exists ch, _vwap_price_channel df length_ = Ok ch.
Proof.
  unfold _vwap_price_channel.
  set (high_ := col high df). set (low_ := col low df).
  set (vol := col volume df).
  assert (Lh : length high_ = length df) by apply length_map.
  assert (Ll : length low_ = length df) by apply length_map.
  assert (Lv : length vol = length df) by apply length_map.
  assert (Lnh : length (zip_with PrimFloat.eqb high_ (highest high_ length_))
                = length high_).
  { unfold highest. rewrite zip_with_length, rolling_length. lia. }
  assert (Lnl : length (zip_with PrimFloat.eqb low_ (lowest low_ length_))
                = length low_).
  { unfold lowest. rewrite zip_with_length, rolling_length. lia. }
  destruct (anchored_vwap_ok high_ vol _ (eq_trans Lv (eq_sym Lh)) Lnh)
    as (hv & -> & Lhv).
  destruct (anchored_vwap_ok low_ vol _ (eq_trans Lv (eq_sym Ll)) Lnl)
    as (lv & -> & Llv).
  cbn [bind].
  match goal with
  | |- context [for_range ?k ?body ?init] =>
      destruct (for_range_inv body (fun _ => channel_wf (length df)) k init)
        as (st & E & Hu & Hl & Hd & Hd2)
  end.
  - unfold channel_wf. cbn [upper lower dir dir2]. unfold broadcast.
    rewrite !length_map. repeat split; reflexivity.
  - intros i st Hi Hwf.
    apply channel_body_ok with (n := length df); auto;
      unfold change, highest, lowest;
      rewrite ?diff_length, ?zip_with_length, ?rolling_length; lia.
  - rewrite E. cbn [bind].
    assert (Hn : (0 < length df)%nat)
      by (destruct df; simpl; [contradiction | lia]).
    assert (Lmid : forall f : float -> float -> float,
               length (zip_with f (upper st) (lower st)) = length df)
      by (intros f; rewrite zip_with_length; lia).
    assert (Lhst : length (highest high_ length_) = length df)
      by (unfold highest; rewrite rolling_length; lia).
    assert (Llst : length (lowest low_ length_) = length df)
      by (unfold lowest; rewrite rolling_length; lia).
    repeat match goal with
           | |- context [iat_last ?s] =>
               let v := fresh "v" in
               let Ev := fresh "Ev" in
               destruct (iat_last_ok s) as [v Ev];
               [ intros Hs; apply (f_equal (@length _)) in Hs;
                 simpl in Hs; rewrite ?Lmid in Hs; lia
               | rewrite Ev; cbn [bind] ]
           end.
    eauto.
Qed.

End PriceChannel.

(** ** The entry state machine *)

Section EntryFacts.

Variables (df : DataFrame) (state : StrategyState).

Lemma entry_of_resolved : entry_of df state = fst (resolved df state).
Proof. reflexivity. Qed.

(** On a non-empty frame [compute_signal] returns, and what it returns and
    leaves behind is read off the entry locals. *)
Lemma compute_signal_returns :
  df <> [] ->
  let entry := entry_of df state in
  let bar := (Z.of_nat (length df) - 1)%Z in
  let state' := snd (compute_signal df state) in
  exists d,
    fst (compute_signal df state) = Ok d
    /\ sig_long_condition d = long_condition entry
    /\ sig_pending_signal d = pending_signal state'
    /\ pending_signal state' = pending_signal (snd (resolved df state))
    /\ accumulation_streak state' = accumulation_streak (snd (_market_flow df state))
    /\ last_signal_bar_index state' =
       (if long_condition entry then Some bar
        else last_signal_bar_index state)
    /\ sig_bars_since d =
       match last_signal_bar_index state' with
       | Some idx => Z.max 0 (bar - idx)
       | None => 0%Z
       end.
Proof.
  intros Hne. cbv zeta. rewrite entry_of_resolved. unfold resolved.
  unfold compute_signal.
  destruct (_vwap_price_channel_ok df 20 Hne) as [ch ->].
  destruct (_market_flow df state) as [mf s1] eqn:Emf. cbn [fst snd].
  assert (Hidx : last_signal_bar_index s1 = last_signal_bar_index state).
  { unfold _market_flow in Emf. inversion Emf.
    repeat match goal with
           | |- context [if ?b then _ else _] => destruct b
           end; reflexivity. }
  destruct (resolve_entry (mf_is_confirmed_accumulation mf)
                          (tr_is_vix_spike (_trend_rider df)) s1)
    as [entry s2] eqn:Er.
  assert (Hs2 : accumulation_streak s2 = accumulation_streak s1
                /\ last_signal_bar_index s2 = last_signal_bar_index s1).
  { unfold resolve_entry in Er. inversion Er.
    repeat match goal with
           | |- context [if ?b then _ else _] => destruct b
           end; split; reflexivity. }
  destruct Hs2 as [Hst Hix]. cbn [fst snd].
  destruct (long_condition entry); cbn [fst snd];
    eexists; repeat split; cbn; congruence.
Qed.

End EntryFacts.

Section LastFacts.

Lemma last_map {A B : Type} (f : A -> B) (l : list A) (d : A) (d' : B) :
  l <> [] -> last (map f l) d' = f (last l d).
Proof.
  induction l as [| x l IH]; [contradiction |]. intros _.
  destruct l as [| y l]; [reflexivity |].
  change (last (map f (y :: l)) d' = f (last (y :: l) d)).
  apply IH. discriminate.
Qed.

Lemma last_zip_with {A B C : Type} (f : A -> B -> C) (s : list A) (t : list B)
      (da : A) (db : B) (dc : C) :
  length s = length t -> s <> [] ->
  last (zip_with f s t) dc = f (last s da) (last t db).
Proof.
  revert t. induction s as [| x s IH]; intros [| y t] L Hne; simpl in L;
    try contradiction; try discriminate.
  destruct s as [| x' s]; destruct t as [| y' t]; try discriminate;
    [reflexivity |].
  change (last (zip_with f (x' :: s) (y' :: t)) dc
          = f (last (x' :: s) da) (last (y' :: t) db)).
  apply IH; [simpl in *; lia | discriminate].
Qed.

End LastFacts.

(** ** RSI *)

Section Rsi.
Local Open Scope float_scope.

(** Wherever the smoothed average loss is zero, [rsi] reports 0. *)
Lemma rsi_zero_avg_loss (series : Series) (length_ i : nat) (l : float) :
  nth_error (rsi_avg_loss series length_) i = Some l ->
  (l =? 0) = true ->
  nth_error (rsi series length_) i = Some 0.
Proof.
  intros Hl Hz. unfold rsi. fold (rsi_avg_loss series length_).
  set (avg_gain := ewm_mean (1 / of_nat length_) (clip_lower 0 (diff series))).
  assert (Hlen : length avg_gain = length (rsi_avg_loss series length_)).
  { unfold avg_gain, rsi_avg_loss, clip_lower, clip_upper.
    rewrite !ewm_mean_length, !length_map. reflexivity. }
  destruct (nth_error avg_gain i) as [g |] eqn:Eg.
  2: { apply nth_error_None in Eg.
       assert (i < length (rsi_avg_loss series length_))%nat
         by (apply nth_error_Some; congruence).
       lia. }
  unfold fillna, replace_zero_nan. rewrite !nth_error_map.
  rewrite (zip_with_nth _ _ _ _ g (if l =? 0 then nan else l) Eg)
    by (rewrite nth_error_map, Hl; reflexivity).
  cbn [option_map]. rewrite Hz, div_nan_r. reflexivity.
Qed.

(** C1.  On the closes 1, 2, 3 the smoothed average loss is zero at the
    second and third bar, and [rsi(close, 14)] is 0 there, not 100. *)
Theorem C1_rsi_zero_average_loss_reports_0 :
  map (fun l => l =? 0) (rsi_avg_loss [1; 2; 3] 14) = [false; true; true]
  /\ rsi [1; 2; 3] 14 = [0; 0; 0]
  /\ (0 =? 100) = false.
Proof. repeat split; vm_compute; reflexivity. Qed.

End Rsi.

(** ** The scanner task *)

Section WatchPair.
Local Open Scope float_scope.

(** Once a transport call raises, the task has returned, and what the
    transport would deliver afterwards is never read. *)
Lemma _watch_pair_raise_ends (mode : string) (e : exn)
      (before rest : list (result (list Candle))) (pair : PairState) :
  _watch_pair mode pair (before ++ Raise e :: rest)
  = _watch_pair mode pair (before ++ [Raise e])
  /\ snd (_watch_pair mode pair (before ++ Raise e :: rest)) = Returned.
Proof.
  revert pair. induction before as [| fetched before IH]; intros pair.
  - split; reflexivity.
  - cbn [app _watch_pair].
    destruct (loop_body mode pair fetched) as [[pair1 events] [e1 |]].
    + split; reflexivity.
    + destruct (IH pair1) as [IH1 IH2]. rewrite IH1.
      rewrite IH1 in IH2.
      destruct (_watch_pair mode pair1 (before ++ [Raise e]))
        as [[pair2 events'] status].
      split; [reflexivity | exact IH2].
Qed.

(** C2.  When an awaited transport call raises, the task puts the error
    status and sleeps one second, and then it returns instead of resuming
    its loop: whatever the transport would deliver afterwards is never
    read, so no later bar of the pair is processed. *)
Theorem C2_transport_error_ends_task :
  forall (mode : string) (pair : PairState) (msg : string)
         (before rest : list (result (list Candle))),
    _watch_pair mode pair (Raise (TransportError msg) :: rest)
    = (pair,
       [status_put (error_dict pair (TransportError msg) mode); sleep 1],
       Returned)
    /\ _watch_pair mode pair (before ++ Raise (TransportError msg) :: rest)
       = _watch_pair mode pair (before ++ [Raise (TransportError msg)])
    /\ snd (_watch_pair mode pair (before ++ Raise (TransportError msg) :: rest))
       = Returned.
Proof.
  intros mode pair msg before rest. split; [reflexivity |].
  apply _watch_pair_raise_ends.
Qed.

End WatchPair.

(** ** Market flow *)

Section MarketFlow.
Local Open Scope float_scope.

Ltac series_length :=
  cbv zeta;
  unfold ema, sma, stdev, lowest, highest, change, gt_scalar, broadcast, col,
    clip_lower, clip_upper;
  repeat (rewrite ?where_length, ?zip_with_length, ?length_map,
            ?ewm_mean_length, ?rolling_length, ?diff_length);
  lia.

Lemma chips_value_series_length (df : DataFrame) :
  length (chips_value_series df) = length df.
Proof. unfold chips_value_series. series_length. Qed.

Lemma is_vix_spike_series_length (df : DataFrame) :
  length (is_vix_spike_series df) = length df.
Proof. unfold is_vix_spike_series. series_length. Qed.

(** The flag the streak update reads is the comparison of the last
    composite value with 0.1. *)
Lemma raw_accumulation_last (df : DataFrame) :
  df <> [] ->
  last (is_raw_accumulation df) false = (0.1 <? last (chips_value_series df) 0).
Proof.
  intros Hne. unfold is_raw_accumulation. cbv zeta.
  assert (Hc : chips_value_series df <> []).
  { intros E. apply (f_equal (@length _)) in E.
    rewrite chips_value_series_length in E. destruct df; [contradiction | discriminate]. }
  unfold gt_scalar.
  rewrite (last_zip_with _ _ _ false false false).
  - rewrite (last_map _ _ 0 false Hc), (last_map _ _ 0 false Hc).
    destruct (0.1 <? last (chips_value_series df) 0) eqn:E; [| reflexivity].
    rewrite (ltb_not_nan _ _ E). reflexivity.
  - rewrite !length_map. reflexivity.
  - intros E. apply (f_equal (@length _)) in E. rewrite length_map in E.
    destruct (chips_value_series df); [contradiction | discriminate].
Qed.

Lemma _market_flow_streak (df : DataFrame) (state : StrategyState) :
  df <> [] ->
  let chips := mf_chips_value (fst (_market_flow df state)) in
  accumulation_streak (snd (_market_flow df state)) =
  if 0.1 <? chips then (accumulation_streak state + 1)%Z else 0%Z.
Proof.
  intros Hne. unfold _market_flow. cbv zeta. cbn [fst snd mf_chips_value].
  rewrite (raw_accumulation_last df Hne).
  destruct df as [| c df']; [contradiction |].
  change (1 <=? length (c :: df'))%nat with true. cbv iota.
  destruct (0.1 <? last (chips_value_series (c :: df')) 0); reflexivity.
Qed.

(** C5.  An evaluation on a closed bar adds exactly 1 to the accumulation
    streak when the bar's composite value exceeds 0.1 and sets it to exactly
    0 when it does not; a non-negative streak stays non-negative. *)
Theorem C5_accumulation_streak :
  forall (df : DataFrame) (state : StrategyState),
    df <> [] ->
    let chips := mf_chips_value (fst (_market_flow df state)) in
    let state' := snd (_market_flow df state) in
    ((0.1 <? chips) = true ->
     accumulation_streak state' = (accumulation_streak state + 1)%Z)
    /\ ((0.1 <? chips) = false -> accumulation_streak state' = 0%Z)
    /\ ((0 <= accumulation_streak state)%Z -> (0 <= accumulation_streak state')%Z)
    /\ accumulation_streak (snd (compute_signal df state))
       = accumulation_streak state'.
Proof.
  intros df state Hne chips state'.
  pose proof (_market_flow_streak df state Hne) as H. cbv zeta in H.
  fold chips state' in H.
  destruct (compute_signal_returns df state Hne) as (d & _ & _ & _ & _ & Hs & _).
  repeat split.
  - intros E. rewrite H, E. reflexivity.
  - intros E. rewrite H, E. reflexivity.
  - intros Hpos. rewrite H. destruct (0.1 <? chips); lia.
  - exact Hs.
Qed.

Lemma C5_accumulation_streak_witness :
  accumulation_streak (snd (_market_flow (falling 60) StrategyState_default)) = 1%Z.
Proof.
  refine (proj1 (C5_accumulation_streak (falling 60) StrategyState_default _) _).
  - discriminate.
  - vm_compute. reflexivity.
Defined.

End MarketFlow.

(** ** Anchored VWAP: the claims *)

Section AnchoredVwapClaims.
Local Open Scope float_scope.

Lemma anchored_vwap_never_divides_by_zero
      (prices volumes : Series) (anchor : list bool) :
  anchored_vwap prices volumes anchor <> Raise ZeroDivisionError.
Proof.
  unfold anchored_vwap, vwap_after, for_range.
  destruct (for_each _ _ _) as [st | e] eqn:E; cbn [bind]; [discriminate |].
  intros [= ->]. apply for_each_raise in E. destruct E as (st & i & E).
  exact (vwap_body_no_zero_division prices volumes anchor st i E).
Qed.



(** C9.  [anchored_vwap] never divides by zero: it returns a series, and on
    every bar where the cumulative volume since the last anchor is not
    positive that series holds NaN. *)
Theorem C9_anchored_vwap_no_zero_division :
  forall (prices volumes : Series) (anchor : list bool),
    length volumes = length prices ->
    length anchor = length prices ->
    anchored_vwap prices volumes anchor <> Raise ZeroDivisionError
    /\ exists out,
        anchored_vwap prices volumes anchor = Ok out
        /\ forall (i : nat) (after : vwap_locals),
            (i < length prices)%nat ->
            vwap_after prices volumes anchor (S i) = Ok after ->
            (0 <? cum_v after) = false ->
            nth_error out i = Some nan.
Proof.
  intros prices volumes anchor Lv La. split.
  - apply anchored_vwap_never_divides_by_zero.
  - destruct (anchored_vwap_ok prices volumes anchor Lv La) as (out & E & L).
    exists out. split; [exact E |]. intros i after Hi Ha Hz.
    destruct (vwap_after_ok prices volumes anchor Lv La i) as (before & Eb & _);
      [lia |].
    rewrite (anchored_vwap_nth prices volumes anchor Lv La i out before after
               E Eb Ha Hi), Hz.
    reflexivity.
Qed.

Lemma C9_anchored_vwap_no_zero_division_witness :
  anchored_vwap [1; 2; 3] [0; 0; 1] [true; false; false]
  <> Raise ZeroDivisionError
  /\ exists out,
      anchored_vwap [1; 2; 3] [0; 0; 1] [true; false; false] = Ok out
      /\ forall (i : nat) (after : vwap_locals),
          (i < 3)%nat ->
          vwap_after [1; 2; 3] [0; 0; 1] [true; false; false] (S i) = Ok after ->
          (0 <? cum_v after) = false ->
          nth_error out i = Some nan.
Proof.
  apply (C9_anchored_vwap_no_zero_division
           [1; 2; 3] [0; 0; 1] [true; false; false]); reflexivity.
Defined.

End AnchoredVwapClaims.

(** ** The entry state machine, bar by bar *)

Section EntryMachine.

Lemma _market_flow_pending (df : DataFrame) (state : StrategyState) :
  pending_signal (snd (_market_flow df state)) = pending_signal state.
Proof.
  unfold _market_flow. cbv zeta. cbn [snd].
  repeat match goal with
         | |- context [if ?b then _ else _] => destruct b
         end; reflexivity.
Qed.

(** Lines 391-400 as boolean functions of the two sub-signals and of the
    pending flag they start from. *)
Lemma resolve_entry_flags (acc panic : bool) (state : StrategyState) :
  let e := fst (resolve_entry acc panic state) in
  accumulation_signal e = acc
  /\ panic_mode e = panic
  /\ normal_entry e = acc && negb panic
  /\ pending_entry e = pending_signal state && negb panic
  /\ long_condition e = normal_entry e || pending_entry e
  /\ pending_signal (snd (resolve_entry acc panic state))
     = panic && (acc || pending_signal state).
Proof.
  destruct state as [streak pending squeeze idx].
  destruct acc, panic, pending; cbn; repeat split; reflexivity.
Qed.

(** The entry locals of one evaluation. *)
Lemma entry_of_flags (df : DataFrame) (state : StrategyState) :
  let e := entry_of df state in
  panic_mode e = tr_is_vix_spike (_trend_rider df)
  /\ accumulation_signal e
     = mf_is_confirmed_accumulation (fst (_market_flow df state))
  /\ normal_entry e = accumulation_signal e && negb (panic_mode e)
  /\ pending_entry e = pending_signal state && negb (panic_mode e)
  /\ long_condition e = normal_entry e || pending_entry e.
Proof.
  cbv zeta. rewrite entry_of_resolved. unfold resolved.
  rewrite <- (_market_flow_pending df state).
  generalize (snd (_market_flow df state)) as s1.
  generalize (mf_is_confirmed_accumulation (fst (_market_flow df state))) as acc.
  generalize (tr_is_vix_spike (_trend_rider df)) as panic.
  intros panic acc s1.
  destruct (resolve_entry_flags acc panic s1) as (A & B & C & D & E & _).
  rewrite A, B. auto.
Qed.

(** The pending flag an evaluation leaves behind. *)
Lemma pending_after (df : DataFrame) (state : StrategyState) :
  df <> [] ->
  let e := entry_of df state in
  pending_signal (snd (compute_signal df state))
  = panic_mode e && (accumulation_signal e || pending_signal state).
Proof.
  intros Hne. cbv zeta.
  destruct (compute_signal_returns df state Hne) as (d & _ & _ & _ & Hp & _).
  rewrite Hp, entry_of_resolved. unfold resolved.
  rewrite <- (_market_flow_pending df state).
  generalize (snd (_market_flow df state)) as s1.
  generalize (mf_is_confirmed_accumulation (fst (_market_flow df state))) as acc.
  generalize (tr_is_vix_spike (_trend_rider df)) as panic.
  intros panic acc s1.
  destruct (resolve_entry_flags acc panic s1) as (A & B & _ & _ & _ & F).
  rewrite A, B. exact F.
Qed.

(** While panic lasts a pending signal is held and nothing fires. *)
Lemma evaluate_held (held : list DataFrame) (state : StrategyState) :
  Forall (fun df => df <> [] /\ tr_is_vix_spike (_trend_rider df) = true) held ->
  pending_signal state = true ->
  Forall (fun er => pending_entry (fst er) = false
                    /\ long_condition (fst er) = false
                    /\ exists d, snd er = Ok d /\ sig_long_condition d = false)
         (fst (evaluate held state))
  /\ pending_signal (snd (evaluate held state)) = true.
Proof.
  intros H. revert state. induction H as [| df held [Hne Hp] _ IH];
    intros state Hs; simpl.
  - auto.
  - destruct (compute_signal df state) as [r s1] eqn:Ec.
    destruct (evaluate held s1) as [out s2] eqn:Ee. cbn [fst snd].
    pose proof (entry_of_flags df state) as (F1 & F2 & F3 & F4 & F5).
    pose proof (pending_after df state Hne) as Hpa. cbv zeta in Hpa.
    destruct (compute_signal_returns df state Hne) as (d & Hd & Hl & _).
    rewrite Ec in Hpa, Hd. cbn [fst snd] in Hpa, Hd.
    assert (Hpanic : panic_mode (entry_of df state) = true)
      by (rewrite F1; exact Hp).
    assert (Hs1 : pending_signal s1 = true).
    { rewrite Hpa, Hpanic, Hs. cbn. apply orb_true_r. }
    specialize (IH s1 Hs1). rewrite Ee in IH. cbn [fst snd] in IH.
    destruct IH as [IH1 IH2]. split; [| exact IH2].
    constructor; [| exact IH1]. cbn [fst snd].
    assert (Hlc : long_condition (entry_of df state) = false).
    { rewrite F5, F3, F4, Hpanic. cbn. rewrite !andb_false_r. reflexivity. }
    repeat split.
    + rewrite F4, Hpanic. cbn. apply andb_false_r.
    + exact Hlc.
    + exists d. split; [exact Hd | congruence].
Qed.

(** Without the pending flag no deferred entry fires until a bar defers
    again. *)
Lemma evaluate_no_deferred (later : list DataFrame) (state : StrategyState) :
  Forall (fun df => df <> []) later ->
  pending_signal state = false ->
  Forall (fun er => accumulation_signal (fst er) && panic_mode (fst er) = false)
         (fst (evaluate later state)) ->
  Forall (fun er => pending_entry (fst er) = false) (fst (evaluate later state)).
Proof.
  intros H. revert state. induction H as [| df later Hne _ IH];
    intros state Hs; simpl.
  - auto.
  - destruct (compute_signal df state) as [r s1] eqn:Ec.
    destruct (evaluate later s1) as [out s2] eqn:Ee. cbn [fst snd].
    intros Hall. inversion Hall as [| ? ? Hhd Htl]; subst. cbn [fst] in Hhd.
    pose proof (entry_of_flags df state) as (F1 & F2 & F3 & F4 & F5).
    pose proof (pending_after df state Hne) as Hpa. cbv zeta in Hpa.
    rewrite Ec in Hpa. cbn [snd] in Hpa.
    constructor.
    + cbn [fst]. rewrite F4, Hs. reflexivity.
    + specialize (IH s1). rewrite Ee in IH. cbn [fst] in IH. apply IH; auto.
      rewrite Hpa, Hs, orb_false_r, andb_comm. exact Hhd.
Qed.

(** C3.  Once a signal is deferred (accumulation confirmed on a bar with
    panic), nothing fires on that bar nor on the following bars with panic;
    the deferred entry fires on the first following bar without panic,
    whatever the accumulation on that bar and on the bars in between, and
    not again afterwards unless a later bar defers anew. *)
Theorem C3_deferred_entry_fires_once :
  forall (state : StrategyState) (df_defer : DataFrame)
         (held : list DataFrame) (df_clear : DataFrame)
         (later : list DataFrame),
    df_defer <> [] ->
    accumulation_signal (entry_of df_defer state) = true ->
    panic_mode (entry_of df_defer state) = true ->
    Forall (fun df => df <> [] /\ tr_is_vix_spike (_trend_rider df) = true) held ->
    df_clear <> [] ->
    tr_is_vix_spike (_trend_rider df_clear) = false ->
    Forall (fun df => df <> []) later ->
    let s1 := snd (compute_signal df_defer state) in
    let s2 := snd (evaluate held s1) in
    let s3 := snd (compute_signal df_clear s2) in
    (pending_signal s1 = true
     /\ long_condition (entry_of df_defer state) = false
     /\ exists d, fst (compute_signal df_defer state) = Ok d
                  /\ sig_long_condition d = false)
    /\ (Forall (fun er => pending_entry (fst er) = false
                          /\ long_condition (fst er) = false
                          /\ exists d, snd er = Ok d
                                       /\ sig_long_condition d = false)
               (fst (evaluate held s1))
        /\ pending_signal s2 = true)
    /\ (pending_entry (entry_of df_clear s2) = true
        /\ (exists d, fst (compute_signal df_clear s2) = Ok d
                      /\ sig_long_condition d = true)
        /\ pending_signal s3 = false)
    /\ (Forall (fun er => accumulation_signal (fst er) && panic_mode (fst er)
                          = false)
               (fst (evaluate later s3)) ->
        Forall (fun er => pending_entry (fst er) = false)
               (fst (evaluate later s3))).
Proof.
  intros state df_defer held df_clear later Hne Hacc Hpanic Hheld Hne' Hclear
         Hlater s1 s2 s3.
  assert (H1 : pending_signal s1 = true).
  { unfold s1. rewrite (pending_after df_defer state Hne), Hacc, Hpanic.
    reflexivity. }
  destruct (evaluate_held held s1 Hheld H1) as [Hh1 Hh2]. fold s2 in Hh2.
  pose proof (entry_of_flags df_clear s2) as (F1 & F2 & F3 & F4 & F5).
  assert (H3 : pending_signal s3 = false).
  { unfold s3. rewrite (pending_after df_clear s2 Hne'), F1, Hclear.
    reflexivity. }
  repeat split; auto.
  - pose proof (entry_of_flags df_defer state) as (_ & _ & G3 & G4 & G5).
    rewrite G5, G3, G4, Hpanic. cbn. rewrite !andb_false_r. reflexivity.
  - destruct (compute_signal_returns df_defer state Hne) as (d & Hd & Hl & _).
    exists d. split; [exact Hd |]. rewrite Hl.
    pose proof (entry_of_flags df_defer state) as (_ & _ & G3 & G4 & G5).
    rewrite G5, G3, G4, Hpanic. cbn. rewrite !andb_false_r. reflexivity.
  - rewrite F4, F1, Hclear, Hh2. reflexivity.
  - destruct (compute_signal_returns df_clear s2 Hne') as (d & Hd & Hl & _).
    exists d. split; [exact Hd |].
    rewrite Hl, F5, F4, F1, Hclear, Hh2. cbn. apply orb_true_r.
  - apply evaluate_no_deferred; auto.
Qed.

End EntryMachine.

Section EntryClaims.

Lemma C3_deferred_entry_fires_once_witness :
  pending_entry
    (entry_of (recovering 62 2)
       (snd (evaluate [falling 62; recovering 62 1]
               (snd (compute_signal (falling 61) one_confirming)))))
  = true.
Proof.
  refine (proj1 (proj1 (proj2 (proj2
            (C3_deferred_entry_fires_once one_confirming (falling 61)
               [falling 62; recovering 62 1] (recovering 62 2)
               [recovering 62 3] _ _ _ _ _ _ _))))).
  - discriminate.
  - vm_compute. reflexivity.
  - vm_compute. reflexivity.
  - repeat constructor; try discriminate; vm_compute; reflexivity.
  - discriminate.
  - vm_compute. reflexivity.
  - repeat constructor; discriminate.
Defined.

(** C8.  Every evaluation on a closed bar returns a [bars_since] that is
    at least 0; on a bar where an entry fires it is exactly 0 and the bar's
    index is recorded as the last signal bar index. *)
Theorem C8_bars_since :
  forall (df : DataFrame) (state : StrategyState),
    df <> [] ->
    exists d,
      fst (compute_signal df state) = Ok d
      /\ (0 <= sig_bars_since d)%Z
      /\ (sig_long_condition d = true ->
          sig_bars_since d = 0%Z
          /\ last_signal_bar_index (snd (compute_signal df state))
             = Some (Z.of_nat (length df) - 1)%Z).
Proof.
  intros df state Hne.
  destruct (compute_signal_returns df state Hne)
    as (d & Hd & Hl & _ & _ & _ & Hidx & Hbs).
  exists d. split; [exact Hd |]. split.
  - rewrite Hbs. destruct (last_signal_bar_index _); lia.
  - intros Hlc. rewrite Hl in Hlc. rewrite Hlc in Hidx.
    rewrite Hbs, Hidx. split; [lia | reflexivity].
Qed.

Lemma C8_bars_since_witness :
  exists d,
    fst (compute_signal (recovering 62 2) holding) = Ok d
    /\ (0 <= sig_bars_since d)%Z
    /\ (sig_long_condition d = true ->
        sig_bars_since d = 0%Z
        /\ last_signal_bar_index (snd (compute_signal (recovering 62 2) holding))
           = Some 63%Z).
Proof.
  apply (C8_bars_since (recovering 62 2) holding). discriminate.
Defined.

(** C10.  An evaluation clears a set pending flag only when it returns
    with [long_condition] true. *)
Theorem C10_pending_cleared_only_by_entry :
  forall (df : DataFrame) (state : StrategyState),
    pending_signal state = true ->
    pending_signal (snd (compute_signal df state)) = false ->
    exists d,
      fst (compute_signal df state) = Ok d /\ sig_long_condition d = true.
Proof.
  intros df state Hp Hc. destruct df as [| c df'].
  - exfalso. revert Hc. cbn. rewrite Hp. discriminate.
  - assert (Hne : c :: df' <> []) by discriminate.
    destruct (compute_signal_returns _ state Hne) as (d & Hd & Hl & _).
    exists d. split; [exact Hd |]. rewrite Hl.
    rewrite (pending_after _ state Hne), Hp, orb_true_r, andb_true_r in Hc.
    pose proof (entry_of_flags (c :: df') state) as (_ & _ & _ & F4 & F5).
    rewrite F5, F4, Hp, Hc. cbn. apply orb_true_r.
Qed.

Lemma C10_pending_cleared_only_by_entry_witness :
  exists d,
    fst (compute_signal (recovering 62 2) holding) = Ok d
    /\ sig_long_condition d = true.
Proof.
  apply (C10_pending_cleared_only_by_entry (recovering 62 2) holding);
    vm_compute; reflexivity.
Defined.

End EntryClaims.

(** ** The scanner's closed-candle check *)

Section ClosedCandle.
Local Open Scope float_scope.

Variable mode : string.

Lemma ts_le_refl (a : option Z) : ts_le a a.
Proof. destruct a; simpl; [lia | exact I]. Qed.

Lemma ts_le_trans (a b c : option Z) : ts_le a b -> ts_le b c -> ts_le a c.
Proof. destruct a, b, c; simpl; try tauto; lia. Qed.

(** A batch that does not end after the last closed candle is dropped. *)
Lemma loop_body_stale (pair : PairState) (rows : list Candle)
      (last_ts closed : Z) :
  iat_last (map timestamp rows) = Ok last_ts ->
  last_closed_ts pair = Some closed ->
  (last_ts <= closed)%Z ->
  loop_body mode pair (Ok rows) = (pair, [sleep 0], None).
Proof.
  intros Hlast Hclosed Hle. unfold loop_body, ohlcv_to_df.
  destruct rows as [| c rows]; [discriminate |].
  rewrite Hlast. unfold is_new_bar. rewrite Hclosed.
  destruct (Z.ltb_spec closed last_ts); [lia | reflexivity].
Qed.

(** What a pass on a non-empty batch does to [last_closed_ts]. *)
Lemma loop_body_last_closed_ts (pair : PairState) (rows : list Candle)
      (last_ts : Z) :
  iat_last (map timestamp rows) = Ok last_ts ->
  last_closed_ts (fst (fst (loop_body mode pair (Ok rows))))
  = if is_new_bar pair last_ts then Some last_ts else last_closed_ts pair.
Proof.
  intros Hlast. unfold loop_body, ohlcv_to_df.
  destruct rows as [| c rows]; [discriminate |].
  rewrite Hlast. destruct (is_new_bar pair last_ts); [| reflexivity].
  destruct (compute_signal (c :: rows) (state (set_closed pair last_ts (c :: rows))))
    as [[sig | e] st]; cbn [fst snd]; [| reflexivity].
  destruct (sig_long_condition sig); [| reflexivity].
  destruct (iat_last (col close (c :: rows))); reflexivity.
Qed.

(** After a pass on a batch, the pair's [last_closed_ts] is at or after
    the batch's last timestamp. *)
Lemma loop_body_closed (pair : PairState) (rows : list Candle) (last_ts : Z) :
  iat_last (map timestamp rows) = Ok last_ts ->
  exists closed,
    last_closed_ts (fst (fst (loop_body mode pair (Ok rows)))) = Some closed
    /\ (last_ts <= closed)%Z.
Proof.
  intros Hlast. rewrite (loop_body_last_closed_ts pair rows last_ts Hlast).
  unfold is_new_bar. destruct (last_closed_ts pair) as [t |].
  - destruct (Z.ltb_spec t last_ts); eexists; split; try reflexivity; lia.
  - eexists; split; [reflexivity | lia].
Qed.

Lemma loop_body_monotone (pair : PairState) (fetched : result (list Candle)) :
  ts_le (last_closed_ts pair)
        (last_closed_ts (fst (fst (loop_body mode pair fetched)))).
Proof.
  destruct fetched as [rows | e]; [| apply ts_le_refl].
  destruct (iat_last (map timestamp rows)) as [last_ts | e] eqn:El.
  - rewrite (loop_body_last_closed_ts pair rows last_ts El).
    unfold is_new_bar. destruct (last_closed_ts pair) as [t |]; [| exact I].
    destruct (Z.ltb_spec t last_ts); simpl; lia.
  - unfold loop_body, ohlcv_to_df. destruct rows; [apply ts_le_refl |].
    rewrite El. apply ts_le_refl.
Qed.

Lemma _watch_pair_monotone (transport : list (result (list Candle)))
      (pair : PairState) :
  ts_le (last_closed_ts pair)
        (last_closed_ts (fst (fst (_watch_pair mode pair transport)))).
Proof.
  revert pair. induction transport as [| fetched rest IH]; intros pair; simpl.
  - apply ts_le_refl.
  - pose proof (loop_body_monotone pair fetched) as Hm.
    destruct (loop_body mode pair fetched) as [[pair1 events] [e |]];
      cbn [fst snd] in *.
    + exact Hm.
    + specialize (IH pair1).
      destruct (_watch_pair mode pair1 rest) as [[pair2 events'] status].
      cbn [fst snd] in *. eapply ts_le_trans; eauto.
Qed.

(** C4.  A batch whose last timestamp is not after the pair's
    [last_closed_ts] puts nothing on either queue and leaves the pair as it
    was; so the batch that follows any pass and ends at the same timestamp
    is dropped, and [last_closed_ts] never decreases. *)
Theorem C4_stale_batch_is_dropped :
  forall (pair : PairState) (rows : list Candle) (last_ts closed : Z),
    iat_last (map timestamp rows) = Ok last_ts ->
    last_closed_ts pair = Some closed ->
    (last_ts <= closed)%Z ->
    (exists events,
        loop_body mode pair (Ok rows) = (pair, events, None)
        /\ filter is_signal events = []
        /\ filter is_status events = [])
    /\ (forall (pair0 : PairState) (again : list Candle),
           iat_last (map timestamp again) = Ok last_ts ->
           let pair1 := fst (fst (loop_body mode pair0 (Ok rows))) in
           loop_body mode pair1 (Ok again) = (pair1, [sleep 0], None))
    /\ (forall (pair0 : PairState) (transport : list (result (list Candle))),
           ts_le (last_closed_ts pair0)
                 (last_closed_ts (fst (fst (_watch_pair mode pair0 transport))))).
Proof.
  intros pair rows last_ts closed Hlast Hclosed Hle. repeat split.
  - exists [sleep 0]. rewrite (loop_body_stale pair rows last_ts closed); auto.
  - intros pair0 again Hagain pair1.
    destruct (loop_body_closed pair0 rows last_ts Hlast) as (t & Ht & Hle').
    apply (loop_body_stale pair1 again last_ts t); auto.
  - intros pair0 transport. apply _watch_pair_monotone.
Qed.

End ClosedCandle.

Lemma C4_stale_batch_is_dropped_witness :
  exists events,
    loop_body "rest" (closed_at 5) (Ok (falling 3)) = (closed_at 5, events, None)
    /\ filter is_signal events = []
    /\ filter is_status events = [].
Proof.
  refine (proj1 (C4_stale_batch_is_dropped "rest" (closed_at 5) (falling 3)
                   2%Z 5%Z _ _ _)).
  - reflexivity.
  - reflexivity.
  - lia.
Defined.

(** ** Short windows *)

Section ShortWindows.
Local Open Scope float_scope.



Lemma atr_short (df : DataFrame) (length_ : nat) :
  (length df < length_)%nat -> Forall (fun x => x = nan) (atr df length_).
Proof.
  intros H. unfold atr. cbv zeta. apply rolling_short. unfold col.
  rewrite ?zip_with_length, ?length_map, ?shift1_length. lia.
Qed.





End ShortWindows.

(** * Further properties of the code *)

(** ** utils.py: history clipping and the TradingView link *)

Section History.

Context {A : Type}.

Lemma clip_history_positive (history : list A) (limit : Z) :
  (0 < limit)%Z ->
  clip_history history limit
  = skipn (length history - Z.to_nat limit) history.
Proof.
  intros H. unfold clip_history, slice_from. cbv zeta.
  destruct (Z.ltb_spec (- limit) 0); [| lia].
  f_equal. lia.
Qed.

(** X1.  With a positive limit [clip_history] drops entries from the front
    only and keeps the last [limit] entries, or all of them when there are
    fewer. *)
Theorem X1_clip_history_keeps_newest :
  forall (history : list A) (limit : Z),
    (0 < limit)%Z ->
    (exists dropped, history = dropped ++ clip_history history limit)
    /\ length (clip_history history limit)
       = Nat.min (length history) (Z.to_nat limit).
Proof.
  intros history limit H. rewrite (clip_history_positive history limit H).
  split.
  - exists (firstn (length history - Z.to_nat limit) history).
    symmetry. apply firstn_skipn.
  - rewrite length_skipn. lia.
Qed.

(** X2.  A limit of 0 clips nothing ([history[-0:]] is the whole list), and
    a negative limit drops the first [-limit] entries instead of keeping
    the last ones. *)
Theorem X2_clip_history_non_positive_limit :
  forall (history : list A) (limit : Z),
    (limit <= 0)%Z ->
    clip_history history limit = skipn (Z.to_nat (- limit)) history
    /\ (limit = 0%Z -> clip_history history limit = history).
Proof.
  intros history limit H.
  assert (E : clip_history history limit = skipn (Z.to_nat (- limit)) history).
  { unfold clip_history, slice_from. cbv zeta.
    destruct (Z.ltb_spec (- limit) 0); [lia |].
    destruct (Z.le_ge_cases (- limit) (Z.of_nat (length history))).
    - rewrite Z.min_l by lia. reflexivity.
    - rewrite Z.min_r by lia. rewrite Nat2Z.id.
      rewrite !skipn_all2 by lia. reflexivity. }
  split; [exact E |]. intros ->. exact E.
Qed.

(** X3.  Clipping twice with positive limits is clipping once with the
    smaller limit; in particular clipping is idempotent. *)
Theorem X3_clip_history_twice :
  forall (history : list A) (n m : Z),
    (0 < n)%Z -> (0 < m)%Z ->
    clip_history (clip_history history n) m = clip_history history (Z.min n m).
Proof.
  intros history n m Hn Hm.
  rewrite (clip_history_positive _ m Hm), (clip_history_positive _ n Hn),
    (clip_history_positive _ (Z.min n m)) by lia.
  rewrite skipn_skipn, length_skipn. f_equal. lia.
Qed.

(** X4.  The history update of the panel: when signals arrive the history
    ends up with at most 50 entries, and as long as no more than 50 arrive
    at once all of them are kept, newest last, behind a tail of the old
    history; when none arrive the history is left alone. *)
Theorem X4_update_history :
  forall (history new_signals : list A),
    (new_signals <> [] -> (length (update_history history new_signals) <= 50)%nat)
    /\ ((length new_signals <= 50)%nat ->
        exists dropped kept,
          history = dropped ++ kept
          /\ update_history history new_signals = kept ++ new_signals)
    /\ update_history history [] = history.
Proof.
  intros history new_signals. repeat split.
  - intros Hne. destruct new_signals as [| x new']; [contradiction |].
    unfold update_history.
    rewrite clip_history_positive by lia. rewrite length_skipn. lia.
  - intros Hlen. destruct new_signals as [| x new'].
    + exists [], history. rewrite app_nil_r. auto.
    + unfold update_history. rewrite clip_history_positive by lia.
      set (new := x :: new') in *.
      change (Z.to_nat 50) with 50%nat.
      set (k := (length (history ++ new) - 50)%nat).
      assert (Hk : (k <= length history)%nat).
      { unfold k. rewrite length_app. lia. }
      exists (firstn k history), (skipn k history). split.
      * symmetry. apply firstn_skipn.
      * rewrite skipn_app. replace (k - length history)%nat with 0%nat by lia.
        reflexivity.
Qed.

End History.

Lemma X1_clip_history_keeps_newest_witness :
  length (clip_history [1; 2; 3; 4; 5]%Z 2) = 2%nat.
Proof.
  refine (proj2 (X1_clip_history_keeps_newest [1; 2; 3; 4; 5]%Z 2 _)). lia.
Defined.

Lemma X2_clip_history_non_positive_limit_witness :
  clip_history [1; 2; 3; 4; 5]%Z (-2) = [3; 4; 5]%Z.
Proof.
  refine (proj1 (X2_clip_history_non_positive_limit [1; 2; 3; 4; 5]%Z (-2) _)).
  lia.
Defined.

Lemma X3_clip_history_twice_witness :
  clip_history (clip_history [1; 2; 3; 4; 5]%Z 4) 2
  = clip_history [1; 2; 3; 4; 5]%Z 2.
Proof.
  apply (X3_clip_history_twice [1; 2; 3; 4; 5]%Z 4 2); lia.
Defined.

Section TradingView.
Local Open Scope string_scope.

Lemma replace_slash_no_slash (s : string) :
  ~ In "/"%char (list_ascii_of_string (replace_slash s)).
Proof.
  induction s as [| c s IH]; simpl; [tauto |].
  destruct (Ascii.eqb_spec c "/") as [-> | Hc]; [exact IH |].
  simpl. intros [H | H]; [congruence | exact (IH H)].
Qed.

Lemma replace_slash_idempotent (s : string) :
  replace_slash (replace_slash s) = replace_slash s.
Proof.
  induction s as [| c s IH]; [reflexivity |].
  simpl. destruct (Ascii.eqb c "/") eqn:E; [exact IH |].
  simpl. rewrite E, IH. reflexivity.
Qed.

Lemma get_missing {V : Type} (d : list (string * V)) (key : string) (default : V) :
  ~ In key (map fst d) -> get d key default = default.
Proof.
  induction d as [| [k v] d IH]; [reflexivity |].
  simpl. intros H. destruct (String.eqb_spec k key) as [-> | _].
  - exfalso. apply H. left. reflexivity.
  - apply IH. intros Hin. apply H. right. exact Hin.
Qed.

(** X5.  [tradingview_link] never carries a slash of the symbol into the
    link's symbol part, so [BTC/USDT] and [BTCUSDT] give the same link; and
    a timeframe that is not a key of [TV_TIMEFRAME_MAP] is used as the
    interval verbatim. *)
Theorem X5_tradingview_link :
  forall (symbol timeframe market : string),
    ~ In "/"%char (list_ascii_of_string (replace_slash symbol))
    /\ tradingview_link (replace_slash symbol) timeframe market
       = tradingview_link symbol timeframe market
    /\ (~ In timeframe (map fst TV_TIMEFRAME_MAP) ->
        tradingview_link symbol timeframe market
        = "https://www.tradingview.com/chart/?symbol=" ++ market ++ ":"
          ++ replace_slash symbol ++ "&interval=" ++ timeframe).
Proof.
  intros symbol timeframe market. repeat split.
  - apply replace_slash_no_slash.
  - unfold tradingview_link. cbv zeta. rewrite replace_slash_idempotent.
    reflexivity.
  - intros H. unfold tradingview_link. cbv zeta.
    rewrite (get_missing TV_TIMEFRAME_MAP timeframe timeframe H). reflexivity.
Qed.

End TradingView.

(** ** utils.py: more on the anchored VWAP *)

Section LoopExt.
Context {S : Type}.

Lemma for_each_ext (body1 body2 : S -> nat -> result S) (xs : list nat) (st : S) :
  (forall st i, In i xs -> body1 st i = body2 st i) ->
  for_each body1 xs st = for_each body2 xs st.
Proof.
  revert st. induction xs as [| x xs IH]; intros st H; simpl; [reflexivity |].
  rewrite (H st x) by (left; reflexivity).
  destruct (body2 st x); simpl; [| reflexivity].
  apply IH. intros st' i Hi. apply H. right. exact Hi.
Qed.

Lemma for_each_raise_now (body : S -> nat -> result S) (xs ys : list nat)
      (k : nat) (st st' : S) (e : exn) :
  for_each body xs st = Ok st' -> body st' k = Raise e ->
  for_each body (xs ++ k :: ys) st = Raise e.
Proof.
  intros H1 H2. rewrite for_each_app, H1. simpl. rewrite H2. reflexivity.
Qed.

End LoopExt.

Section VwapMore.
Local Open Scope float_scope.

Lemma vwap_body_firstn (prices volumes : Series) (anchor : list bool)
      (k i : nat) (st : vwap_locals) :
  (i < k)%nat ->
  vwap_body (firstn k prices) (firstn k volumes) (firstn k anchor) st i
  = vwap_body prices volumes anchor st i.
Proof.
  intros H. unfold vwap_body, iat. rewrite !nth_error_firstn.
  destruct (Nat.ltb_spec i k); [reflexivity | lia].
Qed.

(** X6.  A bar of the output depends on the bars up to it only: run on the
    first [k] bars, [anchored_vwap] returns the first [k] values of the run
    on all bars. *)
Theorem X6_anchored_vwap_no_look_ahead :
  forall (prices volumes : Series) (anchor : list bool) (out : Series) (k : nat),
    length volumes = length prices ->
    length anchor = length prices ->
    anchored_vwap prices volumes anchor = Ok out ->
    anchored_vwap (firstn k prices) (firstn k volumes) (firstn k anchor)
    = Ok (firstn k out).
Proof.
  intros prices volumes anchor out k Lv La Hout.
  assert (Hk : forall k, (k <= length prices)%nat ->
               anchored_vwap (firstn k prices) (firstn k volumes) (firstn k anchor)
               = Ok (firstn k out)).
  { clear k. intros k Hk.
    destruct (vwap_after_ok prices volumes anchor Lv La k Hk) as (st & Ek & Lk).
    unfold anchored_vwap in *.
    destruct (vwap_after prices volumes anchor (length prices)) as [stn |] eqn:En;
      [| discriminate].
    cbn [bind] in Hout. inversion Hout; subst out; clear Hout.
    rewrite length_firstn, Nat.min_l by exact Hk.
    unfold vwap_after, for_range in *.
    rewrite (for_each_ext _ (vwap_body prices volumes anchor)).
    2: { intros st' i Hi. apply in_seq in Hi. apply vwap_body_firstn. lia. }
    rewrite Ek. cbn [bind]. f_equal.
    replace (length prices) with (k + (length prices - k))%nat in En by lia.
    destruct (vwap_vals_prefix prices volumes anchor k _ st stn Ek En)
      as [tail ->].
    rewrite firstn_app, Lk, Nat.sub_diag, firstn_O, app_nil_r.
    rewrite <- Lk. symmetry. apply firstn_all. }
  destruct (Nat.le_gt_cases k (length prices)) as [H | H]; [apply Hk; exact H |].
  rewrite !firstn_all2 by lia.
  rewrite firstn_all2; [exact Hout |].
  destruct (anchored_vwap_ok prices volumes anchor Lv La) as (out' & E & L).
  rewrite Hout in E. inversion E; subst. lia.
Qed.

Lemma X6_anchored_vwap_no_look_ahead_witness :
  anchored_vwap (firstn 2 [10; 20; 30]) (firstn 2 [1; 3; 2])
                (firstn 2 [true; false; true])
  = Ok (firstn 2 [10; 17.5; 30]).
Proof.
  apply (X6_anchored_vwap_no_look_ahead
           [10; 20; 30] [1; 3; 2] [true; false; true] [10; 17.5; 30] 2);
    reflexivity.
Defined.

(** The passes after an anchor bar, on the whole series and on the series
    cut at the anchor, keep the same accumulators and append the same
    values. *)
Lemma vwap_after_anchor (prices volumes : Series) (anchor : list bool)
      (k j : nat) (stk : vwap_locals) :
  length volumes = length prices ->
  length anchor = length prices ->
  nth_error anchor k = Some true ->
  vwap_after prices volumes anchor k = Ok stk ->
  (k + S j <= length prices)%nat ->
  exists st st',
    vwap_after prices volumes anchor (k + S j) = Ok st
    /\ vwap_after (skipn k prices) (skipn k volumes) (skipn k anchor) (S j) = Ok st'
    /\ cum_pv st = cum_pv st' /\ cum_v st = cum_v st'
    /\ vwap_vals st = vwap_vals stk ++ vwap_vals st'.
Proof.
  intros Lv La Hanchor Hk. induction j as [| j IH]; intros Hj.
  - destruct (aligned_bar prices volumes anchor Lv La k)
      as (p & v & a & Hp & Hv & Ha); [lia |].
    rewrite Hanchor in Ha. inversion Ha; subst a.
    rewrite Nat.add_1_r. unfold vwap_after. rewrite !for_range_S.
    fold (vwap_after prices volumes anchor k). rewrite Hk. cbn [bind].
    rewrite (vwap_body_Ok prices volumes anchor stk k p v true Hp Hv Hanchor).
    change (for_range 0 _ vwap_init) with (Ok vwap_init). cbn [bind].
    rewrite (vwap_body_Ok (skipn k prices) (skipn k volumes) (skipn k anchor)
               vwap_init 0 p v true)
      by (rewrite nth_error_skipn, Nat.add_0_r; assumption).
    do 2 eexists. repeat split; reflexivity.
  - destruct IH as (st & st' & E & E' & Hpv & Hcv & Hvals); [lia |].
    destruct (aligned_bar prices volumes anchor Lv La (k + S j))
      as (p & v & a & Hp & Hv & Ha); [lia |].
    unfold vwap_after in *.
    rewrite Nat.add_succ_r, (for_range_S _ (k + S j)), (for_range_S _ (S j)),
      E, E'. cbn [bind].
    rewrite (vwap_body_Ok prices volumes anchor st (k + S j) p v a Hp Hv Ha).
    rewrite (vwap_body_Ok (skipn k prices) (skipn k volumes) (skipn k anchor)
               st' (S j) p v a)
      by (rewrite nth_error_skipn; assumption).
    do 2 eexists. split; [reflexivity |]. split; [reflexivity |].
    cbn [cum_pv cum_v vwap_vals]. rewrite Hpv, Hcv, Hvals, app_assoc.
    repeat split; reflexivity.
Qed.

(** X7.  An anchor bar starts the computation afresh: from an anchor bar
    on, the output is what [anchored_vwap] returns on the series cut at
    that bar. *)
Theorem X7_anchored_vwap_restarts_at_anchor :
  forall (prices volumes : Series) (anchor : list bool) (out : Series) (k : nat),
    length volumes = length prices ->
    length anchor = length prices ->
    nth_error anchor k = Some true ->
    anchored_vwap prices volumes anchor = Ok out ->
    anchored_vwap (skipn k prices) (skipn k volumes) (skipn k anchor)
    = Ok (skipn k out).
Proof.
  intros prices volumes anchor out k Lv La Hanchor Hout.
  assert (Hk : (k < length prices)%nat).
  { rewrite <- La. apply nth_error_Some. congruence. }
  destruct (vwap_after_ok prices volumes anchor Lv La k) as (stk & Ek & Lk);
    [lia |].
  destruct (vwap_after_anchor prices volumes anchor k (length prices - k - 1) stk
              Lv La Hanchor Ek)
    as (st & st' & E & E' & _ & _ & Hvals); [lia |].
  replace (k + S (length prices - k - 1))%nat with (length prices) in E by lia.
  unfold anchored_vwap in *. rewrite E in Hout. cbn [bind] in Hout.
  inversion Hout; subst out; clear Hout.
  rewrite length_skipn.
  replace (length prices - k)%nat with (S (length prices - k - 1)) by lia.
  rewrite E'. cbn [bind]. f_equal.
  rewrite Hvals, skipn_app, Lk, Nat.sub_diag, skipn_all2 by lia.
  reflexivity.
Qed.

Lemma X7_anchored_vwap_restarts_at_anchor_witness :
  anchored_vwap (skipn 1 [10; 20; 30; 40]) (skipn 1 [1; 3; 2; 2])
                (skipn 1 [false; true; false; true])
  = Ok (skipn 1 [10; 20; 24; 40]).
Proof.
  apply (X7_anchored_vwap_restarts_at_anchor
           [10; 20; 30; 40] [1; 3; 2; 2] [false; true; false; true]
           [10; 20; 24; 40] 1); reflexivity.
Defined.

(** X8.  When [volumes] or [anchor] has fewer values than [prices],
    [anchored_vwap] raises [IndexError]. *)
Theorem X8_anchored_vwap_misaligned :
  forall (prices volumes : Series) (anchor : list bool),
    (length volumes < length prices)%nat
    \/ (length anchor < length prices)%nat ->
    anchored_vwap prices volumes anchor = Raise IndexError.
Proof.
  intros prices volumes anchor H.
  set (k := Nat.min (length volumes) (length anchor)).
  assert (Hk : (k < length prices)%nat) by (unfold k; lia).
  (* the first [k] passes run as on the aligned prefixes *)
  destruct (vwap_after_ok (firstn k prices) (firstn k volumes) (firstn k anchor))
    with (k := k) as (st & Ek & _);
    try (rewrite !length_firstn; unfold k; lia).
  unfold vwap_after, for_range in Ek.
  rewrite (for_each_ext _ (vwap_body prices volumes anchor)) in Ek.
  2: { intros st' i Hi. apply in_seq in Hi. apply vwap_body_firstn. lia. }
  unfold anchored_vwap, vwap_after, for_range.
  replace (length prices) with (k + S (length prices - k - 1))%nat by lia.
  rewrite seq_app. cbn [seq].
  rewrite (for_each_raise_now _ _ _ k vwap_init st IndexError Ek); [reflexivity |].
  unfold vwap_body, iat.
  destruct (nth_error anchor k) as [a |] eqn:Ea; cbn [bind]; [| reflexivity].
  destruct (nth_error prices k) as [p |] eqn:Ep; cbn [bind]; [| reflexivity].
  destruct (nth_error volumes k) as [v |] eqn:Ev; cbn [bind]; [| reflexivity].
  exfalso.
  assert (k < length anchor)%nat by (apply nth_error_Some; congruence).
  assert (k < length volumes)%nat by (apply nth_error_Some; congruence).
  unfold k in *. lia.
Qed.

Lemma X8_anchored_vwap_misaligned_witness :
  anchored_vwap [10; 20; 30] [1; 3] [true; false; true] = Raise IndexError.
Proof.
  apply (X8_anchored_vwap_misaligned [10; 20; 30] [1; 3] [true; false; true]).
  left. simpl. lia.
Defined.

End VwapMore.

(** ** The order of binary64 values that are not NaN *)

Section FloatOrder.
Import Binary64.
Local Open Scope float_scope.

Lemma SFltb_rank (x y : spec_float) :
  x <> S754_nan -> y <> S754_nan ->
  (SFltb x y = true <-> rank_lt (rank x) (rank y)).
Proof.
  intros Hx Hy. unfold SFltb, SFcompare.
  destruct x as [sx | sx | | sx mx ex]; destruct y as [sy | sy | | sy my ey];
    try contradiction; try destruct sx; try destruct sy; simpl;
    try (split; [discriminate | lia]); try (split; [lia | reflexivity]);
    try (split; intros; lia).
  - destruct (Z.compare_spec ex ey); simpl;
      try (split; [discriminate | lia]); try (split; [lia | reflexivity]).
    fold (Pos.compare mx my). destruct (Pos.compare_spec mx my); simpl;
      try (split; [discriminate | lia]); try (split; [lia | reflexivity]).
  - destruct (Z.compare_spec ex ey); simpl;
      try (split; [discriminate | lia]); try (split; [lia | reflexivity]).
    fold (Pos.compare mx my). destruct (Pos.compare_spec mx my); simpl;
      try (split; [discriminate | lia]); try (split; [lia | reflexivity]).
Qed.

Lemma SFleb_rank (x y : spec_float) :
  x <> S754_nan -> y <> S754_nan ->
  (SFleb x y = true <-> rank_le (rank x) (rank y)).
Proof.
  intros Hx Hy. unfold SFleb, SFcompare.
  destruct x as [sx | sx | | sx mx ex]; destruct y as [sy | sy | | sy my ey];
    try contradiction; try destruct sx; try destruct sy; simpl;
    try (split; [discriminate | lia]); try (split; [lia | reflexivity]);
    try (split; intros; lia).
  - destruct (Z.compare_spec ex ey); simpl;
      try (split; [discriminate | lia]); try (split; [lia | reflexivity]).
    fold (Pos.compare mx my). destruct (Pos.compare_spec mx my); simpl;
      try (split; [discriminate | lia]); try (split; [lia | reflexivity]).
  - destruct (Z.compare_spec ex ey); simpl;
      try (split; [discriminate | lia]); try (split; [lia | reflexivity]).
    fold (Pos.compare mx my). destruct (Pos.compare_spec mx my); simpl;
      try (split; [discriminate | lia]); try (split; [lia | reflexivity]).
Qed.

Lemma is_nan_spec (x : float) : is_nan x = true <-> Prim2SF x = S754_nan.
Proof.
  unfold is_nan. rewrite FloatAxioms.eqb_spec. unfold SFeqb, SFcompare.
  destruct (Prim2SF x) as [s | s | | s m e]; simpl.
  - split; discriminate.
  - destruct s; split; discriminate.
  - split; reflexivity.
  - destruct s; rewrite Z.compare_refl, Pos.compare_cont_refl; simpl;
      split; discriminate.
Qed.

Lemma not_nan_spec (x : float) : is_nan x = false -> Prim2SF x <> S754_nan.
Proof.
  intros H E. apply is_nan_spec in E. congruence.
Qed.

Lemma ltb_rank (x y : float) :
  is_nan x = false -> is_nan y = false ->
  ((x <? y) = true <-> rank_lt (rank (Prim2SF x)) (rank (Prim2SF y))).
Proof.
  intros Hx Hy. rewrite FloatAxioms.ltb_spec.
  apply SFltb_rank; apply not_nan_spec; assumption.
Qed.

Lemma leb_rank (x y : float) :
  is_nan x = false -> is_nan y = false ->
  ((x <=? y) = true <-> rank_le (rank (Prim2SF x)) (rank (Prim2SF y))).
Proof.
  intros Hx Hy. rewrite FloatAxioms.leb_spec.
  apply SFleb_rank; apply not_nan_spec; assumption.
Qed.

Ltac ranks :=
  repeat match goal with
         | |- context [rank ?x] =>
             let a := fresh "a" in let b := fresh "b" in let c := fresh "c" in
             destruct (rank x) as [[a b] c]
         | H : context [rank ?x] |- _ =>
             let a := fresh "a" in let b := fresh "b" in let c := fresh "c" in
             destruct (rank x) as [[a b] c]
         end;
  unfold rank_lt, rank_le in *.

Lemma leb_refl (x : float) : is_nan x = false -> (x <=? x) = true.
Proof.
  intros H. apply leb_rank; auto. ranks. lia.
Qed.

Lemma leb_trans (x y z : float) :
  is_nan x = false -> is_nan y = false -> is_nan z = false ->
  (x <=? y) = true -> (y <=? z) = true -> (x <=? z) = true.
Proof.
  intros Hx Hy Hz Hxy Hyz.
  apply leb_rank in Hxy; auto. apply leb_rank in Hyz; auto.
  apply leb_rank; auto. ranks. lia.
Qed.

Lemma ltb_leb (x y : float) :
  is_nan x = false -> is_nan y = false ->
  (x <? y) = true -> (x <=? y) = true.
Proof.
  intros Hx Hy H. apply ltb_rank in H; auto. apply leb_rank; auto.
  ranks. lia.
Qed.

Lemma not_ltb_leb (x y : float) :
  is_nan x = false -> is_nan y = false ->
  (x <? y) = false -> (y <=? x) = true.
Proof.
  intros Hx Hy H. apply leb_rank; auto.
  assert (Hn : ~ rank_lt (rank (Prim2SF x)) (rank (Prim2SF y))).
  { intros Hlt. apply ltb_rank in Hlt; auto. congruence. }
  ranks. lia.
Qed.

Lemma ltb_irrefl (x : float) : (x <? x) = false.
Proof.
  destruct (is_nan x) eqn:E.
  - rewrite FloatAxioms.ltb_spec. apply is_nan_spec in E. rewrite E. reflexivity.
  - destruct (x <? x) eqn:L; [| reflexivity].
    apply ltb_rank in L; auto. ranks. lia.
Qed.

End FloatOrder.

(** ** utils.py: the rolling indicators *)

Section Rolling.
Local Open Scope float_scope.

(** The value of a rolling aggregate at a bar of the series. *)
Lemma rolling_nth (n : nat) (agg : list float -> float) (s : Series) (i : nat) :
  (i < length s)%nat ->
  nth_error (rolling n agg s) i
  = Some match window n s i with
         | Some w => if existsb is_nan w then nan else agg w
         | None => nan
         end.
Proof.
  intros H. unfold rolling.
  rewrite nth_error_map, nth_error_seq.
  destruct (Nat.ltb_spec i (length s)); [reflexivity | lia].
Qed.

(** X9.  The rolling indicators return one value per bar, and the value is
    NaN on each of the first [length - 1] bars. *)
Theorem X9_rolling_warm_up :
  forall (series : Series) (length_ i : nat),
    (S i < length_)%nat ->
    (i < length series)%nat ->
    (nth_error (sma series length_) i = Some nan
     /\ nth_error (stdev series length_) i = Some nan
     /\ nth_error (lowest series length_) i = Some nan
     /\ nth_error (highest series length_) i = Some nan)
    /\ (length (sma series length_) = length series
        /\ length (stdev series length_) = length series
        /\ length (lowest series length_) = length series
        /\ length (highest series length_) = length series).
Proof.
  intros series length_ i Hi Hlen.
  unfold sma, stdev, lowest, highest. rewrite !rolling_length.
  rewrite !rolling_nth by exact Hlen. unfold window.
  destruct (Nat.leb_spec length_ (S i)); [lia |]. repeat split; reflexivity.
Qed.

Lemma X9_rolling_warm_up_witness :
  nth_error (sma [5; 6; 7; 8] 3) 1 = Some nan.
Proof.
  refine (proj1 (proj1 (X9_rolling_warm_up [5; 6; 7; 8] 3 1 _ _))); simpl; lia.
Defined.

Lemma fold_fmax_upper (t : list float) (a : float) :
  is_nan a = false -> Forall (fun y => is_nan y = false) t ->
  is_nan (fold_left fmax t a) = false
  /\ (a <=? fold_left fmax t a) = true
  /\ Forall (fun y => (y <=? fold_left fmax t a) = true) t.
Proof.
  intros Ha Ht. revert a Ha. induction Ht as [| y t Hy _ IH]; intros a Ha; simpl.
  - repeat split; auto using leb_refl.
  - assert (Hm : is_nan (fmax a y) = false)
      by (unfold fmax; destruct (a <? y); assumption).
    destruct (IH (fmax a y) Hm) as (Hn & Hle & Hall).
    assert (Ha' : (a <=? fmax a y) = true).
    { unfold fmax. destruct (a <? y) eqn:E;
        [apply ltb_leb; assumption | apply leb_refl; assumption]. }
    assert (Hy' : (y <=? fmax a y) = true).
    { unfold fmax. destruct (a <? y) eqn:E;
        [apply leb_refl; assumption | apply not_ltb_leb; assumption]. }
    split; [exact Hn |]. split.
    + exact (leb_trans a (fmax a y) _ Ha Hm Hn Ha' Hle).
    + constructor; [exact (leb_trans y (fmax a y) _ Hy Hm Hn Hy' Hle) | exact Hall].
Qed.

Lemma fold_fmin_lower (t : list float) (a : float) :
  is_nan a = false -> Forall (fun y => is_nan y = false) t ->
  is_nan (fold_left fmin t a) = false
  /\ (fold_left fmin t a <=? a) = true
  /\ Forall (fun y => (fold_left fmin t a <=? y) = true) t.
Proof.
  intros Ha Ht. revert a Ha. induction Ht as [| y t Hy _ IH]; intros a Ha; simpl.
  - repeat split; auto using leb_refl.
  - assert (Hm : is_nan (fmin a y) = false)
      by (unfold fmin; destruct (y <? a); assumption).
    destruct (IH (fmin a y) Hm) as (Hn & Hle & Hall).
    assert (Ha' : (fmin a y <=? a) = true).
    { unfold fmin. destruct (y <? a) eqn:E;
        [apply ltb_leb; assumption | apply leb_refl; assumption]. }
    assert (Hy' : (fmin a y <=? y) = true).
    { unfold fmin. destruct (y <? a) eqn:E;
        [apply leb_refl; assumption | apply not_ltb_leb; assumption]. }
    split; [exact Hn |]. split.
    + exact (leb_trans _ (fmin a y) a Hn Hm Ha Hle Ha').
    + constructor; [exact (leb_trans _ (fmin a y) y Hn Hm Hy Hle Hy') | exact Hall].
Qed.

Lemma max_of_upper (w : list float) (x : float) :
  existsb is_nan w = false -> In x w -> (x <=? max_of w) = true.
Proof.
  intros Hw Hx. destruct w as [| a t]; [contradiction |].
  simpl in Hw. apply orb_false_elim in Hw. destruct Hw as [Ha Ht].
  assert (Ft : Forall (fun y => is_nan y = false) t).
  { apply Forall_forall. intros y Hy.
    destruct (is_nan y) eqn:E; [| reflexivity].
    assert (existsb is_nan t = true) by (apply existsb_exists; eauto).
    congruence. }
  destruct (fold_fmax_upper t a Ha Ft) as (_ & Hle & Hall).
  simpl. destruct Hx as [<- | Hx]; [exact Hle |].
  rewrite Forall_forall in Hall. apply Hall. exact Hx.
Qed.

Lemma min_of_lower (w : list float) (x : float) :
  existsb is_nan w = false -> In x w -> (min_of w <=? x) = true.
Proof.
  intros Hw Hx. destruct w as [| a t]; [contradiction |].
  simpl in Hw. apply orb_false_elim in Hw. destruct Hw as [Ha Ht].
  assert (Ft : Forall (fun y => is_nan y = false) t).
  { apply Forall_forall. intros y Hy.
    destruct (is_nan y) eqn:E; [| reflexivity].
    assert (existsb is_nan t = true) by (apply existsb_exists; eauto).
    congruence. }
  destruct (fold_fmin_lower t a Ha Ft) as (_ & Hle & Hall).
  simpl. destruct Hx as [<- | Hx]; [exact Hle |].
  rewrite Forall_forall in Hall. apply Hall. exact Hx.
Qed.

(** A bar inside the window is one of the window's values. *)
Lemma window_In (n : nat) (s : Series) (i j : nat) (w : list float) (x : float) :
  window n s i = Some w -> (j <= i)%nat -> (i < j + n)%nat ->
  nth_error s j = Some x -> In x w.
Proof.
  unfold window. destruct (Nat.leb_spec n (S i)); [| discriminate].
  remember (S i - n)%nat as k eqn:Ek.
  intros Hw Hj Hi Hx. inversion Hw; subst w; clear Hw.
  apply nth_error_In with (n := (j - k)%nat).
  rewrite nth_error_firstn.
  destruct (Nat.ltb_spec (j - k) n); [| lia].
  rewrite nth_error_skipn, <- Hx. f_equal. lia.
Qed.

(** X10.  Wherever [highest] is defined it is at least every value in its
    window (the bar and the [length - 1] bars before it), and wherever
    [lowest] is defined it is at most every value in its window. *)
Theorem X10_highest_lowest_bound :
  forall (series : Series) (length_ i j : nat) (x : float),
    (j <= i)%nat -> (i < j + length_)%nat ->
    nth_error series j = Some x ->
    (forall h, nth_error (highest series length_) i = Some h ->
               is_nan h = false -> (x <=? h) = true)
    /\ (forall l, nth_error (lowest series length_) i = Some l ->
                  is_nan l = false -> (l <=? x) = true).
Proof.
  intros series length_ i j x Hj Hi Hx.
  split; intros v Hv Hnan.
  - unfold highest in Hv.
    assert (Hi' : (i < length series)%nat).
    { rewrite <- (rolling_length length_ max_of). apply nth_error_Some. congruence. }
    rewrite rolling_nth in Hv by exact Hi'.
    destruct (window length_ series i) as [w |] eqn:Ew;
      [| inversion Hv; subst; discriminate].
    destruct (existsb is_nan w) eqn:En; [inversion Hv; subst; discriminate |].
    inversion Hv; subst v.
    apply max_of_upper; [exact En |]. eapply window_In; eauto.
  - unfold lowest in Hv.
    assert (Hi' : (i < length series)%nat).
    { rewrite <- (rolling_length length_ min_of). apply nth_error_Some. congruence. }
    rewrite rolling_nth in Hv by exact Hi'.
    destruct (window length_ series i) as [w |] eqn:Ew;
      [| inversion Hv; subst; discriminate].
    destruct (existsb is_nan w) eqn:En; [inversion Hv; subst; discriminate |].
    inversion Hv; subst v.
    apply min_of_lower; [exact En |]. eapply window_In; eauto.
Qed.

Lemma X10_highest_lowest_bound_witness :
  (2 <=? 3) = true /\ (0 <=? 2) = true.
Proof.
  split.
  - refine (proj1 (X10_highest_lowest_bound [1; 3; 2; 0] 2 2 2 2 _ _ _) 3 _ _);
      try reflexivity; lia.
  - refine (proj2 (X10_highest_lowest_bound [1; 3; 2; 0] 2 3 2 2 _ _ _) 0 _ _);
      try reflexivity; lia.
Defined.

End Rolling.

(** ** strategy.py: the oscillators *)

Section Oscillators.
Local Open Scope float_scope.

Lemma sub_nan_r (x : float) : x - nan = nan.
Proof.
  apply Prim2SF_inj. rewrite FloatAxioms.sub_spec.
  change (Prim2SF nan) with S754_nan.
  destruct (Prim2SF x) as [s | s | | s m e]; try destruct s; reflexivity.
Qed.

Lemma ltb_nan_l (x : float) : (nan <? x) = false.
Proof.
  rewrite FloatAxioms.ltb_spec. change (Prim2SF nan) with S754_nan. reflexivity.
Qed.

Lemma ltb_nan_r (x : float) : (x <? nan) = false.
Proof.
  rewrite FloatAxioms.ltb_spec. change (Prim2SF nan) with S754_nan.
  destruct (Prim2SF x); reflexivity.
Qed.


Lemma rsi_length (series : Series) (length_ : nat) :
  length (rsi series length_) = length series.
Proof.
  unfold rsi, fillna, replace_zero_nan, clip_lower, clip_upper. cbv zeta.
  repeat rewrite ?length_map, ?zip_with_length, ?ewm_mean_length, ?diff_length.
  lia.
Qed.

Lemma mfi_length (df : DataFrame) (length_ : nat) :
  length (mfi (col high df) (col low df) (col close df) (col volume df) length_)
  = length df.
Proof.
  unfold mfi, fillna, replace_zero_nan, broadcast, col. cbv zeta.
  repeat rewrite ?length_map, ?zip_with_length, ?rolling_length, ?where_length,
    ?shift1_length.
  lia.
Qed.


(** X12.  Wherever the rolling negative money flow is zero, [mfi] reports
    0. *)
Theorem X12_mfi_zero_negative_flow :
  forall (high low close volume : Series) (length_ i : nat) (neg : float),
    nth_error (mfi_negative_flow high low close volume length_) i = Some neg ->
    (neg =? 0) = true ->
    nth_error (mfi high low close volume length_) i = Some 0.
Proof.
  intros high low close volume length_ i neg Hneg Hz.
  unfold mfi. cbv zeta. fold (typical_price high low close).
  set (tp := typical_price high low close) in *.
  set (mf := zip_with mul tp volume) in *.
  unfold mfi_negative_flow in Hneg. cbv zeta in Hneg. fold tp mf in Hneg.
  set (negs := rolling length_ sum
                 (where_ (zip_with (fun t p => t <? p) tp (shift1 tp)) mf
                         (broadcast mf 0.0))) in *.
  set (poss := rolling length_ sum
                 (where_ (zip_with (fun t p => p <? t) tp (shift1 tp)) mf
                         (broadcast mf 0.0))).
  assert (Hlen : length poss = length negs).
  { unfold poss, negs, broadcast.
    rewrite !rolling_length, !where_length, !zip_with_length, !length_map.
    reflexivity. }
  destruct (nth_error poss i) as [p |] eqn:Ep.
  2: { apply nth_error_None in Ep.
       assert (i < length negs)%nat by (apply nth_error_Some; congruence). lia. }
  unfold fillna, replace_zero_nan. rewrite !nth_error_map.
  rewrite (zip_with_nth _ _ _ _ p (if neg =? 0 then nan else neg) Ep)
    by (rewrite nth_error_map, Hneg; reflexivity).
  cbn [option_map]. rewrite Hz, div_nan_r. reflexivity.
Qed.

Lemma X12_mfi_zero_negative_flow_witness :
  nth_error (mfi [1; 2; 3] [1; 2; 3] [1; 2; 3] [5; 5; 5] 2) 2 = Some 0.
Proof.
  apply (X12_mfi_zero_negative_flow [1; 2; 3] [1; 2; 3] [1; 2; 3] [5; 5; 5]
           2 2 0); reflexivity.
Defined.

(** A rolling aggregate is NaN on a bar whose value is NaN. *)
Lemma rolling_nan_bar (n : nat) (agg : list float -> float) (s : Series) (i : nat) :
  (0 < n)%nat -> nth_error s i = Some nan ->
  nth_error (rolling n agg s) i = Some nan.
Proof.
  intros Hn Hi.
  assert (Hlen : (i < length s)%nat) by (apply nth_error_Some; congruence).
  rewrite rolling_nth by exact Hlen.
  destruct (window n s i) as [w |] eqn:Ew; [| reflexivity].
  assert (Hin : In nan w) by (eapply window_In; eauto; lia).
  assert (Hex : existsb is_nan w = true)
    by (apply existsb_exists; exists nan; split; [exact Hin | reflexivity]).
  rewrite Hex. reflexivity.
Qed.

(** X13.  On a bar where the highest high and the lowest low of the window
    coincide, %K and %D of [stoch] are NaN. *)
Theorem X13_stoch_zero_range :
  forall (high low close : Series) (length_ i : nat) (hh ll : float),
    length high = length close ->
    length low = length close ->
    nth_error (highest high length_) i = Some hh ->
    nth_error (lowest low length_) i = Some ll ->
    (hh - ll =? 0) = true ->
    nth_error (fst (stoch high low close length_)) i = Some nan
    /\ nth_error (snd (stoch high low close length_)) i = Some nan.
Proof.
  intros high low close length_ i hh ll Lh Ll Hh Hl Hz.
  unfold stoch. cbv zeta. cbn [fst snd].
  assert (Hi : (i < length close)%nat).
  { rewrite <- Lh, <- (rolling_length length_ max_of). apply nth_error_Some.
    unfold highest in Hh. congruence. }
  destruct (nth_error close i) as [c |] eqn:Ec;
    [| apply nth_error_None in Ec; lia].
  assert (Hfast : nth_error
                    (zip_with (fun q d => q / d * 100)
                       (zip_with sub close (lowest low length_))
                       (replace_zero_nan
                          (zip_with sub (highest high length_)
                                    (lowest low length_)))) i = Some nan).
  { rewrite (zip_with_nth _ _ _ _ (c - ll) nan).
    - rewrite div_nan_r. reflexivity.
    - apply zip_with_nth; assumption.
    - unfold replace_zero_nan. rewrite nth_error_map.
      rewrite (zip_with_nth _ _ _ _ hh ll Hh Hl). cbn [option_map].
      rewrite Hz. reflexivity. }
  assert (Hk : nth_error (sma (zip_with (fun q d => q / d * 100)
                       (zip_with sub close (lowest low length_))
                       (replace_zero_nan
                          (zip_with sub (highest high length_)
                                    (lowest low length_)))) 3) i = Some nan).
  { unfold sma. apply rolling_nan_bar; [lia | exact Hfast]. }
  split; [exact Hk |].
  unfold sma at 1. apply rolling_nan_bar; [lia | exact Hk].
Qed.

Lemma X13_stoch_zero_range_witness :
  nth_error (fst (stoch [1; 1; 1] [1; 1; 1] [1; 1; 1] 2)) 2 = Some nan
  /\ nth_error (snd (stoch [1; 1; 1] [1; 1; 1] [1; 1; 1] 2)) 2 = Some nan.
Proof.
  apply (X13_stoch_zero_range [1; 1; 1] [1; 1; 1] [1; 1; 1] 2 2 1 1);
    reflexivity.
Defined.

(** X14.  On a bar where the mean absolute deviation of the typical price
    over the window is zero, [cci] is NaN; on a bar where the volume of the
    window sums to zero, [vwma] is NaN. *)
Theorem X14_cci_vwma_zero_denominator :
  forall (high low close volume : Series) (length_ i : nat) (md v : float),
    length high = length close ->
    length low = length close ->
    length volume = length close ->
    nth_error (rolling length_ mean_abs_dev (typical_price high low close)) i
    = Some md ->
    (md =? 0) = true ->
    nth_error (rolling length_ sum volume) i = Some v ->
    (v =? 0) = true ->
    nth_error (cci high low close length_) i = Some nan
    /\ nth_error (vwma close volume length_) i = Some nan.
Proof.
  intros high low close volume length_ i md v Lh Ll Lv Hmd Hz Hv Hvz.
  assert (Htp : length (typical_price high low close) = length close).
  { unfold typical_price. rewrite !zip_with_length. lia. }
  assert (Hi : (i < length close)%nat).
  { rewrite <- Htp, <- (rolling_length length_ mean_abs_dev).
    apply nth_error_Some. congruence. }
  split.
  - unfold cci. cbv zeta.
    set (tp := typical_price high low close) in *.
    destruct (nth_error tp i) as [t |] eqn:Et;
      [| apply nth_error_None in Et; lia].
    destruct (nth_error (sma tp length_) i) as [m |] eqn:Em.
    2: { apply nth_error_None in Em. unfold sma in Em.
         rewrite rolling_length in Em. lia. }
    rewrite (zip_with_nth _ _ _ _ (t - m) nan).
    + rewrite div_nan_r. reflexivity.
    + apply zip_with_nth; assumption.
    + unfold replace_zero_nan. rewrite !nth_error_map, Hmd. cbn [option_map].
      rewrite Hz. reflexivity.
  - unfold vwma. cbv zeta.
    destruct (nth_error (rolling length_ sum (zip_with mul close volume)) i)
      as [pv |] eqn:Epv.
    2: { apply nth_error_None in Epv.
         rewrite rolling_length, zip_with_length in Epv. lia. }
    rewrite (zip_with_nth _ _ _ _ pv nan).
    + rewrite div_nan_r. reflexivity.
    + exact Epv.
    + unfold replace_zero_nan. rewrite nth_error_map, Hv. cbn [option_map].
      rewrite Hvz. reflexivity.
Qed.

Lemma X14_cci_vwma_zero_denominator_witness :
  nth_error (cci [1; 1; 1] [1; 1; 1] [1; 1; 1] 2) 2 = Some nan
  /\ nth_error (vwma [1; 1; 1] [0; 0; 0] 2) 2 = Some nan.
Proof.
  apply (X14_cci_vwma_zero_denominator [1; 1; 1] [1; 1; 1] [1; 1; 1] [0; 0; 0]
           2 2 0 0); reflexivity.
Defined.

Lemma cumsum_zeros (n : nat) :
  cumsum_from (Some 0) (repeat 0 n) = repeat 0 n.
Proof. induction n as [| n IH]; simpl; [| rewrite IH]; reflexivity. Qed.

(** X15.  While the close does not change, [obv] stays at 0 whatever the
    volumes are. *)
Theorem X15_obv_flat_close :
  forall (c : float) (volume : Series),
    obv (repeat c (length volume)) volume = repeat 0 (length volume).
Proof.
  intros c volume. unfold obv. cbv zeta.
  assert (Hdir : forall (vol : Series) (prev : Series),
             Forall (fun p => (p <? c) = false /\ (c <? p) = false) prev ->
             length prev = length vol ->
             where_ (zip_with (fun c p => p <? c) (repeat c (length vol)) prev)
                    vol
                    (where_ (zip_with (fun c p => c <? p)
                                      (repeat c (length vol)) prev)
                            (map opp vol)
                            (broadcast (repeat c (length vol)) 0))
             = repeat 0 (length vol)).
  { induction vol as [| v vol IH]; intros prev Hp Hl; [reflexivity |].
    destruct prev as [| p prev]; [discriminate |].
    inversion Hp as [| ? ? [H1 H2] Hp']; subst.
    cbn [length repeat zip_with where_ map broadcast].
    rewrite H1, H2. unfold broadcast in IH. rewrite IH; auto. }
  destruct volume as [| v volume]; [reflexivity |].
  rewrite Hdir.
  - cbn [length repeat]. unfold cumsum. cbn [cumsum_from].
    change (is_nan 0) with false. cbv iota. rewrite cumsum_zeros. reflexivity.
  - cbn [length repeat shift1]. constructor.
    + split; [apply ltb_nan_l | apply ltb_nan_r].
    + apply Forall_forall. intros p Hp.
      assert (p = c).
      { revert Hp. generalize (length volume) as n. intros n.
        destruct n as [| n]; [simpl; tauto |].
        intros Hp. apply (repeat_spec (S n) c p).
        replace (repeat c (S n)) with (removelast (c :: repeat c (S n)) ).
        - exact Hp.
        - clear. induction n as [| n IH]; [reflexivity |].
          change (removelast (c :: repeat c (S (S n))))
            with (c :: removelast (c :: repeat c (S n))).
          rewrite IH. reflexivity. }
      subst p. split; apply ltb_irrefl.
  - cbn [length repeat]. rewrite shift1_length. cbn [length].
    rewrite repeat_length. reflexivity.
Qed.

End Oscillators.

(** ** strategy.py: more on [compute_signal] *)

Section ComputeSignalMore.
Local Open Scope float_scope.

(** X16.  The entry decision in closed form: an evaluation on a closed bar
    returns [long_condition] true exactly when there is no panic on the bar
    and accumulation is confirmed or a signal was pending; it leaves the
    pending flag set exactly when there is panic on the bar and
    accumulation is confirmed or a signal was pending; the returned
    [pending_signal] is that flag. *)
Theorem X16_entry_closed_form :
  forall (df : DataFrame) (state : StrategyState),
    df <> [] ->
    let acc := mf_is_confirmed_accumulation (fst (_market_flow df state)) in
    let panic := tr_is_vix_spike (_trend_rider df) in
    exists d,
      fst (compute_signal df state) = Ok d
      /\ sig_long_condition d = (acc || pending_signal state) && negb panic
      /\ pending_signal (snd (compute_signal df state))
         = panic && (acc || pending_signal state)
      /\ sig_pending_signal d = pending_signal (snd (compute_signal df state)).
Proof.
  intros df state Hne acc panic.
  destruct (compute_signal_returns df state Hne) as (d & Hd & Hl & Hp & _).
  pose proof (entry_of_flags df state) as (F1 & F2 & F3 & F4 & F5).
  pose proof (pending_after df state Hne) as Hpa. cbv zeta in Hpa.
  exists d. split; [exact Hd |]. split; [| split].
  - rewrite Hl, F5, F3, F4, F1, F2. fold acc panic.
    destruct acc, panic, (pending_signal state); reflexivity.
  - rewrite Hpa, F1, F2. reflexivity.
  - exact Hp.
Qed.

Lemma X16_entry_closed_form_witness :
  exists d,
    fst (compute_signal (recovering 62 2) holding) = Ok d
    /\ sig_long_condition d = true
    /\ pending_signal (snd (compute_signal (recovering 62 2) holding)) = false
    /\ sig_pending_signal d
       = pending_signal (snd (compute_signal (recovering 62 2) holding)).
Proof.
  apply (X16_entry_closed_form (recovering 62 2) holding). discriminate.
Defined.

(** X17.  Confirmation takes two consecutive bars: accumulation is
    confirmed on a bar exactly when the bar's composite value exceeds 0.1
    and the streak before the bar was at least 1; so it is never confirmed
    on the bar that follows a bar whose composite value did not exceed
    0.1. *)
Theorem X17_two_bar_confirmation :
  forall (prev df : DataFrame) (state : StrategyState),
    prev <> [] -> df <> [] ->
    accumulation_signal (entry_of df state)
    = (0.1 <? mf_chips_value (fst (_market_flow df state)))
      && (1 <=? accumulation_streak state)%Z
    /\ ((0.1 <? mf_chips_value (fst (_market_flow prev state))) = false ->
        accumulation_signal (entry_of df (snd (compute_signal prev state)))
        = false).
Proof.
  intros prev df state Hprev Hne.
  assert (Hacc : forall st,
             accumulation_signal (entry_of df st)
             = (0.1 <? mf_chips_value (fst (_market_flow df st)))
               && (1 <=? accumulation_streak st)%Z).
  { intros st.
    pose proof (entry_of_flags df st) as (_ & F2 & _).
    pose proof (_market_flow_streak df st Hne) as Hs. cbv zeta in Hs.
    rewrite F2.
    assert (E : mf_is_confirmed_accumulation (fst (_market_flow df st))
                = (2 <=? accumulation_streak (snd (_market_flow df st)))%Z)
      by reflexivity.
    rewrite E, Hs.
    destruct (0.1 <? mf_chips_value (fst (_market_flow df st))); cbn [andb].
    - destruct (Z.leb_spec 2 (accumulation_streak st + 1));
        destruct (Z.leb_spec 1 (accumulation_streak st)); try reflexivity; lia.
    - reflexivity. }
  split; [apply Hacc |].
  intros Hraw. rewrite Hacc.
  destruct (compute_signal_returns prev state Hprev)
    as (d & _ & _ & _ & _ & Hst & _).
  rewrite Hst. pose proof (_market_flow_streak prev state Hprev) as Hs.
  cbv zeta in Hs. rewrite Hs, Hraw. apply andb_false_r.
Qed.

Lemma X17_two_bar_confirmation_witness :
  accumulation_signal
    (entry_of (falling 61) (snd (compute_signal (flat 3) StrategyState_default)))
  = false.
Proof.
  refine (proj2 (X17_two_bar_confirmation (flat 3) (falling 61)
                   StrategyState_default _ _) _).
  - discriminate.
  - discriminate.
  - vm_compute. reflexivity.
Defined.

(** X18.  On an empty frame [compute_signal] raises [IndexError] and leaves
    the state as it was. *)
Theorem X18_compute_signal_empty_frame :
  forall (state : StrategyState),
    compute_signal [] state = (Raise IndexError, state).
Proof. intros state. reflexivity. Qed.

(** X19.  [bars_since] counts positions in the frame, not bars in time:
    after an evaluation whose entry fired on a frame of [n] bars, the next
    evaluation returns [bars_since = 0] when its own entry fires and
    [max(0, len(df) - n)] otherwise; so for frames of constant length it is
    always 0. *)
Theorem X19_bars_since_counts_frame_positions :
  forall (fired df : DataFrame) (state : StrategyState) (d0 : SignalDict),
    fired <> [] -> df <> [] ->
    fst (compute_signal fired state) = Ok d0 ->
    sig_long_condition d0 = true ->
    exists d,
      fst (compute_signal df (snd (compute_signal fired state))) = Ok d
      /\ sig_bars_since d
         = (if sig_long_condition d then 0
            else Z.max 0 (Z.of_nat (length df) - Z.of_nat (length fired)))%Z
      /\ ((length df <= length fired)%nat -> sig_bars_since d = 0%Z).
Proof.
  intros fired df state d0 Hfired Hne Hd0 Hl0.
  destruct (compute_signal_returns fired state Hfired)
    as (d0' & Hd0' & Hl0' & _ & _ & _ & Hidx0 & _).
  rewrite Hd0 in Hd0'. inversion Hd0'; subst d0'.
  rewrite <- Hl0', Hl0 in Hidx0.
  set (s1 := snd (compute_signal fired state)) in *.
  destruct (compute_signal_returns df s1 Hne)
    as (d & Hd & Hl & _ & _ & _ & Hidx & Hbs).
  exists d. split; [exact Hd |].
  rewrite <- Hl in Hidx. rewrite Hbs, Hidx, Hidx0.
  destruct (sig_long_condition d); split; intros; lia.
Qed.

Lemma X19_bars_since_counts_frame_positions_witness :
  exists d,
    fst (compute_signal (recovering 62 2)
           (snd (compute_signal (recovering 62 2) holding))) = Ok d
    /\ sig_bars_since d
       = (if sig_long_condition d then 0
          else Z.max 0 (Z.of_nat (length (recovering 62 2))
                        - Z.of_nat (length (recovering 62 2))))%Z
    /\ ((length (recovering 62 2) <= length (recovering 62 2))%nat ->
        sig_bars_since d = 0%Z).
Proof.
  refine (X19_bars_since_counts_frame_positions
            (recovering 62 2) (recovering 62 2) holding
            {| sig_long_condition := true; sig_tp_target := _;
               sig_sl_price := _; sig_chips_value := _; sig_bars_since := _;
               sig_pending_signal := _ |} _ _ _ _);
    try discriminate; vm_compute; reflexivity.
Defined.

End ComputeSignalMore.

(** ** strategy.py: short frames and the price channel's last bar *)

Section NanFacts.
Local Open Scope float_scope.

Lemma add_nan_l (x : float) : nan + x = nan.
Proof.
  apply Prim2SF_inj. rewrite FloatAxioms.add_spec.
  change (Prim2SF nan) with S754_nan. reflexivity.
Qed.

Lemma leb_nan_l (x : float) : (nan <=? x) = false.
Proof.
  rewrite FloatAxioms.leb_spec. change (Prim2SF nan) with S754_nan. reflexivity.
Qed.

Lemma eqb_nan_l (x : float) : (nan =? x) = false.
Proof.
  rewrite FloatAxioms.eqb_spec. change (Prim2SF nan) with S754_nan. reflexivity.
Qed.

Lemma eqb_nan_r (x : float) : (x =? nan) = false.
Proof.
  rewrite FloatAxioms.eqb_spec. change (Prim2SF nan) with S754_nan.
  destruct (Prim2SF x); reflexivity.
Qed.

Lemma fmin_nan_l (x : float) : fmin nan x = nan.
Proof. unfold fmin. rewrite ltb_nan_r. reflexivity. Qed.

End NanFacts.

Section ForallFacts.

Lemma Forall_zip_with_l {A B C : Type} (P : A -> Prop) (Q : C -> Prop)
      (f : A -> B -> C) (s : list A) (t : list B) :
  (forall x y, P x -> Q (f x y)) -> Forall P s -> Forall Q (zip_with f s t).
Proof.
  intros Hf H. revert t. induction H as [| x s Hx _ IH]; intros [| y t]; simpl;
    constructor; auto.
Qed.

Lemma Forall_zip_with_r {A B C : Type} (P : B -> Prop) (Q : C -> Prop)
      (f : A -> B -> C) (s : list A) (t : list B) :
  (forall x y, P y -> Q (f x y)) -> Forall P t -> Forall Q (zip_with f s t).
Proof.
  intros Hf H. revert s. induction H as [| y t Hy _ IH]; intros [| x s]; simpl;
    constructor; auto.
Qed.

Lemma Forall_zip_with_both {A B C : Type} (P : A -> Prop) (P' : B -> Prop)
      (Q : C -> Prop) (f : A -> B -> C) (s : list A) (t : list B) :
  (forall x y, P x -> P' y -> Q (f x y)) ->
  Forall P s -> Forall P' t -> Forall Q (zip_with f s t).
Proof.
  intros Hf H. revert t. induction H as [| x s Hx _ IH]; intros t Ht;
    destruct Ht as [| y t Hy Ht]; simpl; constructor; auto.
Qed.

Lemma last_Forall {A : Type} (P : A -> Prop) (l : list A) (d : A) :
  Forall P l -> P d -> P (last l d).
Proof.
  intros H Hd. induction H as [| x l Hx Hl IH]; [exact Hd |].
  destruct l; [exact Hx | exact IH].
Qed.

Lemma iat_last_nth {A : Type} (s : list A) (x : A) :
  iat_last s = Ok x -> nth_error s (length s - 1) = Some x.
Proof.
  unfold iat_last. destruct (rev s) as [| y r] eqn:E; [discriminate |].
  intros [= ->]. apply (f_equal (@rev A)) in E. rewrite rev_involutive in E.
  subst s. simpl. rewrite length_app, nth_error_app2; simpl;
    [| lia].
  replace (length (rev r) + 1 - 1 - length (rev r))%nat with 0%nat by lia.
  reflexivity.
Qed.

Lemma set_iat_spec {A : Type} (s s' : list A) (i : nat) (v : A) :
  set_iat s i v = Ok s' ->
  length s' = length s /\ nth_error s' i = Some v
  /\ forall j, j <> i -> nth_error s' j = nth_error s j.
Proof.
  revert s' i. induction s as [| x s IH]; intros s' i H; [discriminate |].
  destruct i as [| i]; simpl in H.
  - inversion H; subst. repeat split. intros [| j] Hj; [lia | reflexivity].
  - destruct (set_iat s i v) as [t |] eqn:E; [| discriminate].
    simpl in H. inversion H; subst.
    destruct (IH t i E) as (L & N & O). repeat split; simpl; auto.
    intros [| j] Hj; [reflexivity |]. apply O. lia.
Qed.

End ForallFacts.

Section ChannelLastBar.
Local Open Scope float_scope.

(** What one pass of the channel loop writes into [upper] at its bar. *)
Lemma channel_body_upper (hst lst h_change l_change : Series)
      (new_high new_low : list bool) (st st' : channel_locals) (i : nat) :
  channel_body hst lst h_change l_change new_high new_low st i = Ok st' ->
  length (upper st') = length (upper st)
  /\ exists nh h u,
      nth_error new_high i = Some nh
      /\ nth_error hst i = Some h
      /\ nth_error (upper st') i = Some u
      /\ (nh = true -> u = h)
      /\ (nh = false -> i = 0%nat -> u = h)
      /\ (nh = false -> (0 < i)%nat ->
          exists prev h_prev c,
            nth_error hst (i - 1) = Some h_prev
            /\ u = if h =? h_prev then prev + nan_to_zero c
                   else fmin h (prev + nan_to_zero c)).
Proof.
  unfold channel_body. intros H.
  destruct (iat new_high i) as [nh |] eqn:Enh; cbn [bind] in H; [| discriminate].
  apply iat_Ok_nth in Enh.
  destruct nh.
  - destruct (iat hst i) as [h |] eqn:Eh; cbn [bind] in H; [| discriminate].
    apply iat_Ok_nth in Eh.
    destruct (set_iat (upper st) i h) as [up |] eqn:Eu; cbn [bind] in H;
      [| discriminate].
    apply set_iat_spec in Eu. destruct Eu as (Lu & Nu & _).
    destruct (set_iat (dir st) i (Some 1%Z)); cbn [bind] in H; [| discriminate].
    destruct (set_iat (dir2 st) i (Some 1%Z)); cbn [bind] in H; [| discriminate].
    cbn [upper lower dir dir2] in H.
    assert (Hup : upper st' = up).
    { repeat match type of H with
             | context [iat ?s ?j] =>
                 destruct (iat s j); cbn [bind] in H; try discriminate
             | context [set_iat ?s ?j ?x] =>
                 destruct (set_iat s j x); cbn [bind] in H; try discriminate
             | context [if ?b then _ else _] => destruct b
             end; inversion H; reflexivity. }
    rewrite Hup. split; [exact Lu |].
    exists true, h, h.
    split; [exact Enh |]. split; [exact Eh |]. split; [exact Nu |].
    split; [reflexivity |]. split; discriminate.
  - destruct (Nat.ltb_spec 0 i) as [Hi | Hi].
    + destruct (iat (upper st) (i - 1)) as [prev |] eqn:Ep; cbn [bind] in H;
        [| discriminate].
      destruct (iat hst i) as [h |] eqn:Eh; cbn [bind] in H; [| discriminate].
      apply iat_Ok_nth in Eh.
      destruct (iat hst (i - 1)) as [hp |] eqn:Ehp; cbn [bind] in H;
        [| discriminate].
      apply iat_Ok_nth in Ehp.
      destruct (iat h_change i) as [c |] eqn:Ec; cbn [bind] in H;
        [| discriminate].
      match type of H with
      | context [set_iat (upper st) i ?v] =>
          destruct (set_iat (upper st) i v) as [up |] eqn:Eu; cbn [bind] in H;
          [| discriminate]
      end.
      apply set_iat_spec in Eu. destruct Eu as (Lu & Nu & _).
      assert (Hup : upper st' = up).
      { repeat match type of H with
               | context [iat ?s ?j] =>
                   destruct (iat s j); cbn [bind upper lower dir dir2] in H;
                   try discriminate
               | context [set_iat ?s ?j ?x] =>
                   destruct (set_iat s j x); cbn [bind upper lower dir dir2] in H;
                   try discriminate
               | context [if ?b then _ else _] => destruct b
               end; inversion H; reflexivity. }
      rewrite Hup. split; [exact Lu |].
      exists false, h. eexists.
      split; [exact Enh |]. split; [exact Eh |]. split; [exact Nu |].
      split; [discriminate |]. split; [intros _ Hi0; lia |].
      intros _ _. exists prev, hp, c. split; [exact Ehp | reflexivity].
    + destruct (iat hst i) as [h |] eqn:Eh; cbn [bind] in H; [| discriminate].
      apply iat_Ok_nth in Eh.
      destruct (set_iat (upper st) i h) as [up |] eqn:Eu; cbn [bind] in H;
        [| discriminate].
      apply set_iat_spec in Eu. destruct Eu as (Lu & Nu & _).
      assert (Hup : upper st' = up).
      { repeat match type of H with
               | context [iat ?s ?j] =>
                   destruct (iat s j); cbn [bind upper lower dir dir2] in H;
                   try discriminate
               | context [set_iat ?s ?j ?x] =>
                   destruct (set_iat s j x); cbn [bind upper lower dir dir2] in H;
                   try discriminate
               | context [if ?b then _ else _] => destruct b
               end; inversion H; reflexivity. }
      rewrite Hup. split; [exact Lu |].
      exists false, h, h.
      split; [exact Enh |]. split; [exact Eh |]. split; [exact Nu |].
      split; [discriminate |]. split; [reflexivity |]. intros _ Hi'. lia.
Qed.

(** What [_vwap_price_channel] returns as [upper] is what the last pass of
    its loop wrote at the last bar. *)
Lemma channel_last_pass (df : DataFrame) (length_ : nat) (ch : Channel) :
  _vwap_price_channel df length_ = Ok ch ->
  exists h_change l_change st st',
    channel_body (highest (col high df) length_) (lowest (col low df) length_)
                 h_change l_change
                 (zip_with PrimFloat.eqb (col high df)
                           (highest (col high df) length_))
                 (zip_with PrimFloat.eqb (col low df)
                           (lowest (col low df) length_))
                 st (length df - 1) = Ok st'
    /\ length (upper st) = length df
    /\ nth_error (upper st') (length df - 1) = Some (ch_upper ch)
    /\ nth_error (highest (col high df) length_) (length df - 1)
       = Some (ch_hst ch).
Proof.
  intros H.
  destruct df as [| c0 df0] eqn:Edf; [discriminate |]. rewrite <- Edf in *.
  assert (Hne : df <> []) by (rewrite Edf; discriminate).
  assert (Hlen : length df = S (length df0)) by (rewrite Edf; reflexivity).
  unfold _vwap_price_channel in H.
  assert (Lh : length (col high df) = length df) by apply length_map.
  assert (Ll : length (col low df) = length df) by apply length_map.
  assert (Lv : length (col volume df) = length df) by apply length_map.
  assert (Lnh : length (zip_with PrimFloat.eqb (col high df)
                                 (highest (col high df) length_))
                = length (col high df)).
  { unfold highest. rewrite zip_with_length, rolling_length. lia. }
  assert (Lnl : length (zip_with PrimFloat.eqb (col low df)
                                 (lowest (col low df) length_))
                = length (col low df)).
  { unfold lowest. rewrite zip_with_length, rolling_length. lia. }
  destruct (anchored_vwap_ok (col high df) (col volume df) _
              (eq_trans Lv (eq_sym Lh)) Lnh) as (hv & Ehv & Lhv).
  destruct (anchored_vwap_ok (col low df) (col volume df) _
              (eq_trans Lv (eq_sym Ll)) Lnl) as (lv & Elv & Llv).
  cbv zeta in H. rewrite Ehv, Elv in H. cbn [bind] in H.
  rewrite Hlen in H at 1. rewrite for_range_S in H.
  match type of H with
  | context [for_range ?k ?body ?init] =>
      destruct (for_range_inv body (fun _ => channel_wf (length df)) k init)
        as (st & E & Hwf)
  end.
  { unfold channel_wf. cbn [upper lower dir dir2]. unfold broadcast.
    rewrite !length_map. repeat split; reflexivity. }
  { intros i st Hi Hwf.
    apply channel_body_ok with (n := length df); auto;
      unfold change, highest, lowest;
      rewrite ?diff_length, ?zip_with_length, ?rolling_length; lia. }
  rewrite E in H. cbn [bind] in H.
  match type of H with
  | context [channel_body ?a ?b ?c ?d ?e ?f st ?i] =>
      destruct (channel_body a b c d e f st i) as [st' |] eqn:Eb;
      cbn [bind] in H; [| discriminate]
  end.
  destruct (iat_last (upper st')) as [u |] eqn:Eu; cbn [bind] in H;
    [| discriminate].
  destruct (iat_last (lower st')); cbn [bind] in H; [| discriminate].
  match type of H with
  | context [iat_last (zip_with ?f ?a ?b)] =>
      destruct (iat_last (zip_with f a b)); cbn [bind] in H; [| discriminate]
  end.
  destruct (iat_last (highest (col high df) length_)) as [h |] eqn:Eh;
    cbn [bind] in H; [| discriminate].
  destruct (iat_last (lowest (col low df) length_)); cbn [bind] in H;
    [| discriminate].
  destruct (iat_last (dir st')); cbn [bind] in H; [| discriminate].
  destruct (iat_last (dir2 st')); cbn [bind] in H; [| discriminate].
  inversion H; subst ch; clear H. cbn [ch_upper ch_hst].
  destruct Hwf as (Hu & _).
  destruct (channel_body_upper _ _ _ _ _ _ _ _ _ Eb) as (Lu & _).
  apply iat_last_nth in Eu. apply iat_last_nth in Eh.
  rewrite Lu, Hu in Eu. unfold highest in Eh. rewrite rolling_length in Eh.
  unfold col in Eh at 2. rewrite length_map in Eh.
  do 4 eexists. split; [| split; [exact Hu | split; [exact Eu | exact Eh]]].
  replace (length df - 1)%nat with (length df0) by lia. exact Eb.
Qed.

End ChannelLastBar.

Section ShortFrames.
Local Open Scope float_scope.

(** The two price levels [compute_signal] returns. *)
Lemma compute_signal_levels (df : DataFrame) (state : StrategyState) :
  df <> [] ->
  exists d ch,
    fst (compute_signal df state) = Ok d
    /\ _vwap_price_channel df 20 = Ok ch
    /\ sig_tp_target d = ch_upper ch
    /\ sig_sl_price d
       = last (zip_with sub (col close df)
                        (map (fun a => a * 1.5) (atr df 14))) nan.
Proof.
  intros Hne. destruct (_vwap_price_channel_ok df 20 Hne) as [ch Ech].
  unfold compute_signal. rewrite Ech.
  destruct (_market_flow df state) as [mf s1].
  destruct (resolve_entry _ _ s1) as [entry s2].
  eexists. exists ch. cbn [fst]. repeat split; reflexivity.
Qed.

Lemma is_vix_spike_short (df : DataFrame) :
  (length df < 20)%nat -> Forall (fun b => b = false) (is_vix_spike_series df).
Proof.
  intros H. unfold is_vix_spike_series. cbv zeta.
  set (wvf := where_ _ _ _).
  assert (Lw : (length wvf < 20)%nat).
  { unfold wvf, broadcast. rewrite where_length, length_map. lia. }
  apply Forall_zip_with_both
    with (P := fun b => b = false) (P' := fun b => b = false).
  - intros x y -> ->. reflexivity.
  - apply Forall_zip_with_r with (P := fun u => u = nan);
      [intros x y ->; apply leb_nan_l |].
    apply Forall_zip_with_l with (P := fun m => m = nan);
      [intros x y ->; apply add_nan_l |].
    unfold sma. apply rolling_short. exact Lw.
  - apply Forall_zip_with_r with (P := fun r => r = nan);
      [intros x y ->; apply leb_nan_l |].
    apply Forall_map. eapply Forall_impl; [| apply rolling_short; lia].
    intros h ->. reflexivity.
Qed.

Lemma is_vix_spike_short' (df : DataFrame) :
  (length df < 20)%nat -> tr_is_vix_spike (_trend_rider df) = false.
Proof.
  intros H. unfold _trend_rider. cbn [tr_is_vix_spike].
  destruct df as [| c df']; [reflexivity |].
  apply (last_Forall (fun b => b = false)); [| reflexivity].
  apply is_vix_spike_short. exact H.
Qed.

(** X20.  With fewer than 20 bars there is never panic: the evaluation
    defers nothing, leaves no signal pending, and its entry fires exactly
    when accumulation is confirmed or a signal was pending. *)
Theorem X20_short_frame_never_defers :
  forall (df : DataFrame) (state : StrategyState),
    df <> [] ->
    (length df < 20)%nat ->
    tr_is_vix_spike (_trend_rider df) = false
    /\ exists d,
        fst (compute_signal df state) = Ok d
        /\ sig_long_condition d
           = mf_is_confirmed_accumulation (fst (_market_flow df state))
             || pending_signal state
        /\ sig_pending_signal d = false
        /\ pending_signal (snd (compute_signal df state)) = false.
Proof.
  intros df state Hne Hlen.
  pose proof (is_vix_spike_short' df Hlen) as Hp. split; [exact Hp |].
  destruct (compute_signal_returns df state Hne) as (d & Hd & Hl & Hps & _).
  pose proof (entry_of_flags df state) as (F1 & F2 & F3 & F4 & F5).
  pose proof (pending_after df state Hne) as Hpa. cbv zeta in Hpa.
  rewrite F1, Hp in Hpa. cbn [andb] in Hpa.
  exists d. split; [exact Hd |]. split; [| split].
  - rewrite Hl, F5, F3, F4, F1, F2, Hp. cbn [negb]. rewrite !andb_true_r.
    reflexivity.
  - rewrite Hps. exact Hpa.
  - exact Hpa.
Qed.

Lemma X20_short_frame_never_defers_witness :
  tr_is_vix_spike (_trend_rider (falling 5)) = false.
Proof.
  refine (proj1 (X20_short_frame_never_defers (falling 5) holding _ _)).
  - discriminate.
  - vm_compute. lia.
Defined.

Lemma sl_price_short (df : DataFrame) :
  (length df < 14)%nat ->
  last (zip_with sub (col close df) (map (fun a => a * 1.5) (atr df 14))) nan
  = nan.
Proof.
  intros H. apply (last_Forall (fun x => x = nan)); [| reflexivity].
  apply Forall_zip_with_r with (P := fun a => a = nan);
    [intros x y ->; apply sub_nan_r |].
  apply Forall_map. eapply Forall_impl; [| apply atr_short; exact H].
  intros a ->. reflexivity.
Qed.

Lemma highest_short_nth (s : Series) (n i : nat) :
  (length s < n)%nat -> (i < length s)%nat ->
  nth_error (highest s n) i = Some nan.
Proof.
  intros H Hi. unfold highest.
  pose proof (rolling_short n max_of s H) as Hall.
  destruct (nth_error (rolling n max_of s) i) as [x |] eqn:E.
  - rewrite Forall_forall in Hall. rewrite (Hall x); [reflexivity |].
    eapply nth_error_In; eauto.
  - apply nth_error_None in E. rewrite rolling_length in E. lia.
Qed.

(** X21.  The levels returned for a short frame are NaN: the target
    [tp_target] with fewer than 20 bars, the stop [sl_price] with fewer
    than 14. *)
Theorem X21_short_frame_levels :
  forall (df : DataFrame) (state : StrategyState),
    df <> [] ->
    (length df < 20)%nat ->
    exists d,
      fst (compute_signal df state) = Ok d
      /\ sig_tp_target d = nan
      /\ ((length df < 14)%nat -> sig_sl_price d = nan).
Proof.
  intros df state Hne Hlen.
  destruct (compute_signal_levels df state Hne) as (d & ch & Hd & Hch & Htp & Hsl).
  exists d. split; [exact Hd |]. split.
  - rewrite Htp.
    destruct (channel_last_pass df 20 ch Hch)
      as (hc & lc & st & st' & Eb & Lu & Hu & Hh).
    destruct (channel_body_upper _ _ _ _ _ _ _ _ _ Eb)
      as (_ & nh & h & u & Hnh & Hh' & Hu' & Htrue & Hzero & Hpos).
    assert (Hpos' : (0 < length df)%nat)
      by (destruct df; [contradiction | simpl; lia]).
    assert (Lcol : length (col high df) = length df) by apply length_map.
    rewrite highest_short_nth in Hh' by lia. inversion Hh'; subst h.
    rewrite Hu in Hu'. inversion Hu'; subst u.
    assert (Enh : nh = false).
    { destruct (nth_error (col high df) (length df - 1)) as [x |] eqn:Ex;
        [| apply nth_error_None in Ex; lia].
      rewrite (zip_with_nth _ _ _ _ x nan Ex) in Hnh
        by (apply highest_short_nth; lia).
      rewrite eqb_nan_r in Hnh. congruence. }
    destruct (Nat.eq_dec (length df - 1) 0) as [E0 | E0].
    + apply Hzero; assumption.
    + destruct (Hpos Enh) as (prev & hp & c & _ & ->); [lia |].
      rewrite eqb_nan_l. apply fmin_nan_l.
  - intros H14. rewrite Hsl. apply sl_price_short. exact H14.
Qed.

Lemma X21_short_frame_levels_witness :
  exists d,
    fst (compute_signal (falling 5) holding) = Ok d
    /\ sig_tp_target d = nan
    /\ ((length (falling 5) < 14)%nat -> sig_sl_price d = nan).
Proof.
  apply (X21_short_frame_levels (falling 5) holding).
  - discriminate.
  - vm_compute. lia.
Defined.

(** X22.  When the last bar's high equals the highest high of the last 20
    bars, the returned target [tp_target] is that highest high. *)
Theorem X22_new_high_sets_target :
  forall (df : DataFrame) (state : StrategyState) (x h : float),
    nth_error (col high df) (length df - 1) = Some x ->
    nth_error (highest (col high df) 20) (length df - 1) = Some h ->
    (x =? h) = true ->
    exists d,
      fst (compute_signal df state) = Ok d /\ sig_tp_target d = h.
Proof.
  intros df state x h Hx Hh Hnew.
  assert (Hne : df <> []) by (intros ->; discriminate).
  destruct (compute_signal_levels df state Hne) as (d & ch & Hd & Hch & Htp & _).
  exists d. split; [exact Hd |]. rewrite Htp.
  destruct (channel_last_pass df 20 ch Hch)
    as (hc & lc & st & st' & Eb & Lu & Hu & _).
  destruct (channel_body_upper _ _ _ _ _ _ _ _ _ Eb)
    as (_ & nh & h' & u & Hnh & Hh' & Hu' & Htrue & _).
  rewrite (zip_with_nth _ _ _ _ x h Hx Hh), Hnew in Hnh.
  inversion Hnh; subst nh. rewrite Hh in Hh'. inversion Hh'; subst h'.
  rewrite Hu in Hu'. inversion Hu'; subst u. apply Htrue. reflexivity.
Qed.

Lemma X22_new_high_sets_target_witness :
  exists d,
    fst (compute_signal (recovering 10 30) holding) = Ok d
    /\ sig_tp_target d = 221.
Proof.
  apply (X22_new_high_sets_target (recovering 10 30) holding 221 221);
    vm_compute; reflexivity.
Defined.

End ShortFrames.

(** ** scanner.py: the pairs of a scan *)

Section Pairs.
Local Open Scope string_scope.

Lemma mem_In (s : string) (l : list string) : mem s l = true <-> In s l.
Proof.
  unfold mem. rewrite existsb_exists. split.
  - intros (x & Hx & E). apply String.eqb_eq in E. subst. exact Hx.
  - intros H. exists s. split; [exact H | apply String.eqb_refl].
Qed.

Lemma flat_map_length_const {A B : Type} (f : A -> list B) (l : list A) (k : nat) :
  (forall x, length (f x) = k) -> length (flat_map f l) = (length l * k)%nat.
Proof.
  intros H. induction l as [| x l IH]; [reflexivity |].
  simpl. rewrite length_app, H, IH. lia.
Qed.

Lemma pairs_of_length (exchange_type sym tf : string) :
  length (pairs_of exchange_type sym tf)
  = if mem exchange_type ["both"; "futures"] then 2%nat else 1%nat.
Proof. unfold pairs_of. destruct (mem _ _); reflexivity. Qed.

Lemma pairs_loaded (config : Config) :
  pairs (_load_markets (__init__ config))
  = flat_map (fun sym =>
                flat_map (fun tf => pairs_of (exchange_type (__init__ config)) sym tf)
                         (timeframes (__init__ config)))
             (whitelist (__init__ config)).
Proof. reflexivity. Qed.

Lemma In_pairs (config : Config) (p : PairState) :
  In p (pairs (_load_markets (__init__ config))) <->
  exists sym tf,
    In sym (whitelist (__init__ config))
    /\ In tf (timeframes (__init__ config))
    /\ In p (pairs_of (exchange_type (__init__ config)) sym tf).
Proof.
  rewrite pairs_loaded, in_flat_map. split.
  - intros (sym & Hs & Hp). apply in_flat_map in Hp.
    destruct Hp as (tf & Ht & Hp). eauto.
  - intros (sym & tf & Hs & Ht & Hp). exists sym. split; [exact Hs |].
    apply in_flat_map. eauto.
Qed.

(** X23.  The scan has one pair per whitelisted symbol that is not
    blacklisted, per timeframe and per market type scanned; no pair has a
    blacklisted symbol, and every such symbol and timeframe has its spot
    pair. *)
Theorem X23_pairs_of_a_scan :
  forall (config : Config),
    let self := _load_markets (__init__ config) in
    let wl := get_in (cfg_symbols config) sym_whitelist [] in
    let bl := get_in (cfg_symbols config) sym_blacklist [] in
    length (pairs self)
    = (length (filter (fun s => negb (mem s bl)) wl)
       * (length (timeframes self)
          * (if mem (exchange_type self) ["both"; "futures"] then 2 else 1)))%nat
    /\ (forall p, In p (pairs self) ->
                  In (symbol p) wl /\ ~ In (symbol p) bl
                  /\ In (timeframe p) (timeframes self))
    /\ (forall sym tf,
           In sym wl -> ~ In sym bl -> In tf (timeframes self) ->
           In (new_pair sym tf "spot") (pairs self)).
Proof.
  intros config self wl bl.
  assert (Hwl : forall s, In s (whitelist (__init__ config))
                          <-> In s wl /\ ~ In s bl).
  { intros s. unfold __init__. cbn [whitelist]. fold wl bl.
    rewrite filter_In. rewrite negb_true_iff, <- not_true_iff_false, mem_In.
    tauto. }
  split; [| split].
  - unfold self. rewrite pairs_loaded.
    rewrite (flat_map_length_const _ _
               (length (timeframes (__init__ config))
                * (if mem (exchange_type (__init__ config)) ["both"; "futures"]
                   then 2 else 1))%nat).
    + reflexivity.
    + intros sym. apply flat_map_length_const. intros tf.
      apply pairs_of_length.
  - intros p Hp. apply (In_pairs config) in Hp.
    destruct Hp as (sym & tf & Hs & Ht & Hp).
    assert (Hid : symbol p = sym /\ timeframe p = tf).
    { unfold pairs_of in Hp. destruct Hp as [<- | Hp]; [split; reflexivity |].
      destruct (mem _ _); [| contradiction].
      destruct Hp as [<- | []]; split; reflexivity. }
    destruct Hid as [-> ->]. apply Hwl in Hs. tauto.
  - intros sym tf Hs Hb Ht. apply (In_pairs config).
    exists sym, tf. split; [apply Hwl; tauto |]. split; [exact Ht |].
    left. reflexivity.
Qed.

(** X24.  Every pair is a spot or a futures pair; a futures pair exists
    only when the exchange type is [both] or [futures], and then always
    beside the spot pair of the same symbol and timeframe: spot is scanned
    whatever the exchange type. *)
Theorem X24_market_types_of_a_scan :
  forall (config : Config) (p : PairState),
    let self := _load_markets (__init__ config) in
    In p (pairs self) ->
    In (new_pair (symbol p) (timeframe p) "spot") (pairs self)
    /\ (market_type p = "spot"
        \/ (market_type p = "futures"
            /\ (exchange_type self = "both" \/ exchange_type self = "futures"))).
Proof.
  intros config p self Hp. apply (In_pairs config) in Hp.
  destruct Hp as (sym & tf & Hs & Ht & Hp).
  unfold pairs_of in Hp. destruct Hp as [<- | Hp].
  - split; [| left; reflexivity].
    apply (In_pairs config). exists sym, tf. repeat split; auto.
    left. reflexivity.
  - destruct (mem (exchange_type (__init__ config)) ["both"; "futures"]) eqn:E;
      [| contradiction].
    destruct Hp as [<- | []]. split.
    + apply (In_pairs config). exists sym, tf. repeat split; auto.
      left. reflexivity.
    + right. split; [reflexivity |].
      apply mem_In in E. destruct E as [E | [E | []]]; auto.
Qed.

Lemma X24_market_types_of_a_scan_witness :
  In (new_pair "ETH/USDT" "1h" "spot")
     (pairs (_load_markets
               (__init__ {| cfg_exchange :=
                              Some {| ex_name := None; ex_type := Some "futures";
                                      ex_use_ccxt_pro := None;
                                      ex_api_key := None; ex_secret := None |};
                            cfg_timeframes := Some ["1h"];
                            cfg_symbols :=
                              Some {| sym_whitelist := Some ["ETH/USDT"];
                                      sym_blacklist := None |} |}))).
Proof.
  refine (proj1 (X24_market_types_of_a_scan _ (new_pair "ETH/USDT" "1h" "futures") _)).
  vm_compute. auto.
Defined.

Lemma NoDup_flat_map {A B : Type} (f : A -> list B) (l : list A) :
  NoDup l -> (forall x, In x l -> NoDup (f x)) ->
  (forall x y z, In x l -> In y l -> In z (f x) -> In z (f y) -> x = y) ->
  NoDup (flat_map f l).
Proof.
  intros Hl Hf Hinj. induction Hl as [| x l Hx Hl IH]; [constructor |].
  simpl. apply NoDup_app.
  - apply Hf. left. reflexivity.
  - apply IH.
    + intros y Hy. apply Hf. right. exact Hy.
    + intros a b z Ha Hb. apply Hinj; right; assumption.
  - intros z Hz Hz'. apply in_flat_map in Hz'. destruct Hz' as (y & Hy & Hzy).
    assert (x = y) by (apply (Hinj x y z); auto; [left; reflexivity | right; exact Hy]).
    subst y. contradiction.
Qed.

(** X25.  When the whitelist and the timeframes of the configuration hold
    no duplicates, no two pairs of the scan are the same
    (symbol, timeframe, market type). *)
Theorem X25_pairs_distinct :
  forall (config : Config),
    NoDup (get_in (cfg_symbols config) sym_whitelist []) ->
    NoDup (timeframes (__init__ config)) ->
    NoDup (map (fun p => (symbol p, timeframe p, market_type p))
               (pairs (_load_markets (__init__ config)))).
Proof.
  intros config Hwl Htf.
  rewrite pairs_loaded. rewrite flat_map_concat_map, concat_map, map_map.
  rewrite <- flat_map_concat_map.
  apply NoDup_flat_map.
  - unfold __init__. cbn [whitelist]. apply NoDup_filter. exact Hwl.
  - intros sym _. rewrite flat_map_concat_map, concat_map, map_map.
    rewrite <- flat_map_concat_map. apply NoDup_flat_map.
    + exact Htf.
    + intros tf _. unfold pairs_of. destruct (mem _ _); simpl.
      * constructor; [| constructor; [| constructor]]; simpl; [| tauto].
        intros [H | []]. discriminate.
      * constructor; [| constructor]. simpl. tauto.
    + intros tf tf' z _ _ Hz Hz'. unfold pairs_of in *.
      destruct (mem _ _); simpl in *;
        repeat match goal with
               | H : _ \/ _ |- _ => destruct H
               | H : False |- _ => contradiction
               end; congruence.
  - intros sym sym' z _ _ Hz Hz'.
    rewrite flat_map_concat_map, concat_map, map_map in Hz, Hz'.
    rewrite <- flat_map_concat_map in Hz, Hz'.
    apply in_flat_map in Hz, Hz'.
    destruct Hz as (tf & _ & Hz). destruct Hz' as (tf' & _ & Hz').
    unfold pairs_of in *.
    destruct (mem _ _); simpl in *;
      repeat match goal with
             | H : _ \/ _ |- _ => destruct H
             | H : False |- _ => contradiction
             end; congruence.
Qed.

Lemma X25_pairs_distinct_witness :
  NoDup (map (fun p => (symbol p, timeframe p, market_type p))
             (pairs (_load_markets
                       (__init__ {| cfg_exchange := None;
                                    cfg_timeframes := Some ["1h"; "4h"];
                                    cfg_symbols :=
                                      Some {| sym_whitelist :=
                                                Some ["BTC/USDT"; "ETH/USDT"];
                                              sym_blacklist :=
                                                Some ["ETH/USDT"] |} |})))).
Proof.
  apply X25_pairs_distinct.
  - cbn. repeat constructor; simpl; intuition discriminate.
  - cbn. repeat constructor; simpl; intuition discriminate.
Defined.

End Pairs.

(** ** scanner.py: what a task puts on the queues *)

Section TaskEvents.
Local Open Scope float_scope.

Variable mode : string.

(** A pass on a batch that ends after the last closed candle. *)
Lemma loop_body_new_bar (pair : PairState) (rows : list Candle) (last_ts : Z) :
  iat_last (map timestamp rows) = Ok last_ts ->
  is_new_bar pair last_ts = true ->
  exists d price,
    fst (compute_signal rows (state pair)) = Ok d
    /\ iat_last (col close rows) = Ok price
    /\ let pair' :=
         set_state (set_closed pair last_ts rows)
                   (snd (compute_signal rows (state pair))) in
       loop_body mode pair (Ok rows)
       = (pair',
          status_put (status_dict pair last_ts mode)
          :: (if sig_long_condition d
              then [signal_put (signal_dict pair last_ts price d)] else [])
          ++ [sleep 0],
          None).
Proof.
  intros Hlast Hnew.
  destruct rows as [| c rows]; [discriminate |].
  assert (Hne : c :: rows <> []) by discriminate.
  destruct (compute_signal_returns (c :: rows) (state pair) Hne) as (d & Hd & _).
  destruct (iat_last_ok (col close (c :: rows))) as [price Hprice];
    [discriminate |].
  exists d, price. split; [exact Hd |]. split; [exact Hprice |].
  cbv zeta. unfold loop_body, ohlcv_to_df. rewrite Hlast, Hnew.
  cbn [state set_closed].
  destruct (compute_signal (c :: rows) (state pair)) as [r st].
  cbn [fst snd] in *. subst r. rewrite Hprice.
  destruct (sig_long_condition d); reflexivity.
Qed.

(** X26.  On a batch that ends after the pair's last closed candle, a pass
    always puts one status with the batch's last timestamp, then one signal
    exactly when [long_condition] is true (carrying that timestamp and the
    last close), and it stores the timestamp, the batch and the new
    strategy state in the pair, whose symbol, timeframe and market type
    stay. *)
Theorem X26_new_closed_bar :
  forall (pair : PairState) (rows : list Candle) (last_ts : Z),
    iat_last (map timestamp rows) = Ok last_ts ->
    is_new_bar pair last_ts = true ->
    exists d price pair',
      fst (compute_signal rows (state pair)) = Ok d
      /\ iat_last (col close rows) = Ok price
      /\ loop_body mode pair (Ok rows)
         = (pair',
            status_put (status_dict pair last_ts mode)
            :: (if sig_long_condition d
                then [signal_put (signal_dict pair last_ts price d)] else [])
            ++ [sleep 0],
            None)
      /\ last_closed_ts pair' = Some last_ts
      /\ ohlcv pair' = rows
      /\ state pair' = snd (compute_signal rows (state pair))
      /\ (symbol pair', timeframe pair', market_type pair')
         = (symbol pair, timeframe pair, market_type pair).
Proof.
  intros pair rows last_ts Hlast Hnew.
  destruct (loop_body_new_bar pair rows last_ts Hlast Hnew)
    as (d & price & Hd & Hp & Hbody).
  exists d, price. eexists. split; [exact Hd |]. split; [exact Hp |].
  split; [exact Hbody |]. repeat split.
Qed.

(** The three shapes of a pass whose transport call returned. *)
Lemma loop_body_returned (pair : PairState) (rows : list Candle) :
  (loop_body mode pair (Ok rows) = (pair, [sleep 0.1], None) /\ rows = [])
  \/ (loop_body mode pair (Ok rows) = (pair, [sleep 0], None)
      /\ exists last_ts, iat_last (map timestamp rows) = Ok last_ts
                         /\ is_new_bar pair last_ts = false)
  \/ exists last_ts d price,
      iat_last (map timestamp rows) = Ok last_ts
      /\ is_new_bar pair last_ts = true
      /\ loop_body mode pair (Ok rows)
         = (set_state (set_closed pair last_ts rows)
                      (snd (compute_signal rows (state pair))),
            status_put (status_dict pair last_ts mode)
            :: (if sig_long_condition d
                then [signal_put (signal_dict pair last_ts price d)] else [])
            ++ [sleep 0],
            None).
Proof.
  destruct rows as [| c rows]; [left; split; reflexivity |].
  destruct (iat_last_ok (map timestamp (c :: rows))) as [last_ts Hlast];
    [discriminate |].
  destruct (is_new_bar pair last_ts) eqn:Hnew.
  - right. right.
    destruct (loop_body_new_bar pair (c :: rows) last_ts Hlast Hnew)
      as (d & price & _ & _ & Hbody).
    exists last_ts, d, price. auto.
  - right. left. split; [| eauto].
    unfold loop_body, ohlcv_to_df. rewrite Hlast, Hnew. reflexivity.
Qed.

(** X27.  A task whose transport calls all return never returns itself and
    never puts an error status: only an exception of the transport ends
    it. *)
Theorem X27_task_runs_while_transport_returns :
  forall (pair : PairState) (batches : list (list Candle)),
    let '(_, events, status) :=
      _watch_pair mode pair (map Ok batches) in
    status = Awaiting /\ Forall (fun ev => is_error_status ev = false) events.
Proof.
  intros pair batches. revert pair.
  induction batches as [| rows batches IH]; intros pair; cbn [map _watch_pair].
  - split; [reflexivity | constructor].
  - assert (H : exists pair1 events1,
               loop_body mode pair (Ok rows) = (pair1, events1, None)
               /\ Forall (fun ev => is_error_status ev = false) events1).
    { destruct (loop_body_returned pair rows)
        as [[-> _] | [[-> _] | (ts & d & price & _ & _ & ->)]].
      - do 2 eexists. split; [reflexivity |]. repeat constructor.
      - do 2 eexists. split; [reflexivity |]. repeat constructor.
      - do 2 eexists. split; [reflexivity |].
        destruct (sig_long_condition d); repeat constructor. }
    destruct H as (pair1 & events1 & -> & H1).
    specialize (IH pair1).
    destruct (_watch_pair mode pair1 (map Ok batches)) as [[pair2 events2] st].
    destruct IH as [-> H2]. split; [reflexivity |].
    apply Forall_app. split; assumption.
Qed.

Lemma status_times_app (xs ys : list event) :
  status_times (xs ++ ys) = status_times xs ++ status_times ys.
Proof. unfold status_times. apply flat_map_app. Qed.

Lemma signal_times_app (xs ys : list event) :
  signal_times (xs ++ ys) = signal_times xs ++ signal_times ys.
Proof. unfold signal_times. apply flat_map_app. Qed.

(** The timestamps one pass puts, and where it leaves [last_closed_ts]. *)
Lemma loop_body_times (pair : PairState) (fetched : result (list Candle)) :
  let '(pair', events, _) := loop_body mode pair fetched in
  (status_times events = [] /\ signal_times events = []
   /\ last_closed_ts pair' = last_closed_ts pair)
  \/ exists last_ts,
      after_closed (last_closed_ts pair) last_ts
      /\ last_closed_ts pair' = Some last_ts
      /\ status_times events = [last_ts]
      /\ (signal_times events = [] \/ signal_times events = [last_ts]).
Proof.
  destruct fetched as [rows | e]; [| left; repeat split; reflexivity].
  destruct (loop_body_returned pair rows)
    as [[-> _] | [[-> _] | (ts & d & price & _ & Hnew & ->)]].
  - left. repeat split; reflexivity.
  - left. repeat split; reflexivity.
  - right. exists ts. split; [| split; [reflexivity | split]].
    + unfold is_new_bar in Hnew. unfold after_closed.
      destruct (last_closed_ts pair); [apply Z.ltb_lt; exact Hnew | exact I].
    + destruct (sig_long_condition d); reflexivity.
    + destruct (sig_long_condition d); [right | left]; reflexivity.
Qed.

Lemma after_closed_trans (closed : option Z) (t u : Z) :
  after_closed closed t -> (t < u)%Z -> after_closed closed u.
Proof. destruct closed; simpl; [lia | auto]. Qed.

Lemma watch_pair_times (transport : list (result (list Candle)))
      (pair : PairState) :
  let '(_, events, _) := _watch_pair mode pair transport in
  StronglySorted Z.lt (status_times events)
  /\ Forall (after_closed (last_closed_ts pair)) (status_times events)
  /\ StronglySorted Z.lt (signal_times events)
  /\ incl (signal_times events) (status_times events).
Proof.
  revert pair. induction transport as [| fetched rest IH]; intros pair;
    cbn [_watch_pair].
  - repeat split; try constructor. apply incl_refl.
  - pose proof (loop_body_times pair fetched) as Hb.
    destruct (loop_body mode pair fetched) as [[pair1 events1] [e |]].
    + (* the pass raised: an error status and a sleep follow *)
      rewrite status_times_app, signal_times_app.
      change (status_times [status_put (error_dict pair1 e mode); sleep 1])
        with (@nil Z).
      change (signal_times [status_put (error_dict pair1 e mode); sleep 1])
        with (@nil Z).
      rewrite !app_nil_r.
      destruct Hb as [(-> & -> & _) | (ts & Hts & _ & -> & Hsig)].
      * repeat split; try constructor. apply incl_refl.
      * split; [repeat constructor |]. split; [repeat constructor; exact Hts |].
        destruct Hsig as [-> | ->].
        { split; [constructor | apply incl_nil_l]. }
        { split; [repeat constructor | apply incl_refl]. }
    + specialize (IH pair1).
      destruct (_watch_pair mode pair1 rest) as [[pair2 events2] st].
      destruct IH as (S1 & A1 & S2 & I2).
      rewrite status_times_app, signal_times_app.
      destruct Hb as [(-> & -> & Hc) | (ts & Hts & Hc & -> & Hsig)].
      * rewrite Hc in A1. simpl. auto.
      * rewrite Hc in A1. simpl in A1.
        assert (Hall : Forall (Z.lt ts) (status_times events2)) by exact A1.
        split; [constructor; assumption |].
        split.
        { constructor; [exact Hts |].
          eapply Forall_impl; [| exact Hall].
          intros u Hu. eapply after_closed_trans; eauto. }
        destruct Hsig as [-> | ->]; simpl.
        { split; [exact S2 |]. intros x Hx. right. apply I2. exact Hx. }
        { split.
          - constructor; [exact S2 |]. apply Forall_forall. intros x Hx.
            rewrite Forall_forall in Hall. apply Hall. apply I2. exact Hx.
          - intros x [<- | Hx]; [left; reflexivity | right; apply I2; exact Hx]. }
Qed.

(** X28.  Along a task the timestamps of the statuses put are strictly
    increasing and all after the pair's initial [last_closed_ts]; the
    timestamps of the signals put are strictly increasing too, and each is
    the timestamp of a status: no closed candle gives two statuses or two
    signals. *)
Theorem X28_timestamps_strictly_increase :
  forall (pair : PairState) (transport : list (result (list Candle))),
    let '(_, events, _) := _watch_pair mode pair transport in
    StronglySorted Z.lt (status_times events)
    /\ Forall (after_closed (last_closed_ts pair)) (status_times events)
    /\ StronglySorted Z.lt (signal_times events)
    /\ incl (signal_times events) (status_times events)
    /\ NoDup (signal_times events).
Proof.
  intros pair transport.
  pose proof (watch_pair_times transport pair) as H.
  destruct (_watch_pair mode pair transport) as [[pair' events] st].
  destruct H as (S1 & A1 & S2 & I2). repeat split; auto.
  clear - S2. induction S2 as [| x l Hl IH Hx]; constructor; auto.
  intros Hin. rewrite Forall_forall in Hx. specialize (Hx x Hin). lia.
Qed.

End TaskEvents.

Lemma X26_new_closed_bar_witness :
  exists d price pair',
    fst (compute_signal (falling 3) (state btc_1h)) = Ok d
    /\ iat_last (col close (falling 3)) = Ok price
    /\ loop_body "rest" btc_1h (Ok (falling 3))
       = (pair',
          status_put (status_dict btc_1h 2 "rest")
          :: (if sig_long_condition d
              then [signal_put (signal_dict btc_1h 2 price d)] else [])
          ++ [sleep 0],
          None)
    /\ last_closed_ts pair' = Some 2%Z
    /\ ohlcv pair' = falling 3
    /\ state pair' = snd (compute_signal (falling 3) (state btc_1h))
    /\ (symbol pair', timeframe pair', market_type pair')
       = (symbol btc_1h, timeframe btc_1h, market_type btc_1h).
Proof.
  apply (X26_new_closed_bar "rest" btc_1h (falling 3) 2); reflexivity.
Defined.

(** ** strategy.py: [_trend_rider] in full *)

Section TrendRider.
Local Open Scope float_scope.

Lemma shift_length (n : nat) (s : Series) : length (shift n s) = length s.
Proof.
  unfold shift. rewrite length_firstn, length_app, repeat_length. lia.
Qed.

Lemma cumsum_from_length (acc : option float) (s : Series) :
  length (cumsum_from acc s) = length s.
Proof.
  revert acc. induction s as [| x s IH]; intros acc; simpl; [reflexivity |].
  destruct (is_nan x); simpl; rewrite IH; reflexivity.
Qed.

Ltac lengths :=
  cbv zeta;
  unfold where_nan, diff_n, typical_price, cumsum;
  unfold ema, sma, stdev, lowest, highest, change, gt_scalar, broadcast, col,
    clip_lower, clip_upper, fillna, replace_zero_nan;
  repeat (rewrite ?where_length, ?zip_with_length, ?length_map,
            ?ewm_mean_length, ?rolling_length, ?diff_length, ?shift1_length,
            ?shift_length, ?cumsum_from_length);
  try lia.

Lemma oscillators_length (df : DataFrame) :
  Forall (fun src => length src = length df) (oscillators df).
Proof.
  unfold oscillators, macd, stoch, mom, cci, obv, vwma. cbv zeta.
  repeat constructor; try (now lengths).
  - rewrite rsi_length. apply length_map.
  - apply mfi_length.
Qed.

Lemma pivotlow_length (low : Series) (left right : nat) :
  length (pivotlow low left right) = length low.
Proof. unfold pivotlow. lengths. Qed.

Lemma pivothigh_length (high : Series) (left right : nat) :
  length (pivothigh high left right) = length high.
Proof. unfold pivothigh. lengths. Qed.

Lemma where_nth {A : Type} (c : list bool) (a b : list A) (i : nat) (x : A) :
  nth_error (where_ c a b) i = Some x ->
  exists ci ai bi,
    nth_error c i = Some ci /\ nth_error a i = Some ai /\ nth_error b i = Some bi
    /\ x = if ci then ai else bi.
Proof.
  revert a b i. induction c as [| c0 c IH]; intros [| a0 a] [| b0 b] i H;
    try (destruct i; discriminate).
  destruct i as [| i]; simpl in H.
  - inversion H. exists c0, a0, b0. auto.
  - destruct (IH a b i H) as (ci & ai & bi & Hci & Hai & Hbi & Hx).
    exists ci, ai, bi. auto.
Qed.

Lemma zip_with_nth_inv {A B C : Type} (f : A -> B -> C) (s : list A)
      (t : list B) (i : nat) (z : C) :
  nth_error (zip_with f s t) i = Some z ->
  exists x y, nth_error s i = Some x /\ nth_error t i = Some y /\ z = f x y.
Proof.
  revert t i. induction s as [| a s IH]; intros [| b t] i H;
    try (destruct i; discriminate).
  destruct i as [| i]; simpl in H.
  - inversion H. exists a, b. auto.
  - destruct (IH t i H) as (x & y & Hx & Hy & Hz). exists x, y. auto.
Qed.

(** A pivot low sits at position 10 or later. *)
Lemma pivotlow_position (low : Series) (i : nat) (v : float) :
  nth_error (pivotlow low 5 5) i = Some v -> is_nan v = false -> (10 <= i)%nat.
Proof.
  unfold pivotlow, where_nan. intros H Hv.
  apply where_nth in H. destruct H as (ci & ai & bi & Hc & _ & Hb & ->).
  unfold broadcast in Hb. rewrite nth_error_map in Hb.
  destruct (nth_error low i); [| discriminate]. inversion Hb; subst bi.
  destruct ci; [| discriminate].
  apply zip_with_nth_inv in Hc. destruct Hc as (x & l & _ & Hl & Heq).
  unfold lowest in Hl.
  assert (Hi : (i < length (shift 5 low))%nat).
  { rewrite <- (rolling_length (5 + 5 + 1) min_of). apply nth_error_Some.
    congruence. }
  rewrite rolling_nth in Hl by exact Hi. unfold window in Hl.
  destruct (Nat.leb_spec (5 + 5 + 1) (S i)); [lia |].
  inversion Hl; subst l. rewrite eqb_nan_r in Heq. discriminate.
Qed.

Lemma Forall_firstn {A : Type} (P : A -> Prop) (n : nat) (l : list A) :
  Forall P l -> Forall P (firstn n l).
Proof.
  intros H. revert n. induction H; intros [| n]; simpl; constructor; auto.
Qed.

(** The pivot loop runs to its end, and every pivot low it lists sits at a
    position from 10 to the last bar. *)
Lemma find_pivots_ok (df : DataFrame) :
  exists pv,
    find_pivots df = Ok pv
    /\ Forall (fun pos => 10 <= pos < length df)%nat (pl_positions pv).
Proof.
  unfold find_pivots. cbv zeta.
  apply for_range_inv
    with (P := fun _ st =>
                 Forall (fun pos => 10 <= pos < length df)%nat (pl_positions st)).
  - constructor.
  - intros i st Hi HP. unfold pivot_body.
    assert (Lh : length (pivothigh (col high df) 5 5) = length df)
      by (rewrite pivothigh_length; apply length_map).
    assert (Ll : length (pivotlow (col low df) 5 5) = length df)
      by (rewrite pivotlow_length; apply length_map).
    destruct (iat_ok (pivothigh (col high df) 5 5) i) as [ph Eph]; [lia |].
    destruct (iat_ok (pivotlow (col low df) 5 5) i) as [pl Epl]; [lia |].
    rewrite Eph. cbn [bind]. rewrite Epl. cbn [bind].
    eexists. split; [reflexivity |].
    apply iat_Ok_nth in Epl.
    destruct (is_nan pl) eqn:En; cbn [negb];
      destruct (is_nan ph); cbn [negb pl_positions]; try exact HP;
      apply Forall_firstn; constructor; auto;
      (split; [eapply pivotlow_position; eauto | exact Hi]).
Qed.

Lemma line_holds_ok (price_breaks : float -> float -> bool) (src low : Series)
      (len_bars : nat) (slope1 slope2 : float) (ys : list nat) (v1 v2 : float) :
  (len_bars < length src)%nat -> (len_bars < length low)%nat ->
  exists b, line_holds price_breaks src low len_bars slope1 slope2 ys v1 v2 = Ok b.
Proof.
  intros Hs Hl. revert v1 v2. induction ys as [| y ys IH]; intros v1 v2; simpl.
  - eauto.
  - destruct (iat_ok src (len_bars - y)) as [s ->]; [lia |]. cbn [bind].
    destruct (s <? v1 + slope1); [eauto |].
    destruct (iat_ok low (len_bars - y)) as [l ->]; [lia |]. cbn [bind].
    destruct (price_breaks l (v2 + slope2)); [eauto |]. apply IH.
Qed.

Lemma divergence_loop_ok (f g h : float -> float -> bool) (n : nat)
      (low : Series) (positions : list nat) (vals : list float) (src : Series)
      (xs : list nat) :
  length low = n -> length src = n ->
  Forall (fun pos => 10 <= pos < n)%nat positions ->
  exists divlen, divergence_loop f g h n low positions vals src xs = Ok divlen.
Proof.
  intros Ll Ls Hpos. induction xs as [| x xs IH]; [simpl; eauto |].
  cbn [divergence_loop].
  destruct (Nat.eqb_spec (nth x positions 0%nat) 0) as [E0 | E0]; [eauto |].
  assert (Hin : (10 <= nth x positions 0 < n)%nat).
  { rewrite Forall_forall in Hpos. apply Hpos.
    destruct (Nat.lt_ge_cases x (length positions)) as [Hx | Hx].
    - apply nth_In. exact Hx.
    - rewrite nth_overflow in E0 by exact Hx. contradiction. }
  set (pos := nth x positions 0%nat) in *.
  destruct (Nat.ltb_spec 100 (n - pos + 5)); [eauto |].
  destruct (Nat.ltb_spec 5 (n - pos + 5)); [| exact IH].
  destruct (iat_ok src 1) as [s0 ->]; [lia |]. cbn [bind].
  destruct (iat_ok src (n - pos + 5)) as [s1 ->]; [lia |]. cbn [bind].
  destruct (f s0 s1); [| exact IH].
  destruct (iat_ok low 1) as [p0 ->]; [lia |]. cbn [bind].
  match goal with
  | |- context [g p0 ?pv] => destruct (g p0 pv); [| exact IH]
  end.
  match goal with
  | |- context [line_holds ?a ?b ?c ?d ?e1 ?e2 ?ys ?v1 ?v2] =>
      destruct (line_holds_ok a b c d e1 e2 ys v1 v2) as [arrived ->];
      [lia | lia |]
  end.
  cbn [bind]. destruct arrived; [eauto | exact IH].
Qed.

Lemma any_divergence_ok (n : nat) (low : Series) (pv : pivots)
      (oscs : list Series) :
  length low = n ->
  Forall (fun pos => 10 <= pos < n)%nat (pl_positions pv) ->
  Forall (fun src => length src = n) oscs ->
  exists b, any_divergence n low pv oscs = Ok b.
Proof.
  intros Ll Hpos Hall. induction Hall as [| src oscs Hs _ IH]; [simpl; eauto |].
  cbn [any_divergence].
  unfold _positive_regular_bullish_divergence,
    _positive_hidden_bullish_divergence. cbv zeta.
  match goal with
  | |- context [divergence_loop ?f ?g ?h n low ?ps ?vs src ?xs] =>
      destruct (divergence_loop_ok f g h n low ps vs src xs Ll Hs Hpos)
        as [r ->]
  end.
  cbn [bind]. destruct (0 <? r)%nat; [eauto |].
  match goal with
  | |- context [divergence_loop ?f ?g ?h n low ?ps ?vs src ?xs] =>
      destruct (divergence_loop_ok f g h n low ps vs src xs Ll Hs Hpos)
        as [r' ->]
  end.
  cbn [bind]. destruct (0 <? r')%nat; [eauto | exact IH].
Qed.

(** X29.  [_trend_rider] returns on every frame: the pivot loop and the
    divergence searches read positions inside the frame only; and the
    [is_vix_spike] it returns is the panic flag [compute_signal] uses. *)
Theorem X29_trend_rider_returns :
  forall (df : DataFrame),
    exists d,
      _trend_rider_dict df = Ok d
      /\ is_vix_spike d = tr_is_vix_spike (_trend_rider df).
Proof.
  intros df. unfold _trend_rider_dict. cbv zeta.
  destruct (find_pivots_ok df) as (pv & -> & Hpos). cbn [bind].
  destruct (any_divergence_ok (length df) (col low df) pv (oscillators df))
    as [b ->]; auto using oscillators_length.
  - apply length_map.
  - cbn [bind]. eexists. split; [reflexivity |]. reflexivity.
Qed.

Lemma no_pivots_no_divergence (n : nat) (low : Series) (oscs : list Series)
      (pv : pivots) :
  pl_positions pv = [] -> any_divergence n low pv oscs = Ok false.
Proof.
  intros E. induction oscs as [| src oscs IH]; [reflexivity |].
  cbn [any_divergence].
  unfold _positive_regular_bullish_divergence,
    _positive_hidden_bullish_divergence. cbv zeta.
  rewrite E. cbn. exact IH.
Qed.

(** X30.  On a frame with at most 10 bars no pivot low exists and
    [_trend_rider] reports no bullish divergence. *)
Theorem X30_no_divergence_on_short_frames :
  forall (df : DataFrame),
    (length df <= 10)%nat ->
    exists d,
      _trend_rider_dict df = Ok d /\ is_bullish_divergence_detected d = false.
Proof.
  intros df Hlen. unfold _trend_rider_dict. cbv zeta.
  destruct (find_pivots_ok df) as (pv & -> & Hpos). cbn [bind].
  assert (E : pl_positions pv = []).
  { destruct (pl_positions pv) as [| pos l]; [reflexivity |].
    inversion Hpos; subst. lia. }
  rewrite (no_pivots_no_divergence _ _ _ pv E). cbn [bind].
  eexists. split; reflexivity.
Qed.

Lemma X30_no_divergence_on_short_frames_witness :
  exists d,
    _trend_rider_dict (falling 10) = Ok d
    /\ is_bullish_divergence_detected d = false.
Proof.
  apply (X30_no_divergence_on_short_frames (falling 10)). vm_compute. lia.
Defined.

End TrendRider.
